(** * js-memory-leak-detector: the tracking engine, embedded and verified

    A shallow embedding of the TypeScript sources
    [event-listener-tracker.ts], [timer-tracker.ts], [dom-tracker.ts],
    [redux-tracker.ts] and [memory-leak-detector.ts].

    Conventions of the embedding:
    - a JS [Map] is an association list in insertion order with unique keys
      (module [JsMap]); a JS [Set] is a duplicate-free list in insertion
      order (module [JsSet]);
    - objects that the code compares by identity (event targets, listener
      functions, timer ids, store objects) are represented by numbers
      standing for their identity;
    - JS numbers that hold byte counts, timestamps and sizes are integers
      ([Z]); values that the code obtains from the host ([Date.now()], the
      id returned by the native [setTimeout], [performance.memory],
      [document.querySelectorAll('*').length], the value of
      [Date.now() + Math.random()]) are arguments of the embedded function;
    - a template literal is kept as its template together with the values
      of its holes (type [Description]); turning numbers into text is not
      modelled. *)

From stdpp Require Import base tactics option list numbers strings gmap.
From Stdlib Require Import ZArith QArith Qround Lia.

Local Open Scope Z_scope.

(** * Part I: the embedding *)

(** ** JS [Map]: association list in insertion order *)

Module JsMap.
Section jsmap.
Context {K V : Type} `{EqDecision K}.

Fixpoint get (k : K) (m : list (K * V)) : option V :=
  match m with
  | [] => None
  | (k', v) :: m' => if decide (k = k') then Some v else get k m'
  end.

Definition has (k : K) (m : list (K * V)) : bool :=
  match get k m with Some _ => true | None => false end.

(** [m.set(k, v)]: an existing key keeps its position, a new key goes last. *)
Fixpoint set (k : K) (v : V) (m : list (K * V)) : list (K * V) :=
  match m with
  | [] => [(k, v)]
  | (k', v') :: m' =>
      if decide (k = k') then (k, v) :: m' else (k', v') :: set k v m'
  end.

Definition delete (k : K) (m : list (K * V)) : list (K * V) :=
  filter (λ p, p.1 ≠ k) m.

Definition size (m : list (K * V)) : nat := length m.

(** Sum of a measure over the values (not a JS operation; it is what the
    counting loops over a map compute). *)
Definition total (f : V → nat) (m : list (K * V)) : nat :=
  sum_list_with f m.*2.

End jsmap.
End JsMap.

(** ** JS [Set]: duplicate-free list in insertion order *)

Module JsSet.
Section jsset.
Context {A : Type} `{EqDecision A}.

Definition has (x : A) (s : list A) : bool := bool_decide (x ∈ s).

Definition add (x : A) (s : list A) : list A :=
  if decide (x ∈ s) then s else s ++ [x].

Definition delete (x : A) (s : list A) : list A :=
  filter (λ y, y ≠ x) s.

Definition size (s : list A) : nat := length s.

(** [[...new Set(l)]]: the elements of [l], each at its first occurrence. *)
Definition of_list (l : list A) : list A := foldl (λ s x, add x s) [] l.

End jsset.
End JsSet.

(** ** [types.ts] *)

(** The string literals of [LeakSuspect.type]. *)
Module LeakType.
Inductive t : Type :=
  | event_listener | timer | dom_reference | closure | detached_dom
  | redux_subscription | redux_selector.
End LeakType.

Inductive Severity : Type := low | medium | high | critical.

Global Instance LeakType_eq_dec : EqDecision LeakType.t.
Proof. solve_decision. Defined.

Global Instance Severity_eq_dec : EqDecision Severity.
Proof. solve_decision. Defined.

(** An event target, compared by identity; [constructor_name] is what
    [target.constructor.name] evaluates to. *)
Record EventTarget : Type := {
  target_id : nat;
  constructor_name : string
}.

Global Instance EventTarget_eq_dec : EqDecision EventTarget.
Proof. solve_decision. Defined.

(** A listener function or object, compared by identity. *)
Definition EventListener : Type := nat.

(** The template literals of the [description] fields, with the values of
    their holes. *)
Inductive Description : Type :=
  | (* `${totalListeners} event listeners attached to ${target.constructor.name}` *)
    DescEventListeners (totalListeners : Z) (name : string)
  | (* `${oldTimers} timers running for more than 5 minutes` *)
    DescOldTimers (oldTimers : Z)
  | (* `${totalIntervals} active intervals detected` *)
    DescActiveIntervals (totalIntervals : Z)
  | (* `${currentNodeCount} DOM nodes detected (potential DOM bloat)` *)
    DescDomNodes (currentNodeCount : Z)
  | (* `${detachedCount} detached DOM nodes found in memory` *)
    DescDetachedNodes (detachedCount : Z)
  | (* `Memory increased by ${growthMB.toFixed(2)}MB in ${this.config.reportInterval / 1000}s` *)
    DescMemoryIncreased (growthMB : Q) (seconds : Q)
  | (* `${this.storeSubscriptions.size} active Redux store subscriptions detected` *)
    DescStoreSubscriptions (n : Z)
  | (* `${oldSubscriptions} Redux subscriptions active for more than 10 minutes` *)
    DescOldSubscriptions (oldSubscriptions : Z)
  | (* `Selector "${selector}" called ${stats.count} times recently (potential infinite re-render)` *)
    DescSelectorCalls (selector : string) (n : Z).

Module LeakSuspect.
Record t : Type := {
  type : LeakType.t;
  severity : Severity;
  description : Description;
  stackTrace : option string;
  element : option string;
  count : option Z
}.
End LeakSuspect.

(** The object literal [{ type, severity, description, count }] that every
    rule of the sources pushes. *)
Definition suspect (ty : LeakType.t) (sev : Severity) (d : Description) (n : Z)
  : LeakSuspect.t :=
  {| LeakSuspect.type := ty; LeakSuspect.severity := sev;
     LeakSuspect.description := d; LeakSuspect.stackTrace := None;
     LeakSuspect.element := None; LeakSuspect.count := Some n |}.

Module Memory.
Record t : Type := { heapUsed : Z; heapTotal : Z; external : Z; arrayBuffers : Z }.
End Memory.

Module Counts.
Record t : Type := { eventListeners : Z; timers : Z; domNodes : Z; detachedNodes : Z }.
End Counts.

Module MemorySnapshot.
Record t : Type := { timestamp : Z; memory : Memory.t; counts : Counts.t }.
End MemorySnapshot.

Module MemoryLeakReport.
Record t : Type := {
  timestamp : Z;
  heapUsed : Z;
  heapTotal : Z;
  external : Z;
  arrayBuffers : Z;
  leakSuspects : list LeakSuspect.t;
  recommendations : list string
}.
End MemoryLeakReport.

(** [DetectorConfig]: every field is optional.  The two callback fields are
    not data of the embedding: their invocations are the effects [OnLeak] and
    [OnReport] below. *)
Module DetectorConfig.
Record t : Type := {
  enableEventListenerTracking : option bool;
  enableTimerTracking : option bool;
  enableDOMTracking : option bool;
  enableReduxTracking : option bool;
  enablePerformanceObserver : option bool;
  reportInterval : option Z;
  memoryThreshold : option Z
}.
End DetectorConfig.

(** ** The host: function values, global slots, effects *)

(** A function value.  [HostFn n] is a function that exists independently of
    the trackers; the other constructors are the closures that the trackers
    create. *)
Inductive Fn : Type :=
  | HostFn (n : nat)
  | AddEventListenerShim
  | RemoveEventListenerShim
  | SetTimeoutShim
  | SetIntervalShim
  | ClearTimeoutShim
  | ClearIntervalShim
  | SubscribeShim
  | DevToolsShim (originalExtension : Fn).

Global Instance Fn_eq_dec : EqDecision Fn.
Proof. solve_decision. Defined.

(** A timer id as the native [setTimeout]/[setInterval] return it; an id is
    truthy when it is not [0]. *)
Definition TimerId : Type := Z.

(** An object reference (identity). *)
Definition ObjRef : Type := nat.

(** The arguments of a forwarded call; what the trackers do not inspect is
    kept as an opaque token. *)
Inductive CallArgs : Type :=
  | ListenerArgs (this : EventTarget) (type : string) (listener : EventListener)
      (options : option nat)
  | SetTimerArgs (handler : nat) (timeout : option Z) (args : list nat)
  | ClearTimerArgs (id : option TimerId)
  | SubscribeArgs (this : ObjRef) (listener : nat)
  | DevToolsArgs (args : list nat).

Inductive LogMessage : Type := DetectorStarted | DetectorStopped.

(** What a function of the engine does to the outside, in order. *)
Inductive Effect : Type :=
  | Call (f : Fn) (args : CallArgs)             (* f.call(this, ...) *)
  | CallUnsubscribe (unsubscribe : nat)         (* unsubscribe() of the store *)
  | ObserverObserve                             (* observer.observe(document.body, ...) *)
  | ObserverDisconnect                          (* observer.disconnect() *)
  | ConsoleLog (m : LogMessage)
  | OnLeak (s : LeakSuspect.t)                  (* this.config.onLeak(suspect) *)
  | OnReport (r : MemoryLeakReport.t).          (* this.config.onReport(report) *)

Module Window.
Record t : Type := {
  REDUX_STORE : option ObjRef;               (* window.__REDUX_STORE__ *)
  store : option ObjRef;                     (* window.store *)
  STORE : option ObjRef;                     (* window.__STORE__ *)
  REDUX_DEVTOOLS_EXTENSION : option Fn       (* window.__REDUX_DEVTOOLS_EXTENSION__ *)
}.
End Window.

(** The mutable slots of the host that the trackers read and assign.
    [subscribe] maps an object to the function held by its [subscribe]
    property; an object that is not in the map has no function there. *)
Module World.
Record t : Type := {
  addEventListener : Fn;         (* EventTarget.prototype.addEventListener *)
  removeEventListener : Fn;      (* EventTarget.prototype.removeEventListener *)
  setTimeout : Fn;               (* globalThis.setTimeout *)
  setInterval : Fn;
  clearTimeout : Fn;
  clearInterval : Fn;
  window : option Window.t;      (* None: typeof window === 'undefined' *)
  subscribe : gmap ObjRef Fn;
  MutationObserver : bool        (* typeof MutationObserver !== 'undefined' *)
}.

Definition set_listener_slots (add remove : Fn) (w : t) : t :=
  {| addEventListener := add; removeEventListener := remove;
     setTimeout := setTimeout w; setInterval := setInterval w;
     clearTimeout := clearTimeout w; clearInterval := clearInterval w;
     window := window w; subscribe := subscribe w;
     MutationObserver := MutationObserver w |}.

Definition set_timer_slots (st si ct ci : Fn) (w : t) : t :=
  {| addEventListener := addEventListener w;
     removeEventListener := removeEventListener w;
     setTimeout := st; setInterval := si;
     clearTimeout := ct; clearInterval := ci;
     window := window w; subscribe := subscribe w;
     MutationObserver := MutationObserver w |}.

Definition set_subscribe (store : ObjRef) (f : Fn) (w : t) : t :=
  {| addEventListener := addEventListener w;
     removeEventListener := removeEventListener w;
     setTimeout := setTimeout w; setInterval := setInterval w;
     clearTimeout := clearTimeout w; clearInterval := clearInterval w;
     window := window w; subscribe := <[store := f]> (subscribe w);
     MutationObserver := MutationObserver w |}.

Definition set_devtools (f : Fn) (w : t) : t :=
  {| addEventListener := addEventListener w;
     removeEventListener := removeEventListener w;
     setTimeout := setTimeout w; setInterval := setInterval w;
     clearTimeout := clearTimeout w; clearInterval := clearInterval w;
     window :=
       (λ win, {| Window.REDUX_STORE := Window.REDUX_STORE win;
                  Window.store := Window.store win;
                  Window.STORE := Window.STORE win;
                  Window.REDUX_DEVTOOLS_EXTENSION := Some f |}) <$> window w;
     subscribe := subscribe w;
     MutationObserver := MutationObserver w |}.
End World.

(** ** [event-listener-tracker.ts] *)

Module EventListenerTracker.

(** [Map<EventTarget, Map<string, Set<EventListener>>>] *)
Abbreviation Listeners := (list (EventTarget * list (string * list EventListener))).

Record t : Type := {
  listeners : Listeners;
  originalAddEventListener : Fn;
  originalRemoveEventListener : Fn
}.

Definition with_listeners (l : Listeners) (self : t) : t :=
  {| listeners := l;
     originalAddEventListener := originalAddEventListener self;
     originalRemoveEventListener := originalRemoveEventListener self |}.

(** The function assigned to [EventTarget.prototype.addEventListener].  The
    inner map and the set are objects shared with the outer map: the
    mutation of the set is written back through both levels. *)
Definition addEventListener (self : t) (this : EventTarget) (type : string)
    (listener : EventListener) (options : option nat) : t * list Effect :=
  let listeners1 :=
    if JsMap.has this (listeners self) then listeners self
    else JsMap.set this [] (listeners self) in
  let targetListeners := default [] (JsMap.get this listeners1) in
  let targetListeners1 :=
    if JsMap.has type targetListeners then targetListeners
    else JsMap.set type [] targetListeners in
  let listenerSet := default [] (JsMap.get type targetListeners1) in
  let targetListeners2 :=
    JsMap.set type (JsSet.add listener listenerSet) targetListeners1 in
  (with_listeners (JsMap.set this targetListeners2 listeners1) self,
   [Call (originalAddEventListener self)
      (ListenerArgs this type listener options)]).

(** The function assigned to [EventTarget.prototype.removeEventListener]. *)
Definition removeEventListener (self : t) (this : EventTarget) (type : string)
    (listener : EventListener) (options : option nat) : t * list Effect :=
  let listeners' :=
    match JsMap.get this (listeners self) with
    | Some targetListeners =>
        match JsMap.get type targetListeners with
        | Some listenerSet =>
            let listenerSet1 := JsSet.delete listener listenerSet in
            let targetListeners1 := JsMap.set type listenerSet1 targetListeners in
            let targetListeners2 :=
              if decide (JsSet.size listenerSet1 = 0%nat)
              then JsMap.delete type targetListeners1 else targetListeners1 in
            let listeners1 := JsMap.set this targetListeners2 (listeners self) in
            if decide (JsMap.size targetListeners2 = 0%nat)
            then JsMap.delete this listeners1 else listeners1
        | None => listeners self
        end
    | None => listeners self
    end in
  (with_listeners listeners' self,
   [Call (originalRemoveEventListener self)
      (ListenerArgs this type listener options)]).

(** [patchEventListeners]: installs the two functions above. *)
Definition patchEventListeners (w : World.t) : World.t :=
  World.set_listener_slots AddEventListenerShim RemoveEventListenerShim w.

(** [constructor] *)
Definition new (w : World.t) : t * World.t :=
  ({| listeners := [];
      originalAddEventListener := World.addEventListener w;
      originalRemoveEventListener := World.removeEventListener w |},
   patchEventListeners w).

Definition getActiveListeners (self : t) : Z :=
  foldl (λ count '(target, listeners),
           foldl (λ count '(type, listenerSet),
                    count + Z.of_nat (JsSet.size listenerSet))
                 count listeners)
        0 (listeners self).

Definition detectLeaks (self : t) : list LeakSuspect.t :=
  let threshold := 50 in
  foldl (λ suspects '(target, listeners),
           let totalListeners :=
             foldl (λ totalListeners '(type, listenerSet),
                      totalListeners + Z.of_nat (JsSet.size listenerSet))
                   0 listeners in
           if decide (totalListeners > threshold)
           then suspects ++
                [suspect LeakType.event_listener
                   (if decide (totalListeners > 100) then critical else high)
                   (DescEventListeners totalListeners (constructor_name target))
                   totalListeners]
           else suspects)
        [] (listeners self).

Definition cleanup (self : t) (w : World.t) : t * World.t :=
  (with_listeners [] self,
   World.set_listener_slots (originalAddEventListener self)
     (originalRemoveEventListener self) w).

End EventListenerTracker.

(** ** [timer-tracker.ts] *)

Module TimerType.
Inductive t : Type := timeout | interval.
End TimerType.

Global Instance TimerType_eq_dec : EqDecision TimerType.t.
Proof. solve_decision. Defined.

Module TimerInfo.
Record t : Type := { type : TimerType.t; created : Z; stack : option string }.
End TimerInfo.

Module TimerTracker.

Record t : Type := {
  timers : list (TimerId * TimerInfo.t);
  originalSetTimeout : Fn;
  originalSetInterval : Fn;
  originalClearTimeout : Fn;
  originalClearInterval : Fn
}.

Definition with_timers (m : list (TimerId * TimerInfo.t)) (self : t) : t :=
  {| timers := m;
     originalSetTimeout := originalSetTimeout self;
     originalSetInterval := originalSetInterval self;
     originalClearTimeout := originalClearTimeout self;
     originalClearInterval := originalClearInterval self |}.

(** The function assigned to [globalThis.setTimeout].  [id] is what the
    original returns, [now] is [Date.now()], [stack] is [new Error().stack]. *)
Definition setTimeout (self : t) (handler : nat) (timeout : option Z)
    (args : list nat) (id : TimerId) (now : Z) (stack : option string)
  : t * TimerId * list Effect :=
  (with_timers
     (JsMap.set id
        {| TimerInfo.type := TimerType.timeout; TimerInfo.created := now;
           TimerInfo.stack := stack |} (timers self)) self,
   id,
   [Call (originalSetTimeout self) (SetTimerArgs handler timeout args)]).

Definition setInterval (self : t) (handler : nat) (timeout : option Z)
    (args : list nat) (id : TimerId) (now : Z) (stack : option string)
  : t * TimerId * list Effect :=
  (with_timers
     (JsMap.set id
        {| TimerInfo.type := TimerType.interval; TimerInfo.created := now;
           TimerInfo.stack := stack |} (timers self)) self,
   id,
   [Call (originalSetInterval self) (SetTimerArgs handler timeout args)]).

(** [if (id)]: [undefined] and [0] are falsy. *)
Definition truthy (id : option TimerId) : bool :=
  match id with Some i => bool_decide (i ≠ 0) | None => false end.

Definition clearTimeout (self : t) (id : option TimerId) : t * list Effect :=
  (if truthy id
   then with_timers (JsMap.delete (default 0 id) (timers self)) self
   else self,
   [Call (originalClearTimeout self) (ClearTimerArgs id)]).

Definition clearInterval (self : t) (id : option TimerId) : t * list Effect :=
  (if truthy id
   then with_timers (JsMap.delete (default 0 id) (timers self)) self
   else self,
   [Call (originalClearInterval self) (ClearTimerArgs id)]).

Definition patchTimers (w : World.t) : World.t :=
  World.set_timer_slots SetTimeoutShim SetIntervalShim ClearTimeoutShim
    ClearIntervalShim w.

Definition new (w : World.t) : t * World.t :=
  ({| timers := [];
      originalSetTimeout := World.setTimeout w;
      originalSetInterval := World.setInterval w;
      originalClearTimeout := World.clearTimeout w;
      originalClearInterval := World.clearInterval w |},
   patchTimers w).

Definition getActiveTimers (self : t) : Z := Z.of_nat (JsMap.size (timers self)).

(** [now] is the [Date.now()] read at the start of [detectLeaks]. *)
Definition detectLeaks (self : t) (now : Z) : list LeakSuspect.t :=
  let oldTimerThreshold := 5 * 60 * 1000 in
  let '(oldTimers, totalIntervals) :=
    foldl (λ '(oldTimers, totalIntervals) '(id, timer),
             let totalIntervals1 :=
               if decide (TimerInfo.type timer = TimerType.interval)
               then totalIntervals + 1 else totalIntervals in
             let oldTimers1 :=
               if decide (now - TimerInfo.created timer > oldTimerThreshold)
               then oldTimers + 1 else oldTimers in
             (oldTimers1, totalIntervals1))
          (0, 0) (timers self) in
  let suspects1 :=
    if decide (oldTimers > 10)
    then [suspect LeakType.timer (if decide (oldTimers > 50) then critical else high)
            (DescOldTimers oldTimers) oldTimers]
    else [] in
  if decide (totalIntervals > 20)
  then suspects1 ++
       [suspect LeakType.timer (if decide (totalIntervals > 100) then critical else medium)
          (DescActiveIntervals totalIntervals) totalIntervals]
  else suspects1.

Definition cleanup (self : t) (w : World.t) : t * World.t :=
  (with_timers [] self,
   World.set_timer_slots (originalSetTimeout self) (originalSetInterval self)
     (originalClearTimeout self) (originalClearInterval self) w).

End TimerTracker.

(** ** [dom-tracker.ts] *)

(** What the mutation callback reads from a node. *)
Module NodeView.
Record t : Type := {
  node : nat;                    (* the node, by identity *)
  nodeType : Z;
  contained : bool;              (* document.contains(node) *)
  parentNode : option nat
}.
End NodeView.

Module MutationRecord.
Record t : Type := {
  addedNodes : list NodeView.t;
  removedNodes : list NodeView.t
}.
End MutationRecord.

Module DOMTracker.

Record t : Type := {
  observer : bool;               (* false: null *)
  detachedNodes : list nat;      (* Set<Node> *)
  nodeCount : Z
}.

Definition ELEMENT_NODE : Z := 1.

Definition setupMutationObserver (self : t) (w : World.t) : t * list Effect :=
  if World.MutationObserver w
  then ({| observer := true; detachedNodes := detachedNodes self;
           nodeCount := nodeCount self |}, [ObserverObserve])
  else (self, []).

Definition new (w : World.t) : t * list Effect :=
  setupMutationObserver
    {| observer := false; detachedNodes := []; nodeCount := 0 |} w.

Definition checkForDetachedNode (self : t) (node : NodeView.t) : t :=
  if decide (NodeView.nodeType node = ELEMENT_NODE)
  then
    if negb (NodeView.contained node)
       && bool_decide (NodeView.parentNode node = None)
    then {| observer := observer self;
            detachedNodes := JsSet.add (NodeView.node node) (detachedNodes self);
            nodeCount := nodeCount self |}
    else self
  else self.

(** The callback given to [new MutationObserver]. *)
Definition onMutations (self : t) (mutations : list MutationRecord.t) : t :=
  foldl (λ self mutation,
           let self1 :=
             foldl (λ self node,
                      {| observer := observer self;
                         detachedNodes := detachedNodes self;
                         nodeCount := nodeCount self + 1 |})
                   self (MutationRecord.addedNodes mutation) in
           foldl checkForDetachedNode self1 (MutationRecord.removedNodes mutation))
        self mutations.

(** [querySelectorAll_length] is [document.querySelectorAll('*').length]. *)
Definition getDOMNodeCount (self : t) (querySelectorAll_length : Z) : Z :=
  querySelectorAll_length.

Definition getDetachedNodeCount (self : t) : Z :=
  Z.of_nat (JsSet.size (detachedNodes self)).

Definition detectLeaks (self : t) (querySelectorAll_length : Z)
  : list LeakSuspect.t :=
  let currentNodeCount := getDOMNodeCount self querySelectorAll_length in
  let detachedCount := getDetachedNodeCount self in
  let suspects1 :=
    if decide (currentNodeCount > 10000)
    then [suspect LeakType.dom_reference
            (if decide (currentNodeCount > 50000) then critical else high)
            (DescDomNodes currentNodeCount) currentNodeCount]
    else [] in
  if decide (detachedCount > 100)
  then suspects1 ++
       [suspect LeakType.detached_dom
          (if decide (detachedCount > 1000) then critical else medium)
          (DescDetachedNodes detachedCount) detachedCount]
  else suspects1.

Definition cleanup (self : t) : t * list Effect :=
  ({| observer := false; detachedNodes := []; nodeCount := nodeCount self |},
   if observer self then [ObserverDisconnect] else []).

End DOMTracker.

(** ** [redux-tracker.ts] *)

(** The number [Date.now() + Math.random()] used as a key. *)
Definition SubscriptionId : Type := Z.

Module Subscription.
Record t : Type := { subscriber : nat; created : Z; stack : option string }.
End Subscription.

Module SelectorStats.
Record t : Type := { count : Z; lastCalled : Z }.
End SelectorStats.

(** A function returned by [store.subscribe]: the store's own, or the closure
    that the patched [subscribe] returns, which captures [subscriptionId] and
    the store's [unsubscribe]. *)
Inductive Unsubscribe : Type :=
  | NativeUnsubscribe (unsubscribe : nat)
  | WrappedUnsubscribe (subscriptionId : SubscriptionId) (unsubscribe : nat).

Module ReduxTracker.

Record t : Type := {
  storeSubscriptions : list (SubscriptionId * Subscription.t);
  selectorCalls : list (string * SelectorStats.t);
  originalStoreSubscribe : option Fn;
  storeRef : option ObjRef
}.

Definition with_storeSubscriptions
    (m : list (SubscriptionId * Subscription.t)) (self : t) : t :=
  {| storeSubscriptions := m; selectorCalls := selectorCalls self;
     originalStoreSubscribe := originalStoreSubscribe self;
     storeRef := storeRef self |}.

Definition patchStore (self : t) (w : World.t) (store : ObjRef) : t * World.t :=
  match storeRef self with
  | Some _ => (self, w)                                  (* Already patched *)
  | None =>
      ({| storeSubscriptions := storeSubscriptions self;
          selectorCalls := selectorCalls self;
          originalStoreSubscribe := World.subscribe w !! store;
          storeRef := Some store |},
       World.set_subscribe store SubscribeShim w)
  end.

(** The function assigned to [store.subscribe].  [unsubscribe] is what the
    original returns, [subscriptionId] is [Date.now() + Math.random()], [now]
    is the later [Date.now()].  [None]: the call of an undefined
    [originalStoreSubscribe] throws. *)
Definition subscribe (self : t) (this : ObjRef) (listener : nat)
    (unsubscribe : nat) (subscriptionId : SubscriptionId) (now : Z)
    (stack : option string) : option (t * Unsubscribe * list Effect) :=
  match originalStoreSubscribe self with
  | None => None
  | Some original =>
      Some (with_storeSubscriptions
              (JsMap.set subscriptionId
                 {| Subscription.subscriber := listener;
                    Subscription.created := now;
                    Subscription.stack := stack |}
                 (storeSubscriptions self)) self,
            WrappedUnsubscribe subscriptionId unsubscribe,
            [Call original (SubscribeArgs this listener)])
  end.

(** A call of the closure returned by the patched [subscribe]. *)
Definition call_unsubscribe (self : t) (subscriptionId : SubscriptionId)
    (unsubscribe : nat) : t * list Effect :=
  (with_storeSubscriptions
     (JsMap.delete subscriptionId (storeSubscriptions self)) self,
   [CallUnsubscribe unsubscribe]).

Definition setupDevToolsHook (w : World.t) (originalExtension : Fn) : World.t :=
  World.set_devtools (DevToolsShim originalExtension) w.

(** A store created through the function assigned to
    [window.__REDUX_DEVTOOLS_EXTENSION__]: [store] is what [createStore]
    returns. *)
Definition devToolsCreateStore (self : t) (w : World.t)
    (originalExtension : Fn) (args : list nat) (store : ObjRef)
  : t * World.t * list Effect :=
  (patchStore self w store, [Call originalExtension (DevToolsArgs args)]).

(** [store && typeof store.subscribe === 'function'], first match. *)
Fixpoint firstStore (w : World.t) (possibleStores : list (option ObjRef))
  : option ObjRef :=
  match possibleStores with
  | [] => None
  | Some store :: rest =>
      if decide (is_Some (World.subscribe w !! store)) then Some store
      else firstStore w rest
  | None :: rest => firstStore w rest
  end.

Definition detectStoreFromWindow (self : t) (w : World.t) (win : Window.t)
  : t * World.t :=
  let possibleStores :=
    [Window.REDUX_STORE win; Window.store win; Window.STORE win] in
  let '(self1, w1) :=
    match firstStore w possibleStores with
    | Some store => patchStore self w store
    | None => (self, w)
    end in
  match Window.REDUX_DEVTOOLS_EXTENSION win with
  | Some originalExtension => (self1, setupDevToolsHook w1 originalExtension)
  | None => (self1, w1)
  end.

Definition patchReduxStore (self : t) (w : World.t) : t * World.t :=
  match World.window w with
  | Some win => detectStoreFromWindow self w win
  | None => (self, w)
  end.

Definition new (w : World.t) : t * World.t :=
  patchReduxStore
    {| storeSubscriptions := []; selectorCalls := [];
       originalStoreSubscribe := None; storeRef := None |} w.

Definition trackSelectorUsage (self : t) (selectorName : string) (now : Z) : t :=
  let current :=
    default {| SelectorStats.count := 0; SelectorStats.lastCalled := 0 |}
      (JsMap.get selectorName (selectorCalls self)) in
  {| storeSubscriptions := storeSubscriptions self;
     selectorCalls :=
       JsMap.set selectorName
         {| SelectorStats.count := SelectorStats.count current + 1;
            SelectorStats.lastCalled := now |} (selectorCalls self);
     originalStoreSubscribe := originalStoreSubscribe self;
     storeRef := storeRef self |}.

Definition getActiveSubscriptions (self : t) : Z :=
  Z.of_nat (JsMap.size (storeSubscriptions self)).

Definition detectLeaks (self : t) (now : Z) : list LeakSuspect.t :=
  let size := Z.of_nat (JsMap.size (storeSubscriptions self)) in
  let suspects1 :=
    if decide (size > 50)
    then [suspect LeakType.redux_subscription
            (if decide (size > 200) then critical else high)
            (DescStoreSubscriptions size) size]
    else [] in
  let oldSubscriptions :=
    foldl (λ oldSubscriptions '(id, sub),
             if decide (now - Subscription.created sub > 10 * 60 * 1000)
             then oldSubscriptions + 1 else oldSubscriptions)
          0 (storeSubscriptions self) in
  let suspects2 :=
    if decide (oldSubscriptions > 10)
    then suspects1 ++
         [suspect LeakType.redux_subscription
            (if decide (oldSubscriptions > 50) then critical else medium)
            (DescOldSubscriptions oldSubscriptions) oldSubscriptions]
    else suspects1 in
  foldl (λ suspects '(selector, stats),
           if decide (SelectorStats.count stats > 1000
                      ∧ now - SelectorStats.lastCalled stats < 60000)
           then suspects ++
                [suspect LeakType.redux_selector
                   (if decide (SelectorStats.count stats > 5000)
                    then critical else high)
                   (DescSelectorCalls selector (SelectorStats.count stats))
                   (SelectorStats.count stats)]
           else suspects)
        suspects2 (selectorCalls self).

Definition cleanup (self : t) (w : World.t) : t * World.t :=
  ({| storeSubscriptions := []; selectorCalls := [];
      originalStoreSubscribe := originalStoreSubscribe self;
      storeRef := storeRef self |},
   match storeRef self, originalStoreSubscribe self with
   | Some store, Some original => World.set_subscribe store original w
   | _, _ => w
   end).

End ReduxTracker.

(** ** [memory-leak-detector.ts] *)

(** [Required<DetectorConfig>], without the two callbacks. *)
Module Config.
Record t : Type := {
  enableEventListenerTracking : bool;
  enableTimerTracking : bool;
  enableDOMTracking : bool;
  enableReduxTracking : bool;
  enablePerformanceObserver : bool;
  reportInterval : Z;
  memoryThreshold : Z
}.
End Config.

(** The properties that [takeSnapshot] reads from the object returned by
    [getMemoryInfo]; [None] is [undefined]. *)
Module MemoryInfo.
Record t : Type := {
  usedJSHeapSize : option Z;
  totalJSHeapSize : option Z;
  external : option Z;
  arrayBuffers : option Z
}.
End MemoryInfo.

(** The values that one [generateReport] reads from the host, in the order
    of the reads. *)
Module Readings.
Record t : Type := {
  performance_memory : option MemoryInfo.t;  (* (performance as any).memory *)
  now : Z;                         (* Date.now() in takeSnapshot *)
  domNodes : Z;                    (* querySelectorAll('*').length in takeSnapshot *)
  timer_now : Z;                   (* Date.now() in TimerTracker.detectLeaks *)
  detect_domNodes : Z;             (* querySelectorAll('*').length in DOMTracker.detectLeaks *)
  redux_now : Z                    (* Date.now() in ReduxTracker.detectLeaks *)
}.
End Readings.

(** [array.slice(-n)] *)
Definition slice_last {A : Type} (n : nat) (l : list A) : list A :=
  drop (length l - n)%nat l.

(** [Math.round] on an exact quotient: the nearest integer, a tie going up. *)
Definition Math_round (x : Q) : Z := Qfloor (x + (1 # 2))%Q.

Module MemoryLeakDetector.

Record t : Type := {
  config : Config.t;
  eventTracker : option EventListenerTracker.t;
  timerTracker : option TimerTracker.t;
  domTracker : option DOMTracker.t;
  reduxTracker : option ReduxTracker.t;
  snapshots : list MemorySnapshot.t;
  reportInterval : option TimerId;
  isRunning : bool
}.

Definition resolveConfig (config : DetectorConfig.t) : Config.t :=
  {| Config.enableEventListenerTracking :=
       default true (DetectorConfig.enableEventListenerTracking config);
     Config.enableTimerTracking :=
       default true (DetectorConfig.enableTimerTracking config);
     Config.enableDOMTracking :=
       default true (DetectorConfig.enableDOMTracking config);
     Config.enableReduxTracking :=
       default true (DetectorConfig.enableReduxTracking config);
     Config.enablePerformanceObserver :=
       default true (DetectorConfig.enablePerformanceObserver config);
     Config.reportInterval :=
       default 30000 (DetectorConfig.reportInterval config);
     Config.memoryThreshold :=
       default 300 (DetectorConfig.memoryThreshold config) |}.

(** [constructor] followed by [init]: the trackers are created in the order
    event, timer, DOM, Redux, each on the world left by the one before. *)
Definition new (config : DetectorConfig.t) (w : World.t)
  : t * World.t * list Effect :=
  let config := resolveConfig config in
  let '(eventTracker, w1) :=
    if Config.enableEventListenerTracking config
    then let '(tr, w') := EventListenerTracker.new w in (Some tr, w')
    else (None, w) in
  let '(timerTracker, w2) :=
    if Config.enableTimerTracking config
    then let '(tr, w') := TimerTracker.new w1 in (Some tr, w')
    else (None, w1) in
  let '(domTracker, effects) :=
    if Config.enableDOMTracking config
    then let '(tr, e) := DOMTracker.new w2 in (Some tr, e)
    else (None, []) in
  let '(reduxTracker, w3) :=
    if Config.enableReduxTracking config
    then let '(tr, w') := ReduxTracker.new w2 in (Some tr, w')
    else (None, w2) in
  ({| config := config; eventTracker := eventTracker;
      timerTracker := timerTracker; domTracker := domTracker;
      reduxTracker := reduxTracker; snapshots := [];
      reportInterval := None; isRunning := false |}, w3, effects).

Definition with_snapshots (s : list MemorySnapshot.t) (self : t) : t :=
  {| config := config self; eventTracker := eventTracker self;
     timerTracker := timerTracker self; domTracker := domTracker self;
     reduxTracker := reduxTracker self; snapshots := s;
     reportInterval := reportInterval self; isRunning := isRunning self |}.

Definition getMemoryInfo (performance_memory : option MemoryInfo.t)
  : MemoryInfo.t :=
  match performance_memory with
  | Some memory => memory
  | None =>
      (* { heapUsed: 0, heapTotal: 0, external: 0, arrayBuffers: 0 } *)
      {| MemoryInfo.usedJSHeapSize := None; MemoryInfo.totalJSHeapSize := None;
         MemoryInfo.external := Some 0; MemoryInfo.arrayBuffers := Some 0 |}
  end.

Definition takeSnapshot (self : t) (r : Readings.t) : MemorySnapshot.t * t :=
  let memory := getMemoryInfo (Readings.performance_memory r) in
  let snapshot :=
    {| MemorySnapshot.timestamp := Readings.now r;
       MemorySnapshot.memory :=
         {| Memory.heapUsed := default 0 (MemoryInfo.usedJSHeapSize memory);
            Memory.heapTotal := default 0 (MemoryInfo.totalJSHeapSize memory);
            Memory.external := default 0 (MemoryInfo.external memory);
            Memory.arrayBuffers := default 0 (MemoryInfo.arrayBuffers memory) |};
       MemorySnapshot.counts :=
         {| Counts.eventListeners :=
              default 0 (EventListenerTracker.getActiveListeners <$> eventTracker self);
            Counts.timers :=
              default 0 (TimerTracker.getActiveTimers <$> timerTracker self);
            Counts.domNodes :=
              default 0 ((λ tr, DOMTracker.getDOMNodeCount tr (Readings.domNodes r))
                           <$> domTracker self);
            Counts.detachedNodes :=
              default 0 (DOMTracker.getDetachedNodeCount <$> domTracker self) |} |} in
  let snapshots1 := snapshots self ++ [snapshot] in
  let snapshots2 :=
    if decide (100 < length snapshots1)%nat
    then slice_last 100 snapshots1 else snapshots1 in
  (snapshot, with_snapshots snapshots2 self).

(** The last block of [detectLeaks] ("Analyze memory growth").  The quotient
    by [1024 * 1024] is exact in binary floating point, so the rational
    [growthMB] is the value the code compares and rounds. *)
Definition memoryGrowthSuspects (self : t) : list LeakSuspect.t :=
  if decide (2 ≤ length (snapshots self))%nat
  then
    match snapshots self !! (length (snapshots self) - 1)%nat,
          snapshots self !! (length (snapshots self) - 2)%nat with
    | Some latest, Some previous =>
        let memoryGrowth :=
          Memory.heapUsed (MemorySnapshot.memory latest)
          - Memory.heapUsed (MemorySnapshot.memory previous) in
        let growthMB := (inject_Z memoryGrowth / inject_Z (1024 * 1024))%Q in
        if Qlt_le_dec 10 growthMB
        then [suspect LeakType.closure
                (if Qlt_le_dec 50 growthMB then critical else high)
                (DescMemoryIncreased growthMB
                   (inject_Z (Config.reportInterval (config self)) / 1000)%Q)
                (Math_round growthMB)]
        else []
    | _, _ => []
    end
  else [].

Definition detectLeaks (self : t) (r : Readings.t) : list LeakSuspect.t :=
  let suspects := [] in
  let suspects :=
    match eventTracker self with
    | Some tr => suspects ++ EventListenerTracker.detectLeaks tr
    | None => suspects
    end in
  let suspects :=
    match timerTracker self with
    | Some tr => suspects ++ TimerTracker.detectLeaks tr (Readings.timer_now r)
    | None => suspects
    end in
  let suspects :=
    match domTracker self with
    | Some tr => suspects ++ DOMTracker.detectLeaks tr (Readings.detect_domNodes r)
    | None => suspects
    end in
  let suspects :=
    match reduxTracker self with
    | Some tr => suspects ++ ReduxTracker.detectLeaks tr (Readings.redux_now r)
    | None => suspects
    end in
  suspects ++ memoryGrowthSuspects self.

Definition recommendation (type : LeakType.t) : string :=
  match type with
  | LeakType.event_listener =>
      "Remove event listeners when components unmount or are no longer needed"
  | LeakType.timer =>
      "Clear intervals and timeouts when they are no longer needed"
  | LeakType.dom_reference =>
      "Avoid keeping references to DOM elements after they are removed"
  | LeakType.detached_dom =>
      "Check for detached DOM nodes that should be garbage collected"
  | LeakType.closure =>
      "Review closures that might be holding references to large objects"
  | LeakType.redux_subscription =>
      "Ensure Redux store subscriptions are properly unsubscribed when components unmount"
  | LeakType.redux_selector =>
      "Check for infinite re-renders caused by improperly memoized selectors"
  end.

Definition generateRecommendations (suspects : list LeakSuspect.t) : list string :=
  let recommendations :=
    foldl (λ recommendations suspect,
             recommendations ++ [recommendation (LeakSuspect.type suspect)])
          [] suspects in
  JsSet.of_list recommendations.

Definition generateReport (self : t) (r : Readings.t)
  : MemoryLeakReport.t * t * list Effect :=
  let '(snapshot, self1) := takeSnapshot self r in
  let suspects := detectLeaks self1 r in
  let recommendations := generateRecommendations suspects in
  let report :=
    {| MemoryLeakReport.timestamp := MemorySnapshot.timestamp snapshot;
       MemoryLeakReport.heapUsed :=
         Memory.heapUsed (MemorySnapshot.memory snapshot);
       MemoryLeakReport.heapTotal :=
         Memory.heapTotal (MemorySnapshot.memory snapshot);
       MemoryLeakReport.external :=
         Memory.external (MemorySnapshot.memory snapshot);
       MemoryLeakReport.arrayBuffers :=
         Memory.arrayBuffers (MemorySnapshot.memory snapshot);
       MemoryLeakReport.leakSuspects := suspects;
       MemoryLeakReport.recommendations := recommendations |} in
  let effects := foldl (λ effects suspect, effects ++ [OnLeak suspect]) [] suspects in
  (report, self1, effects ++ [OnReport report]).

Definition getSnapshots (self : t) : list MemorySnapshot.t := snapshots self.

Definition with_timerTracker (tr : option TimerTracker.t) (self : t) : t :=
  {| config := config self; eventTracker := eventTracker self;
     timerTracker := tr; domTracker := domTracker self;
     reduxTracker := reduxTracker self; snapshots := snapshots self;
     reportInterval := reportInterval self; isRunning := isRunning self |}.

Definition with_reduxTracker (tr : option ReduxTracker.t) (self : t) : t :=
  {| config := config self; eventTracker := eventTracker self;
     timerTracker := timerTracker self; domTracker := domTracker self;
     reduxTracker := tr; snapshots := snapshots self;
     reportInterval := reportInterval self; isRunning := isRunning self |}.

Definition with_running (running : bool) (id : option TimerId) (self : t) : t :=
  {| config := config self; eventTracker := eventTracker self;
     timerTracker := timerTracker self; domTracker := domTracker self;
     reduxTracker := reduxTracker self; snapshots := snapshots self;
     reportInterval := id; isRunning := running |}.

(** The closure [() => { this.generateReport(); }], as an opaque handler. *)
Definition reportCallback : nat := 0%nat.

(** [globalThis.setInterval(handler, timeout)] called by the detector: the
    function found in the slot runs.  When it is this detector's timer
    tracker's function, the call is recorded; [id] is what the native
    function returns. *)
Definition call_setInterval (self : t) (w : World.t) (handler : nat)
    (timeout : Z) (id : TimerId) (now : Z) (stack : option string)
  : t * TimerId * list Effect :=
  match World.setInterval w, timerTracker self with
  | SetIntervalShim, Some tr =>
      let '(tr1, id1, effects) :=
        TimerTracker.setInterval tr handler (Some timeout) [] id now stack in
      (with_timerTracker (Some tr1) self, id1, effects)
  | f, _ => (self, id, [Call f (SetTimerArgs handler (Some timeout) [])])
  end.

(** [globalThis.clearInterval(id)] called by the detector. *)
Definition call_clearInterval (self : t) (w : World.t) (id : option TimerId)
  : t * list Effect :=
  match World.clearInterval w, timerTracker self with
  | ClearIntervalShim, Some tr =>
      let '(tr1, effects) := TimerTracker.clearInterval tr id in
      (with_timerTracker (Some tr1) self, effects)
  | f, _ => (self, [Call f (ClearTimerArgs id)])
  end.

(** [r] holds the readings of the initial [takeSnapshot]; [id], [now] and
    [stack] are those of the [setInterval] call. *)
Definition start (self : t) (w : World.t) (r : Readings.t) (id : TimerId)
    (now : Z) (stack : option string) : t * list Effect :=
  if isRunning self then (self, [])
  else
    let self1 := with_running true (reportInterval self) self in
    let '(_, self2) := takeSnapshot self1 r in
    let '(self3, id1, effects) :=
      call_setInterval self2 w reportCallback
        (Config.reportInterval (config self2)) id now stack in
    (with_running true (Some id1) self3, effects ++ [ConsoleLog DetectorStarted]).

Definition stop (self : t) (w : World.t) : t * list Effect :=
  if negb (isRunning self) then (self, [])
  else
    let self1 := with_running false (reportInterval self) self in
    if TimerTracker.truthy (reportInterval self1)
    then
      let '(self2, effects) := call_clearInterval self1 w (reportInterval self1) in
      (with_running false None self2, effects ++ [ConsoleLog DetectorStopped])
    else (self1, [ConsoleLog DetectorStopped]).

Definition patchReduxStore (self : t) (w : World.t) (store : ObjRef)
  : t * World.t :=
  match reduxTracker self with
  | Some tr =>
      let '(tr1, w1) := ReduxTracker.patchStore tr w store in
      (with_reduxTracker (Some tr1) self, w1)
  | None => (self, w)
  end.

Definition trackSelectorUsage (self : t) (selectorName : string) (now : Z) : t :=
  match reduxTracker self with
  | Some tr =>
      with_reduxTracker (Some (ReduxTracker.trackSelectorUsage tr selectorName now)) self
  | None => self
  end.

Definition cleanup (self : t) (w : World.t) : t * World.t * list Effect :=
  let '(self1, effects1) := stop self w in
  let '(eventTracker1, w1) :=
    match eventTracker self1 with
    | Some tr => let '(tr1, w') := EventListenerTracker.cleanup tr w in (Some tr1, w')
    | None => (None, w)
    end in
  let '(timerTracker1, w2) :=
    match timerTracker self1 with
    | Some tr => let '(tr1, w') := TimerTracker.cleanup tr w1 in (Some tr1, w')
    | None => (None, w1)
    end in
  let '(domTracker1, effects2) :=
    match domTracker self1 with
    | Some tr => let '(tr1, e) := DOMTracker.cleanup tr in (Some tr1, e)
    | None => (None, [])
    end in
  let '(reduxTracker1, w3) :=
    match reduxTracker self1 with
    | Some tr => let '(tr1, w') := ReduxTracker.cleanup tr w2 in (Some tr1, w')
    | None => (None, w2)
    end in
  ({| config := config self1; eventTracker := eventTracker1;
      timerTracker := timerTracker1; domTracker := domTracker1;
      reduxTracker := reduxTracker1; snapshots := [];
      reportInterval := reportInterval self1; isRunning := isRunning self1 |},
   w3, effects1 ++ effects2).

End MemoryLeakDetector.

(** ** The detector in its host *)

(** One detector and the host slots it lives in.  The host operations call
    whatever function is in the slot at the time of the call. *)
Module System.

Record t : Type := { detector : MemoryLeakDetector.t; world : World.t }.

Inductive Op : Type :=
  | HostAddEventListener (this : EventTarget) (type : string)
      (listener : EventListener) (options : option nat)
  | HostRemoveEventListener (this : EventTarget) (type : string)
      (listener : EventListener) (options : option nat)
  | HostSetTimeout (handler : nat) (timeout : option Z) (args : list nat)
      (id : TimerId) (now : Z) (stack : option string)
  | HostSetInterval (handler : nat) (timeout : option Z) (args : list nat)
      (id : TimerId) (now : Z) (stack : option string)
  | HostClearTimeout (id : option TimerId)
  | HostClearInterval (id : option TimerId)
  | HostMutations (mutations : list MutationRecord.t)
  | HostSubscribe (store : ObjRef) (listener : nat) (unsubscribe : nat)
      (subscriptionId : SubscriptionId) (now : Z) (stack : option string)
  | HostUnsubscribe (u : Unsubscribe)
  | HostDevToolsCreateStore (args : list nat) (store : ObjRef)
  | Start (r : Readings.t) (id : TimerId) (now : Z) (stack : option string)
  | Stop
  | GenerateReport (r : Readings.t)
  | PatchReduxStore (store : ObjRef)
  | TrackSelectorUsage (selectorName : string) (now : Z)
  | Cleanup.

Definition with_eventTracker (tr : EventListenerTracker.t) (sys : t) : t :=
  let d := detector sys in
  {| detector :=
       {| MemoryLeakDetector.config := MemoryLeakDetector.config d;
          MemoryLeakDetector.eventTracker := Some tr;
          MemoryLeakDetector.timerTracker := MemoryLeakDetector.timerTracker d;
          MemoryLeakDetector.domTracker := MemoryLeakDetector.domTracker d;
          MemoryLeakDetector.reduxTracker := MemoryLeakDetector.reduxTracker d;
          MemoryLeakDetector.snapshots := MemoryLeakDetector.snapshots d;
          MemoryLeakDetector.reportInterval := MemoryLeakDetector.reportInterval d;
          MemoryLeakDetector.isRunning := MemoryLeakDetector.isRunning d |};
     world := world sys |}.

Definition with_timerTracker (tr : TimerTracker.t) (sys : t) : t :=
  {| detector := MemoryLeakDetector.with_timerTracker (Some tr) (detector sys);
     world := world sys |}.

Definition with_domTracker (tr : DOMTracker.t) (sys : t) : t :=
  let d := detector sys in
  {| detector :=
       {| MemoryLeakDetector.config := MemoryLeakDetector.config d;
          MemoryLeakDetector.eventTracker := MemoryLeakDetector.eventTracker d;
          MemoryLeakDetector.timerTracker := MemoryLeakDetector.timerTracker d;
          MemoryLeakDetector.domTracker := Some tr;
          MemoryLeakDetector.reduxTracker := MemoryLeakDetector.reduxTracker d;
          MemoryLeakDetector.snapshots := MemoryLeakDetector.snapshots d;
          MemoryLeakDetector.reportInterval := MemoryLeakDetector.reportInterval d;
          MemoryLeakDetector.isRunning := MemoryLeakDetector.isRunning d |};
     world := world sys |}.

Definition with_reduxTracker (tr : ReduxTracker.t) (w : World.t) (sys : t) : t :=
  {| detector := MemoryLeakDetector.with_reduxTracker (Some tr) (detector sys);
     world := w |}.

Definition step (op : Op) (sys : t) : t * list Effect :=
  let d := detector sys in
  let w := world sys in
  match op with
  | HostAddEventListener this type listener options =>
      match World.addEventListener w, MemoryLeakDetector.eventTracker d with
      | AddEventListenerShim, Some tr =>
          let '(tr1, effects) :=
            EventListenerTracker.addEventListener tr this type listener options in
          (with_eventTracker tr1 sys, effects)
      | f, _ => (sys, [Call f (ListenerArgs this type listener options)])
      end
  | HostRemoveEventListener this type listener options =>
      match World.removeEventListener w, MemoryLeakDetector.eventTracker d with
      | RemoveEventListenerShim, Some tr =>
          let '(tr1, effects) :=
            EventListenerTracker.removeEventListener tr this type listener options in
          (with_eventTracker tr1 sys, effects)
      | f, _ => (sys, [Call f (ListenerArgs this type listener options)])
      end
  | HostSetTimeout handler timeout args id now stack =>
      match World.setTimeout w, MemoryLeakDetector.timerTracker d with
      | SetTimeoutShim, Some tr =>
          let '(tr1, _, effects) :=
            TimerTracker.setTimeout tr handler timeout args id now stack in
          (with_timerTracker tr1 sys, effects)
      | f, _ => (sys, [Call f (SetTimerArgs handler timeout args)])
      end
  | HostSetInterval handler timeout args id now stack =>
      match World.setInterval w, MemoryLeakDetector.timerTracker d with
      | SetIntervalShim, Some tr =>
          let '(tr1, _, effects) :=
            TimerTracker.setInterval tr handler timeout args id now stack in
          (with_timerTracker tr1 sys, effects)
      | f, _ => (sys, [Call f (SetTimerArgs handler timeout args)])
      end
  | HostClearTimeout id =>
      match World.clearTimeout w, MemoryLeakDetector.timerTracker d with
      | ClearTimeoutShim, Some tr =>
          let '(tr1, effects) := TimerTracker.clearTimeout tr id in
          (with_timerTracker tr1 sys, effects)
      | f, _ => (sys, [Call f (ClearTimerArgs id)])
      end
  | HostClearInterval id =>
      match World.clearInterval w, MemoryLeakDetector.timerTracker d with
      | ClearIntervalShim, Some tr =>
          let '(tr1, effects) := TimerTracker.clearInterval tr id in
          (with_timerTracker tr1 sys, effects)
      | f, _ => (sys, [Call f (ClearTimerArgs id)])
      end
  | HostMutations mutations =>
      match MemoryLeakDetector.domTracker d with
      | Some tr =>
          if DOMTracker.observer tr
          then (with_domTracker (DOMTracker.onMutations tr mutations) sys, [])
          else (sys, [])
      | None => (sys, [])
      end
  | HostSubscribe store listener unsubscribe subscriptionId now stack =>
      match World.subscribe w !! store, MemoryLeakDetector.reduxTracker d with
      | Some SubscribeShim, Some tr =>
          match ReduxTracker.subscribe tr store listener unsubscribe
                  subscriptionId now stack with
          | Some (tr1, _, effects) => (with_reduxTracker tr1 w sys, effects)
          | None => (sys, [])
          end
      | Some f, _ => (sys, [Call f (SubscribeArgs store listener)])
      | None, _ => (sys, [])
      end
  | HostUnsubscribe u =>
      match u, MemoryLeakDetector.reduxTracker d with
      | WrappedUnsubscribe subscriptionId unsubscribe, Some tr =>
          let '(tr1, effects) :=
            ReduxTracker.call_unsubscribe tr subscriptionId unsubscribe in
          (with_reduxTracker tr1 w sys, effects)
      | WrappedUnsubscribe _ unsubscribe, None => (sys, [CallUnsubscribe unsubscribe])
      | NativeUnsubscribe unsubscribe, _ => (sys, [CallUnsubscribe unsubscribe])
      end
  | HostDevToolsCreateStore args store =>
      match World.window w ≫= Window.REDUX_DEVTOOLS_EXTENSION,
            MemoryLeakDetector.reduxTracker d with
      | Some (DevToolsShim originalExtension), Some tr =>
          let '(tr1, w1, effects) :=
            ReduxTracker.devToolsCreateStore tr w originalExtension args store in
          (with_reduxTracker tr1 w1 sys, effects)
      | Some f, _ => (sys, [Call f (DevToolsArgs args)])
      | None, _ => (sys, [])
      end
  | Start r id now stack =>
      let '(d1, effects) := MemoryLeakDetector.start d w r id now stack in
      ({| detector := d1; world := w |}, effects)
  | Stop =>
      let '(d1, effects) := MemoryLeakDetector.stop d w in
      ({| detector := d1; world := w |}, effects)
  | GenerateReport r =>
      let '(_, d1, effects) := MemoryLeakDetector.generateReport d r in
      ({| detector := d1; world := w |}, effects)
  | PatchReduxStore store =>
      let '(d1, w1) := MemoryLeakDetector.patchReduxStore d w store in
      ({| detector := d1; world := w1 |}, [])
  | TrackSelectorUsage selectorName now =>
      ({| detector := MemoryLeakDetector.trackSelectorUsage d selectorName now;
          world := w |}, [])
  | Cleanup =>
      let '(d1, w1, effects) := MemoryLeakDetector.cleanup d w in
      ({| detector := d1; world := w1 |}, effects)
  end.

(** A sequence of operations, with the effects in order. *)
Definition run (ops : list Op) (sys : t) : t * list Effect :=
  foldl (λ '(sys, effects) op,
           let '(sys1, effects1) := step op sys in (sys1, effects ++ effects1))
        (sys, []) ops.

(** [new MemoryLeakDetector(config)] in the host [w]. *)
Definition create (config : DetectorConfig.t) (w : World.t) : t :=
  let '(d, w1, _) := MemoryLeakDetector.new config w in
  {| detector := d; world := w1 |}.

End System.

(** ** Call sequences and the quantities the properties speak about *)

(** Sequences of calls of the two listener functions. *)
Module ListenerCalls.

(** One tracked registration: target, event kind, listener. *)
Definition Handle : Type := EventTarget * string * EventListener.

Inductive Call : Type :=
  | Acquire (h : Handle) (options : option nat)     (* addEventListener *)
  | Release (h : Handle) (options : option nat).    (* removeEventListener *)

Definition perform (self : EventListenerTracker.t) (c : Call)
  : EventListenerTracker.t :=
  match c with
  | Acquire (this, type, listener) options =>
      (EventListenerTracker.addEventListener self this type listener options).1
  | Release (this, type, listener) options =>
      (EventListenerTracker.removeEventListener self this type listener options).1
  end.

Definition run (calls : list Call) (self : EventListenerTracker.t)
  : EventListenerTracker.t :=
  foldl perform self calls.

(** [live calls h]: the last call of [calls] that names [h] is an acquire. *)
Definition live (calls : list Call) (h : Handle) : bool :=
  foldl (λ b c,
           match c with
           | Acquire h' _ => if decide (h' = h) then true else b
           | Release h' _ => if decide (h' = h) then false else b
           end)
        false calls.

Definition is_acquire (c : Call) : bool :=
  match c with Acquire _ _ => true | Release _ _ => false end.

(** The number of acquires in [calls]. *)
Definition acquires (calls : list Call) : nat :=
  length (filter (λ c, is_acquire c = true) calls).

(** The acquires in [rest] of a handle that is not live at that point, given
    the calls [before]. *)
Fixpoint new_acquires_from (before rest : list Call) : nat :=
  match rest with
  | [] => 0
  | c :: rest' =>
      (match c with
       | Acquire h _ => if live before h then 0 else 1
       | Release _ _ => 0
       end + new_acquires_from (before ++ [c]) rest')%nat
  end.

(** The releases in [rest] of a handle that is live at that point (the
    matched releases). *)
Fixpoint matched_releases_from (before rest : list Call) : nat :=
  match rest with
  | [] => 0
  | c :: rest' =>
      (match c with
       | Acquire _ _ => 0
       | Release h _ => if live before h then 1 else 0
       end + matched_releases_from (before ++ [c]) rest')%nat
  end.

Definition new_acquires (calls : list Call) : nat := new_acquires_from [] calls.
Definition matched_releases (calls : list Call) : nat := matched_releases_from [] calls.

(** The handles a tracker holds, in iteration order. *)
Definition handles (self : EventListenerTracker.t) : list Handle :=
  '(target, listeners) ← EventListenerTracker.listeners self;
  '(type, listenerSet) ← listeners;
  listener ← listenerSet;
  [(target, type, listener)].

(** The rule as the specification words it: one suspect for each
    (target, event kind) key whose own live count exceeds 50. *)
Definition detectLeaks_per_key (self : EventListenerTracker.t)
  : list LeakSuspect.t :=
  '(target, listeners) ← EventListenerTracker.listeners self;
  '(type, listenerSet) ← listeners;
  let n := Z.of_nat (JsSet.size listenerSet) in
  if decide (n > 50)
  then [suspect LeakType.event_listener
          (if decide (n > 100) then critical else high)
          (DescEventListeners n (constructor_name target)) n]
  else [].

(** What the code computes: one suspect for each target whose listeners,
    over all its event kinds, number more than 50. *)
Definition detectLeaks_per_target (self : EventListenerTracker.t)
  : list LeakSuspect.t :=
  '(target, listeners) ← EventListenerTracker.listeners self;
  let n := Z.of_nat (JsMap.total JsSet.size listeners) in
  if decide (n > 50)
  then [suspect LeakType.event_listener
          (if decide (n > 100) then critical else high)
          (DescEventListeners n (constructor_name target)) n]
  else [].

(** [tracked self h]: the handle [h] is in the registry. *)
Definition tracked (self : EventListenerTracker.t) (h : Handle) : bool :=
  let '(this, type, listener) := h in
  match JsMap.get this (EventListenerTracker.listeners self) with
  | Some targetListeners =>
      match JsMap.get type targetListeners with
      | Some listenerSet => JsSet.has listener listenerSet
      | None => false
      end
  | None => false
  end.

(** The number of handles in the registry. *)
Definition registered (self : EventListenerTracker.t) : nat :=
  JsMap.total (JsMap.total JsSet.size) (EventListenerTracker.listeners self).

(** The shape that a registry built by the two functions has: keys are
    unique at both levels, and no stored set has a duplicate or is empty. *)
Definition wf (self : EventListenerTracker.t) : Prop :=
  NoDup (EventListenerTracker.listeners self).*1
  ∧ ∀ this targetListeners,
      JsMap.get this (EventListenerTracker.listeners self) = Some targetListeners →
      NoDup targetListeners.*1
      ∧ ∀ type listenerSet,
          JsMap.get type targetListeners = Some listenerSet →
          NoDup listenerSet ∧ listenerSet ≠ [].

End ListenerCalls.

(** Successive [takeSnapshot] calls: the snapshots created, in order, and the
    detector after the last one. *)
Definition takeSnapshots (self : MemoryLeakDetector.t) (rs : list Readings.t)
  : list MemorySnapshot.t * MemoryLeakDetector.t :=
  foldl (λ '(created, self) r,
           let '(snapshot, self1) := MemoryLeakDetector.takeSnapshot self r in
           (created ++ [snapshot], self1))
        ([], self) rs.

(** Successive [setInterval] calls through the timer tracker's function,
    each with the id the native function returned and the time of the call. *)
Definition setIntervals (self : TimerTracker.t) (calls : list (TimerId * Z))
  : TimerTracker.t :=
  foldl (λ self '(id, now),
           (TimerTracker.setInterval self 0%nat None [] id now None).1.1)
        self calls.

(** The result of an enabled tracker's [detectLeaks], nothing for a tracker
    that is not there. *)
Definition fromTracker {T : Type} (tracker : option T)
    (detectLeaks : T → list LeakSuspect.t) : list LeakSuspect.t :=
  match tracker with Some tr => detectLeaks tr | None => [] end.

(** The six global entry points that the listener and timer trackers assign. *)
Definition entryPoints (w : World.t) : list Fn :=
  [World.addEventListener w; World.removeEventListener w; World.setTimeout w;
   World.setInterval w; World.clearTimeout w; World.clearInterval w].

(** A host in which no store's [subscribe] is the tracker's function yet. *)
Definition pristine (w : World.t) : Prop :=
  ∀ store, World.subscribe w !! store ≠ Some SubscribeShim.

(** The subscription entries of the detector's store tracker. *)
Definition trackedSubscriptions (sys : System.t)
  : list (SubscriptionId * Subscription.t) :=
  match MemoryLeakDetector.reduxTracker (System.detector sys) with
  | Some tr => ReduxTracker.storeSubscriptions tr
  | None => []
  end.

(** ** Concrete inputs for the examples *)

(** The key that two [subscribe] calls compute in one millisecond in which
    [Date.now()] is 1700000000000, when [Math.random()] returns 0.00001 and
    then 0.0001: doubles of that size are 2^-12 apart, so both sums are the
    double 1700000000000. *)
Definition collidingId : SubscriptionId := 1700000000000.

(** A browser-like host: native functions in every slot, a window without
    a store or the DevTools extension, two stores (objects 1 and 2) with
    native [subscribe] functions. *)
Definition host0 : World.t :=
  {| World.addEventListener := HostFn 1;
     World.removeEventListener := HostFn 2;
     World.setTimeout := HostFn 3;
     World.setInterval := HostFn 4;
     World.clearTimeout := HostFn 5;
     World.clearInterval := HostFn 6;
     World.window :=
       Some {| Window.REDUX_STORE := None; Window.store := None;
               Window.STORE := None;
               Window.REDUX_DEVTOOLS_EXTENSION := None |};
     World.subscribe := {[ 1%nat := HostFn 11; 2%nat := HostFn 12 ]};
     World.MutationObserver := true |}.

Definition button : EventTarget :=
  {| target_id := 0; constructor_name := "HTMLButtonElement" |}.

Definition defaultConfig : DetectorConfig.t :=
  {| DetectorConfig.enableEventListenerTracking := None;
     DetectorConfig.enableTimerTracking := None;
     DetectorConfig.enableDOMTracking := None;
     DetectorConfig.enableReduxTracking := None;
     DetectorConfig.enablePerformanceObserver := None;
     DetectorConfig.reportInterval := None;
     DetectorConfig.memoryThreshold := None |}.

(** One mebibyte, in bytes. *)
Definition MB : Z := 1024 * 1024.

(** A snapshot with the given heap-used counter (the other fields are 0). *)
Definition snapshotWithHeap (heapUsed : Z) : MemorySnapshot.t :=
  {| MemorySnapshot.timestamp := 0;
     MemorySnapshot.memory :=
       {| Memory.heapUsed := heapUsed; Memory.heapTotal := 0;
          Memory.external := 0; Memory.arrayBuffers := 0 |};
     MemorySnapshot.counts :=
       {| Counts.eventListeners := 0; Counts.timers := 0;
          Counts.domNodes := 0; Counts.detachedNodes := 0 |} |}.

(** The timers older than five minutes at [now]. *)
Definition oldTimers (self : TimerTracker.t) (now : Z) : Z :=
  Z.of_nat (length (filter (λ p, now - TimerInfo.created p.2 > 5 * 60 * 1000)
                      (TimerTracker.timers self))).

(** The repeating timers. *)
Definition totalIntervals (self : TimerTracker.t) : Z :=
  Z.of_nat (length (filter (λ p, TimerInfo.type p.2 = TimerType.interval)
                      (TimerTracker.timers self))).


(** What [cleanup] depends on and what it writes: the functions saved by
    the listener and timer trackers, the store tracker's [storeRef] and
    [originalStoreSubscribe], the six global entry points and the stores'
    [subscribe] properties. *)
Definition frame (sys : System.t)
  : option (Fn * Fn) * option (Fn * Fn * Fn * Fn)
    * option (option ObjRef * option Fn) * list Fn * gmap ObjRef Fn :=
  let d := System.detector sys in
  let w := System.world sys in
  ((λ tr, (EventListenerTracker.originalAddEventListener tr,
           EventListenerTracker.originalRemoveEventListener tr))
     <$> MemoryLeakDetector.eventTracker d,
   (λ tr, (TimerTracker.originalSetTimeout tr, TimerTracker.originalSetInterval tr,
           TimerTracker.originalClearTimeout tr,
           TimerTracker.originalClearInterval tr))
     <$> MemoryLeakDetector.timerTracker d,
   (λ tr, (ReduxTracker.storeRef tr, ReduxTracker.originalStoreSubscribe tr))
     <$> MemoryLeakDetector.reduxTracker d,
   entryPoints w,
   World.subscribe w).

(** The saved functions are those of the host [w0] in which the detector was
    created; a slot whose tracker does not exist still holds the function of
    [w0]; a store of [w0] holds its own [subscribe] or the tracker's. *)
Definition restorable (w0 : World.t)
    (fr : option (Fn * Fn) * option (Fn * Fn * Fn * Fn)
          * option (option ObjRef * option Fn) * list Fn * gmap ObjRef Fn)
  : Prop :=
  let '(ev, ti, re, eps, sub) := fr in
  match ev with
  | Some (a, r) => a = World.addEventListener w0 ∧ r = World.removeEventListener w0
  | None => take 2 eps = take 2 (entryPoints w0)
  end
  ∧ match ti with
    | Some (st, si, ct, ci) =>
        st = World.setTimeout w0 ∧ si = World.setInterval w0
        ∧ ct = World.clearTimeout w0 ∧ ci = World.clearInterval w0
    | None => drop 2 eps = drop 2 (entryPoints w0)
    end
  ∧ ∀ store f,
      World.subscribe w0 !! store = Some f →
      (∀ o, re = Some (Some store, o) → o = Some f)
      ∧ (sub !! store = Some f
         ∨ (sub !! store = Some SubscribeShim ∧ ∃ o, re = Some (Some store, o))).

(** Every store whose [subscribe] is the tracker's function is the
    tracker's [storeRef]. *)
Definition wrappedIsRef
    (fr : option (Fn * Fn) * option (Fn * Fn * Fn * Fn)
          * option (option ObjRef * option Fn) * list Fn * gmap ObjRef Fn)
  : Prop :=
  ∀ store, fr.2 !! store = Some SubscribeShim → ∃ o, fr.1.1.2 = Some (Some store, o).

(** ** Further quantities for the properties of the uncovered code *)

(** No target of the registry is left with an empty map of event kinds. *)
Definition noEmptyTarget (self : EventListenerTracker.t) : Prop :=
  ∀ this targetListeners,
    JsMap.get this (EventListenerTracker.listeners self) = Some targetListeners →
    targetListeners ≠ [].

(** A host whose six entry points are functions of its own. *)
Definition native (w : World.t) : Prop :=
  Forall (λ f, ∃ n, f = HostFn n) (entryPoints w).

(** Each of the two groups of entry points holds the functions of the host
    [w0], or the functions of a tracker that exists. *)
Definition slotsOk (w0 : World.t)
    (fr : option (Fn * Fn) * option (Fn * Fn * Fn * Fn)
          * option (option ObjRef * option Fn) * list Fn * gmap ObjRef Fn)
  : Prop :=
  let '(ev, ti, re, eps, sub) := fr in
  (take 2 eps = take 2 (entryPoints w0)
   ∨ (is_Some ev ∧ take 2 eps = [AddEventListenerShim; RemoveEventListenerShim]))
  ∧ (drop 2 eps = drop 2 (entryPoints w0)
     ∨ (is_Some ti
        ∧ drop 2 eps = [SetTimeoutShim; SetIntervalShim; ClearTimeoutShim;
                        ClearIntervalShim])).

(** The operations of the application itself: listener, timer, DOM and
    store activity, the latter on the stores of the host [w0]. *)
Definition hostActivity (w0 : World.t) (op : System.Op) : Prop :=
  match op with
  | System.HostAddEventListener _ _ _ _ | System.HostRemoveEventListener _ _ _ _
  | System.HostSetTimeout _ _ _ _ _ _ | System.HostSetInterval _ _ _ _ _ _
  | System.HostClearTimeout _ | System.HostClearInterval _
  | System.HostMutations _ | System.HostUnsubscribe _ => True
  | System.HostSubscribe store _ _ _ _ _ => is_Some (World.subscribe w0 !! store)
  | _ => False
  end.

(** Sequences of calls of the four timer functions (the handler and its
    arguments, which the tracker does not record, are left out). *)
Module TimerCalls.

Inductive Call : Type :=
  | SetTimeout (id : TimerId) (now : Z) (stack : option string)
  | SetInterval (id : TimerId) (now : Z) (stack : option string)
  | ClearTimeout (id : option TimerId)
  | ClearInterval (id : option TimerId).

Definition perform (self : TimerTracker.t) (c : Call) : TimerTracker.t :=
  match c with
  | SetTimeout id now stack =>
      (TimerTracker.setTimeout self 0%nat None [] id now stack).1.1
  | SetInterval id now stack =>
      (TimerTracker.setInterval self 0%nat None [] id now stack).1.1
  | ClearTimeout id => (TimerTracker.clearTimeout self id).1
  | ClearInterval id => (TimerTracker.clearInterval self id).1
  end.

Definition run (calls : list Call) (self : TimerTracker.t) : TimerTracker.t :=
  foldl perform self calls.

(** What the last call that names the id [k] leaves for it: a set leaves its
    record, a clear with that (truthy) id leaves nothing. *)
Definition lastFor (calls : list Call) (k : TimerId) : option TimerInfo.t :=
  foldl (λ acc c,
           match c with
           | SetTimeout id now stack =>
               if decide (id = k)
               then Some {| TimerInfo.type := TimerType.timeout;
                            TimerInfo.created := now; TimerInfo.stack := stack |}
               else acc
           | SetInterval id now stack =>
               if decide (id = k)
               then Some {| TimerInfo.type := TimerType.interval;
                            TimerInfo.created := now; TimerInfo.stack := stack |}
               else acc
           | ClearTimeout (Some id) | ClearInterval (Some id) =>
               if decide (id = k ∧ id ≠ 0) then None else acc
           | ClearTimeout None | ClearInterval None => acc
           end)
        None calls.

End TimerCalls.

(** ** Quantities of the DOM tracker's mutation callback *)

(** The test of [checkForDetachedNode] on one removed node, as the callback
    sees the node when it runs. *)
Definition detachedElement (v : NodeView.t) : bool :=
  bool_decide (NodeView.nodeType v = DOMTracker.ELEMENT_NODE)
  && negb (NodeView.contained v)
  && bool_decide (NodeView.parentNode v = None).

(** All removed and all added nodes of a list of mutation records, in
    delivery order. *)
Definition removedViews (ms : list MutationRecord.t) : list NodeView.t :=
  ms ≫= MutationRecord.removedNodes.

Definition addedViews (ms : list MutationRecord.t) : list NodeView.t :=
  ms ≫= MutationRecord.addedNodes.

Definition addDetached (s : list nat) (v : NodeView.t) : list nat :=
  if detachedElement v then JsSet.add (NodeView.node v) s else s.

(** ** Sequences of [trackSelectorUsage] calls *)

Module SelectorCalls.

(** One call [trackSelectorUsage(selectorName)] with the [Date.now()] it
    reads. *)
Definition Call : Type := string * Z.

Definition perform (self : ReduxTracker.t) (c : Call) : ReduxTracker.t :=
  ReduxTracker.trackSelectorUsage self c.1 c.2.

Definition run (calls : list Call) (self : ReduxTracker.t) : ReduxTracker.t :=
  foldl perform self calls.

Definition callsOf (name : string) (calls : list Call) : list Call :=
  filter (λ c, c.1 = name) calls.

Definition count (name : string) (calls : list Call) : Z :=
  Z.of_nat (length (callsOf name calls)).

Definition lastCalled (name : string) (calls : list Call) : Z :=
  default 0 (last (callsOf name calls).*2).

Definition stats (name : string) (calls : list Call) : option SelectorStats.t :=
  if decide (callsOf name calls = []) then None
  else Some {| SelectorStats.count := count name calls;
               SelectorStats.lastCalled := lastCalled name calls |}.

(** The selector rule of [ReduxTracker.detectLeaks] on one map entry. *)
Definition selectorSuspect (now : Z) (p : string * SelectorStats.t)
  : list LeakSuspect.t :=
  if decide (SelectorStats.count p.2 > 1000
             ∧ now - SelectorStats.lastCalled p.2 < 60000)
  then [suspect LeakType.redux_selector
          (if decide (SelectorStats.count p.2 > 5000) then critical else high)
          (DescSelectorCalls p.1 (SelectorStats.count p.2))
          (SelectorStats.count p.2)]
  else [].

End SelectorCalls.

(** ** The shape of the suspects *)

(** What the rules of a tracker with the leak types [types] push: one of
    these types, a severity above [low], a count of at least 10, and neither
    [stackTrace] nor [element]. *)
Definition ruleSuspect (types : list LeakType.t) (s : LeakSuspect.t) : Prop :=
  LeakSuspect.type s ∈ types
  ∧ LeakSuspect.severity s ≠ low
  ∧ LeakSuspect.stackTrace s = None
  ∧ LeakSuspect.element s = None
  ∧ ∃ n, LeakSuspect.count s = Some n ∧ 10 ≤ n.

(** The leak types of the trackers that a detector holds, and of its own
    growth rule. *)
Definition typesOf {T : Type} (tracker : option T) (types : list LeakType.t)
  : list LeakType.t :=
  match tracker with Some _ => types | None => [] end.

Definition ownTypes (self : MemoryLeakDetector.t) : list LeakType.t :=
  typesOf (MemoryLeakDetector.eventTracker self) [LeakType.event_listener]
  ++ typesOf (MemoryLeakDetector.timerTracker self) [LeakType.timer]
  ++ typesOf (MemoryLeakDetector.domTracker self)
       [LeakType.dom_reference; LeakType.detached_dom]
  ++ typesOf (MemoryLeakDetector.reduxTracker self)
       [LeakType.redux_subscription; LeakType.redux_selector]
  ++ [LeakType.closure].

(** ** Hosts without [performance.memory] *)

(** The operation reads no [performance.memory]: the property is undefined
    whenever the detector takes a snapshot. *)
Definition noMemory (op : System.Op) : Prop :=
  match op with
  | System.Start r _ _ _ | System.GenerateReport r =>
      Readings.performance_memory r = None
  | _ => True
  end.

Definition zeroMemory : Memory.t :=
  {| Memory.heapUsed := 0; Memory.heapTotal := 0;
     Memory.external := 0; Memory.arrayBuffers := 0 |}.

(** What a callback receives then: no closure suspect, and reports whose
    memory figures are 0 and that give no closure advice. *)
Definition memoryless (e : Effect) : Prop :=
  match e with
  | OnLeak s => LeakSuspect.type s ≠ LeakType.closure
  | OnReport report =>
      MemoryLeakReport.heapUsed report = 0
      ∧ MemoryLeakReport.heapTotal report = 0
      ∧ MemoryLeakReport.external report = 0
      ∧ MemoryLeakReport.arrayBuffers report = 0
      ∧ Forall (λ s, LeakSuspect.type s ≠ LeakType.closure)
          (MemoryLeakReport.leakSuspects report)
      ∧ MemoryLeakDetector.recommendation LeakType.closure
          ∉ MemoryLeakReport.recommendations report
  | _ => True
  end.

(** ** The DevTools slot *)

(** [window.__REDUX_DEVTOOLS_EXTENSION__], when there is a window. *)
Definition devToolsSlot (w : World.t) : option Fn :=
  World.window w ≫= Window.REDUX_DEVTOOLS_EXTENSION.

(** The store that the detector's store tracker holds in [storeRef]. *)
Definition storeRefOf (sys : System.t) : option ObjRef :=
  MemoryLeakDetector.reduxTracker (System.detector sys) ≫= ReduxTracker.storeRef.

(** [host0] with the DevTools extension installed and no store on [window]. *)
Definition hostWithDevTools : World.t :=
  {| World.addEventListener := HostFn 1;
     World.removeEventListener := HostFn 2;
     World.setTimeout := HostFn 3;
     World.setInterval := HostFn 4;
     World.clearTimeout := HostFn 5;
     World.clearInterval := HostFn 6;
     World.window :=
       Some {| Window.REDUX_STORE := None; Window.store := None;
               Window.STORE := None;
               Window.REDUX_DEVTOOLS_EXTENSION := Some (HostFn 20) |};
     World.subscribe := {[ 1%nat := HostFn 11; 2%nat := HostFn 12 ]};
     World.MutationObserver := true |}.

(** ** Options that are stored only *)

(** The detector with another resolved configuration. *)
Definition with_config (c : Config.t) (self : MemoryLeakDetector.t)
  : MemoryLeakDetector.t :=
  {| MemoryLeakDetector.config := c;
     MemoryLeakDetector.eventTracker := MemoryLeakDetector.eventTracker self;
     MemoryLeakDetector.timerTracker := MemoryLeakDetector.timerTracker self;
     MemoryLeakDetector.domTracker := MemoryLeakDetector.domTracker self;
     MemoryLeakDetector.reduxTracker := MemoryLeakDetector.reduxTracker self;
     MemoryLeakDetector.snapshots := MemoryLeakDetector.snapshots self;
     MemoryLeakDetector.reportInterval := MemoryLeakDetector.reportInterval self;
     MemoryLeakDetector.isRunning := MemoryLeakDetector.isRunning self |}.

Definition reconfig (c : Config.t) (sys : System.t) : System.t :=
  {| System.detector := with_config c (System.detector sys);
     System.world := System.world sys |}.

(** [config] with other values for [memoryThreshold] and
    [enablePerformanceObserver]. *)
Definition with_stored_options (memoryThreshold : option Z)
    (enablePerformanceObserver : option bool) (config : DetectorConfig.t)
  : DetectorConfig.t :=
  {| DetectorConfig.enableEventListenerTracking :=
       DetectorConfig.enableEventListenerTracking config;
     DetectorConfig.enableTimerTracking :=
       DetectorConfig.enableTimerTracking config;
     DetectorConfig.enableDOMTracking := DetectorConfig.enableDOMTracking config;
     DetectorConfig.enableReduxTracking :=
       DetectorConfig.enableReduxTracking config;
     DetectorConfig.enablePerformanceObserver := enablePerformanceObserver;
     DetectorConfig.reportInterval := DetectorConfig.reportInterval config;
     DetectorConfig.memoryThreshold := memoryThreshold |}.

(** ** The detector's own interval *)

Definition isSetTimer (e : Effect) : bool :=
  match e with Call _ (SetTimerArgs _ _ _) => true | _ => false end.

Definition isClearTimer (e : Effect) : bool :=
  match e with Call _ (ClearTimerArgs _) => true | _ => false end.

(** Operations other than the application's own timer calls; the native
    [setInterval] returns a non-zero id, as it does in browsers. *)
Definition noTimerActivity (op : System.Op) : Prop :=
  match op with
  | System.HostSetTimeout _ _ _ _ _ _ | System.HostSetInterval _ _ _ _ _ _
  | System.HostClearTimeout _ | System.HostClearInterval _ => False
  | System.Start _ id _ _ => id ≠ 0
  | _ => True
  end.

(** The number of report intervals that the detector holds: 1 while it is
    running. *)
Definition liveIntervals (sys : System.t) : nat :=
  if MemoryLeakDetector.isRunning (System.detector sys) then 1%nat else 0%nat.

(** While running the detector holds the non-zero id of its interval, and
    none otherwise. *)
Definition intervalHeld (sys : System.t) : Prop :=
  if MemoryLeakDetector.isRunning (System.detector sys)
  then ∃ id, MemoryLeakDetector.reportInterval (System.detector sys) = Some id
             ∧ id ≠ 0
  else MemoryLeakDetector.reportInterval (System.detector sys) = None.

(** ** What cleanup does to the outside *)

(** The effects that [cleanup] of the detector [self] can have: clearing
    the detector's own interval, the log line of [stop], and disconnecting
    the mutation observer. *)
Definition cleanupEffect (self : MemoryLeakDetector.t) (e : Effect) : Prop :=
  match e with
  | Call _ (ClearTimerArgs id) =>
      MemoryLeakDetector.isRunning self = true
      ∧ id = MemoryLeakDetector.reportInterval self
  | ConsoleLog DetectorStopped => MemoryLeakDetector.isRunning self = true
  | ObserverDisconnect =>
      ∃ tr, MemoryLeakDetector.domTracker self = Some tr
            ∧ DOMTracker.observer tr = true
  | _ => False
  end.

(** The store candidates that the constructor of the store tracker looks
    at, in its order, and the test it applies to each. *)
Definition possibleStores (w : World.t) : list (option ObjRef) :=
  match World.window w with
  | Some win => [Window.REDUX_STORE win; Window.store win; Window.STORE win]
  | None => []
  end.

Definition hasSubscribe (w : World.t) (candidate : option ObjRef) : bool :=
  match candidate with
  | Some store => bool_decide (is_Some (World.subscribe w !! store))
  | None => false
  end.

(** ** Sequences of subscriptions through the patched store *)

Module StoreCalls.

(** A call of the patched [store.subscribe] with the values it reads, or a
    call of a function that it returned. *)
Inductive Call : Type :=
  | Subscribe (listener : nat) (unsubscribe : nat)
      (subscriptionId : SubscriptionId) (now : Z) (stack : option string)
  | Unsubscribe (subscriptionId : SubscriptionId) (unsubscribe : nat).

Definition perform (store : ObjRef) (self : ReduxTracker.t) (c : Call)
  : ReduxTracker.t :=
  match c with
  | Subscribe listener unsubscribe subscriptionId now stack =>
      match ReduxTracker.subscribe self store listener unsubscribe
              subscriptionId now stack with
      | Some (self1, _, _) => self1
      | None => self
      end
  | Unsubscribe subscriptionId unsubscribe =>
      (ReduxTracker.call_unsubscribe self subscriptionId unsubscribe).1
  end.

Definition run (store : ObjRef) (calls : list Call) (self : ReduxTracker.t)
  : ReduxTracker.t :=
  foldl (perform store) self calls.

(** What the last call that names the id [k] leaves for it. *)
Definition lastFor (calls : list Call) (k : SubscriptionId)
  : option Subscription.t :=
  foldl (λ acc c,
           match c with
           | Subscribe listener _ id now stack =>
               if decide (id = k)
               then Some {| Subscription.subscriber := listener;
                            Subscription.created := now;
                            Subscription.stack := stack |}
               else acc
           | Unsubscribe id _ => if decide (id = k) then None else acc
           end)
        None calls.


(** The entries older than ten minutes at the time [now]. *)
Definition oldSubscriptions (now : Z)
    (subscriptions : list (SubscriptionId * Subscription.t)) : Z :=
  Z.of_nat (length (filter (λ p, now - Subscription.created p.2 > 10 * 60 * 1000)
                      subscriptions)).


End StoreCalls.

(** [host0] with its store 1 exposed as [window.store]. *)
Definition hostWithStore : World.t :=
  {| World.addEventListener := HostFn 1;
     World.removeEventListener := HostFn 2;
     World.setTimeout := HostFn 3;
     World.setInterval := HostFn 4;
     World.clearTimeout := HostFn 5;
     World.clearInterval := HostFn 6;
     World.window :=
       Some {| Window.REDUX_STORE := None; Window.store := Some 1%nat;
               Window.STORE := None;
               Window.REDUX_DEVTOOLS_EXTENSION := None |};
     World.subscribe := {[ 1%nat := HostFn 11; 2%nat := HostFn 12 ]};
     World.MutationObserver := true |}.

(** * Part II: lemmas and theorems *)

(** ** Facts about [JsMap] and [JsSet] *)

Section jsmap_facts.
Context {K V : Type} `{EqDecision K}.
Implicit Types (k : K) (v : V) (m : list (K * V)).

Lemma jsmap_get_set k' k v m :
  JsMap.get k' (JsMap.set k v m)
  = if decide (k' = k) then Some v else JsMap.get k' m.
Proof.
  induction m as [|[k0 v0] m IH]; simpl.
  - repeat case_decide; congruence.
  - destruct (decide (k = k0)) as [->|Hne]; simpl.
    + repeat case_decide; congruence.
    + rewrite IH. repeat case_decide; congruence.
Qed.

Lemma jsmap_get_delete k' k m :
  JsMap.get k' (JsMap.delete k m)
  = if decide (k' = k) then None else JsMap.get k' m.
Proof.
  unfold JsMap.delete. induction m as [|[k0 v0] m IH]; simpl.
  - by case_decide.
  - rewrite filter_cons. simpl. destruct (decide (k0 ≠ k)) as [Hne|Heq]; simpl.
    + rewrite IH. repeat case_decide; congruence.
    + apply dec_stable in Heq. subst k0. rewrite IH.
      repeat case_decide; congruence.
Qed.

Lemma jsmap_get_None m k : JsMap.get k m = None ↔ k ∉ m.*1.
Proof.
  induction m as [|[k0 v0] m IH]; csimpl.
  - split; [intros _; apply not_elem_of_nil | done].
  - rewrite not_elem_of_cons. case_decide as Heq; [|tauto].
    split; [done|]. by intros [Hne _].
Qed.

Lemma jsmap_keys_set k v m :
  (JsMap.set k v m).*1 = if JsMap.has k m then m.*1 else m.*1 ++ [k].
Proof.
  unfold JsMap.has. induction m as [|[k0 v0] m IH]; csimpl; [done|].
  destruct (decide (k = k0)) as [->|Hne]; csimpl; [done|].
  rewrite IH. by destruct (JsMap.get k m).
Qed.

Lemma jsmap_NoDup_set k v m : NoDup m.*1 → NoDup (JsMap.set k v m).*1.
Proof.
  intros Hnd. rewrite jsmap_keys_set. unfold JsMap.has.
  destruct (JsMap.get k m) eqn:Hg; [done|].
  apply NoDup_app. split_and!; [done| |apply NoDup_singleton].
  intros x Hx Hx'. apply list_elem_of_singleton in Hx'. subst x.
  by apply jsmap_get_None in Hg.
Qed.

Lemma jsmap_keys_delete k m :
  (JsMap.delete k m).*1 = filter (λ x, x ≠ k) m.*1.
Proof.
  unfold JsMap.delete. induction m as [|[k0 v0] m IH]; csimpl; [done|].
  rewrite !filter_cons. csimpl. case_decide; csimpl; by rewrite IH.
Qed.

Lemma jsmap_NoDup_delete k m : NoDup m.*1 → NoDup (JsMap.delete k m).*1.
Proof. intros. rewrite jsmap_keys_delete. by apply NoDup_filter. Qed.

Lemma jsmap_delete_absent k m : JsMap.get k m = None → JsMap.delete k m = m.
Proof.
  unfold JsMap.delete. induction m as [|[k0 v0] m IH]; simpl; [done|].
  case_decide as Heq; [done|]. intros Hg. rewrite filter_cons. simpl.
  rewrite decide_True by congruence. by rewrite IH.
Qed.

Lemma jsmap_set_same k v m : JsMap.get k m = Some v → JsMap.set k v m = m.
Proof.
  induction m as [|[k0 v0] m IH]; simpl; [done|].
  case_decide as Heq.
  - by intros [= ->]; subst.
  - intros Hg. by rewrite IH.
Qed.

Lemma jsmap_set_not_nil k v m : JsMap.set k v m ≠ [].
Proof. destruct m as [|[k0 v0] m]; simpl; [done|]. by case_decide. Qed.

Lemma jsmap_size_set k v m :
  JsMap.size (JsMap.set k v m)
  = if JsMap.has k m then JsMap.size m else S (JsMap.size m).
Proof.
  unfold JsMap.size. rewrite <- !(length_fmap fst), jsmap_keys_set.
  destruct (JsMap.has k m); [done|]. rewrite length_app. simpl. lia.
Qed.

Lemma jsmap_total_set (f : V → nat) k v m :
  (JsMap.total f (JsMap.set k v m) + default 0 (f <$> JsMap.get k m)
   = JsMap.total f m + f v)%nat.
Proof.
  unfold JsMap.total. induction m as [|[k0 v0] m IH]; csimpl; [lia|].
  case_decide; csimpl; lia.
Qed.

Lemma jsmap_total_delete (f : V → nat) k m :
  NoDup m.*1 →
  (JsMap.total f (JsMap.delete k m) + default 0 (f <$> JsMap.get k m)
   = JsMap.total f m)%nat.
Proof.
  unfold JsMap.total, JsMap.delete.
  induction m as [|[k0 v0] m IH]; csimpl; [lia|].
  rewrite NoDup_cons. intros [Hk Hnd]. rewrite filter_cons. csimpl.
  destruct (decide (k0 ≠ k)) as [Hne|Heq]; csimpl.
  - rewrite decide_False by congruence. specialize (IH Hnd). lia.
  - apply dec_stable in Heq. subst k0. rewrite decide_True by done.
    apply jsmap_get_None in Hk. fold (JsMap.delete k m).
    rewrite (jsmap_delete_absent _ _ Hk). simpl. lia.
Qed.

Lemma jsmap_total_nil (f : V → nat) : JsMap.total f (@nil (K * V)) = 0%nat.
Proof. done. Qed.

Lemma jsmap_total_cons (f : V → nat) k v m :
  JsMap.total f ((k, v) :: m) = (f v + JsMap.total f m)%nat.
Proof. done. Qed.

Lemma jsmap_total_const m : JsMap.total (λ _ : V, 1%nat) m = JsMap.size m.
Proof.
  unfold JsMap.total, JsMap.size.
  induction m as [|? m IHm]; csimpl; [done|]. by rewrite IHm.
Qed.

Lemma jsmap_size_delete k m :
  NoDup m.*1 →
  (JsMap.size (JsMap.delete k m) + (if JsMap.has k m then 1 else 0)
   = JsMap.size m)%nat.
Proof.
  intros Hnd. pose proof (jsmap_total_delete (λ _, 1%nat) k m Hnd) as Ht.
  rewrite !jsmap_total_const in Ht. unfold JsMap.has.
  destruct (JsMap.get k m); simpl in *; lia.
Qed.

End jsmap_facts.

Section jsset_facts.
Context {A : Type} `{EqDecision A}.
Implicit Types (x y : A) (s : list A).

Lemma jsset_elem_of_add y x s : y ∈ JsSet.add x s ↔ y = x ∨ y ∈ s.
Proof.
  unfold JsSet.add. case_decide as Hx.
  - split; [tauto|]. by intros [->|].
  - rewrite elem_of_app, list_elem_of_singleton. tauto.
Qed.

Lemma jsset_NoDup_add x s : NoDup s → NoDup (JsSet.add x s).
Proof.
  unfold JsSet.add. intros Hnd. case_decide; [done|].
  apply NoDup_app. split_and!; [done| |apply NoDup_singleton].
  intros y Hy Hy'. apply list_elem_of_singleton in Hy'. by subst.
Qed.

Lemma jsset_add_not_nil x s : JsSet.add x s ≠ [].
Proof.
  unfold JsSet.add. case_decide as Hx.
  - intros ->. by apply elem_of_nil in Hx.
  - by destruct s.
Qed.

Lemma jsset_elem_of_delete y x s : y ∈ JsSet.delete x s ↔ y ≠ x ∧ y ∈ s.
Proof. unfold JsSet.delete. rewrite list_elem_of_filter. tauto. Qed.

Lemma jsset_NoDup_delete x s : NoDup s → NoDup (JsSet.delete x s).
Proof. apply NoDup_filter. Qed.

Lemma jsset_size_add x s :
  JsSet.size (JsSet.add x s)
  = if JsSet.has x s then JsSet.size s else S (JsSet.size s).
Proof.
  unfold JsSet.size, JsSet.add, JsSet.has. case_decide.
  - by rewrite bool_decide_eq_true_2.
  - rewrite bool_decide_eq_false_2 by done. rewrite length_app. simpl. lia.
Qed.

Lemma jsset_delete_absent x s : x ∉ s → JsSet.delete x s = s.
Proof.
  unfold JsSet.delete. induction s as [|y s IH]; [done|].
  rewrite not_elem_of_cons. intros [Hne Hni].
  rewrite filter_cons, decide_True by done. by rewrite IH.
Qed.

Lemma jsset_size_delete x s :
  NoDup s →
  (JsSet.size (JsSet.delete x s) + (if JsSet.has x s then 1 else 0)
   = JsSet.size s)%nat.
Proof.
  unfold JsSet.size, JsSet.delete, JsSet.has. induction s as [|y s IH]; [done|].
  rewrite NoDup_cons. intros [Hy Hnd]. rewrite filter_cons.
  destruct (decide (y ≠ x)) as [Hne|Heq].
  - specialize (IH Hnd). cbn [length].
    destruct (decide (x ∈ s)) as [Hin|Hin].
    + rewrite bool_decide_eq_true_2 in IH by done.
      rewrite bool_decide_eq_true_2 by (by apply list_elem_of_further). lia.
    + rewrite bool_decide_eq_false_2 in IH by done.
      rewrite bool_decide_eq_false_2; [lia|].
      rewrite not_elem_of_cons. split; [congruence | done].
  - apply dec_stable in Heq. subst y. fold (JsSet.delete x s).
    rewrite (jsset_delete_absent _ _ Hy).
    rewrite bool_decide_eq_true_2 by apply list_elem_of_here.
    cbn [length]. lia.
Qed.

End jsset_facts.

Lemma default_Some {A : Type} (d x : A) : default d (Some x) = x.
Proof. done. Qed.

(** A loop that pushes onto a list, read as a concatenation. *)
Lemma foldl_push {A B : Type} (f : list B → A → list B) (g : A → list B)
    (l : list A) (acc : list B) :
  (∀ acc x, f acc x = acc ++ g x) → foldl f acc l = acc ++ (l ≫= g).
Proof.
  intros Hf. revert acc. induction l as [|x l IH]; intros acc; simpl.
  - by rewrite app_nil_r.
  - rewrite IH, Hf. by rewrite <- app_assoc.
Qed.

Lemma bool_decide_ext_or (P Q R : Prop) `{Decision P, Decision Q, Decision R} :
  (P ↔ Q ∨ R) → bool_decide P = bool_decide Q || bool_decide R.
Proof. intros HP. rewrite <- bool_decide_or. by apply bool_decide_ext. Qed.

Lemma bool_decide_ext_and (P Q R : Prop) `{Decision P, Decision Q, Decision R} :
  (P ↔ Q ∧ ¬ R) → bool_decide P = bool_decide Q && negb (bool_decide R).
Proof.
  intros HP. rewrite <- bool_decide_not, <- bool_decide_and.
  by apply bool_decide_ext.
Qed.

(** ** The listener registry *)

Section listener_facts.
Import ListenerCalls.
Implicit Types (self : EventListenerTracker.t) (h : Handle).

Lemma count_loop_total (listeners : list (string * list EventListener)) (c : Z) :
  foldl (λ count '(type, listenerSet), count + Z.of_nat (JsSet.size listenerSet))
        c listeners
  = c + Z.of_nat (JsMap.total JsSet.size listeners).
Proof.
  revert c. induction listeners as [|[type s] l IH]; intros c; simpl.
  - rewrite jsmap_total_nil. lia.
  - rewrite IH, jsmap_total_cons. lia.
Qed.

Lemma getActiveListeners_registered self :
  EventListenerTracker.getActiveListeners self = Z.of_nat (registered self).
Proof.
  unfold EventListenerTracker.getActiveListeners, registered.
  generalize (EventListenerTracker.listeners self). intros L.
  assert (Hgen : ∀ c,
    foldl (λ count '(target, listeners),
             foldl (λ count '(type, listenerSet),
                      count + Z.of_nat (JsSet.size listenerSet)) count listeners)
          c L
    = c + Z.of_nat (JsMap.total (JsMap.total JsSet.size) L)).
  { induction L as [|[target tl] L IH]; intros c; simpl.
    - rewrite jsmap_total_nil. lia.
    - rewrite IH, count_loop_total, jsmap_total_cons. lia. }
  rewrite Hgen. lia.
Qed.

Lemma jsmap_has_get {K V : Type} `{EqDecision K} (k : K) (m : list (K * V)) :
  JsMap.has k m = bool_decide (is_Some (JsMap.get k m)).
Proof.
  unfold JsMap.has. destruct (JsMap.get k m).
  - by rewrite bool_decide_eq_true_2.
  - rewrite bool_decide_eq_false_2; [done|]. by intros [? ?].
Qed.

Lemma jsmap_set_set {K V : Type} `{EqDecision K} (k : K) (v v0 : V)
    (m : list (K * V)) :
  JsMap.set k v (JsMap.set k v0 m) = JsMap.set k v m.
Proof.
  induction m as [|[k0 w] m IH]; simpl.
  - by rewrite decide_True.
  - case_decide; simpl.
    + by rewrite decide_True.
    + rewrite decide_False by done. by rewrite IH.
Qed.

(** [if (!m.has(k)) m.set(k, d)] followed by [m.get(k)]. *)
Lemma jsmap_ensure_get {K V : Type} `{EqDecision K} (k : K) (d : V)
    (m : list (K * V)) :
  JsMap.get k (if JsMap.has k m then m else JsMap.set k d m)
  = Some (default d (JsMap.get k m)).
Proof.
  unfold JsMap.has. destruct (JsMap.get k m) eqn:Hg; simpl; [done|].
  by rewrite jsmap_get_set, decide_True.
Qed.

Lemma jsmap_ensure_default {K V : Type} `{EqDecision K} (k : K) (d : V)
    (m : list (K * V)) :
  default d (JsMap.get k (if JsMap.has k m then m else JsMap.set k d m))
  = default d (JsMap.get k m).
Proof. by rewrite jsmap_ensure_get. Qed.

Lemma jsmap_set_ensure {K V : Type} `{EqDecision K} (k : K) (v d : V)
    (m : list (K * V)) :
  JsMap.set k v (if JsMap.has k m then m else JsMap.set k d m) = JsMap.set k v m.
Proof. destruct (JsMap.has k m); [done|]. apply jsmap_set_set. Qed.

(** The registry after [addEventListener]. *)
Lemma addEventListener_listeners self this type listener options :
  EventListenerTracker.listeners
    (EventListenerTracker.addEventListener self this type listener options).1
  = let targetListeners :=
      default [] (JsMap.get this (EventListenerTracker.listeners self)) in
    let listenerSet := default [] (JsMap.get type targetListeners) in
    JsMap.set this
      (JsMap.set type (JsSet.add listener listenerSet) targetListeners)
      (EventListenerTracker.listeners self).
Proof.
  unfold EventListenerTracker.addEventListener.
  cbn [fst EventListenerTracker.listeners EventListenerTracker.with_listeners].
  cbv zeta.
  by rewrite !jsmap_set_ensure, !jsmap_ensure_default.
Qed.

Lemma with_listeners_id self :
  EventListenerTracker.with_listeners (EventListenerTracker.listeners self) self
  = self.
Proof. by destruct self. Qed.

Lemma acquire_listeners self this type listener options :
  EventListenerTracker.listeners
    (perform self (Acquire (this, type, listener) options))
  = let targetListeners :=
      default [] (JsMap.get this (EventListenerTracker.listeners self)) in
    let listenerSet := default [] (JsMap.get type targetListeners) in
    JsMap.set this
      (JsMap.set type (JsSet.add listener listenerSet) targetListeners)
      (EventListenerTracker.listeners self).
Proof. apply addEventListener_listeners. Qed.

Lemma tracked_unfold self this type listener :
  tracked self (this, type, listener)
  = JsSet.has listener
      (default []
         (JsMap.get type
            (default [] (JsMap.get this (EventListenerTracker.listeners self))))).
Proof.
  unfold tracked. destruct (JsMap.get this _) as [tl|]; simpl; [|done].
  by destruct (JsMap.get type tl).
Qed.

Lemma acquire_registered self h options :
  registered (perform self (Acquire h options))
  = (registered self + if tracked self h then 0 else 1)%nat.
Proof.
  destruct h as [[this type] listener]. rewrite tracked_unfold.
  unfold registered. rewrite acquire_listeners. cbv zeta.
  set (L := EventListenerTracker.listeners self).
  set (tl := default [] (JsMap.get this L)).
  set (ls := default [] (JsMap.get type tl)).
  pose proof (jsmap_total_set (JsMap.total JsSet.size) this
                (JsMap.set type (JsSet.add listener ls) tl) L) as H1.
  pose proof (jsmap_total_set JsSet.size type (JsSet.add listener ls) tl) as H2.
  assert (Htl : default 0%nat (JsMap.total JsSet.size <$> JsMap.get this L)
                = JsMap.total JsSet.size tl).
  { subst tl. by destruct (JsMap.get this L). }
  assert (Hls : default 0%nat (JsSet.size <$> JsMap.get type tl) = JsSet.size ls).
  { subst ls. by destruct (JsMap.get type tl). }
  rewrite Htl in H1. rewrite Hls in H2.
  rewrite jsset_size_add in H2. destruct (JsSet.has listener ls); lia.
Qed.

Lemma acquire_tracked self h options h' :
  tracked (perform self (Acquire h options)) h'
  = tracked self h' || bool_decide (h' = h).
Proof.
  destruct h as [[this type] listener], h' as [[this' type'] listener'].
  rewrite !tracked_unfold, acquire_listeners. cbv zeta.
  set (L := EventListenerTracker.listeners self).
  rewrite jsmap_get_set.
  destruct (decide (this' = this)) as [->|Hthis].
  - rewrite default_Some, jsmap_get_set.
    destruct (decide (type' = type)) as [->|Htype].
    + rewrite default_Some. unfold JsSet.has.
      apply bool_decide_ext_or. rewrite jsset_elem_of_add.
      split; [intros [->|]; auto|intros [|[= ->]]; auto].
    + rewrite bool_decide_eq_false_2 by congruence. by rewrite orb_false_r.
  - rewrite bool_decide_eq_false_2 by congruence. by rewrite orb_false_r.
Qed.

Lemma perform_with_listeners self c :
  perform self c
  = EventListenerTracker.with_listeners
      (EventListenerTracker.listeners (perform self c)) self.
Proof. by destruct c as [[[this type] listener] o|[[this type] listener] o]. Qed.

Lemma acquire_same self h options :
  tracked self h = true → perform self (Acquire h options) = self.
Proof.
  destruct h as [[this type] listener]. intros Htr.
  rewrite perform_with_listeners, acquire_listeners. cbv zeta.
  unfold tracked in Htr.
  destruct (JsMap.get this _) as [tl|] eqn:Hthis; [|done].
  destruct (JsMap.get type tl) as [ls|] eqn:Htype; [|done].
  rewrite default_Some, Htype, default_Some.
  unfold JsSet.has in Htr. apply bool_decide_eq_true in Htr.
  unfold JsSet.add. rewrite decide_True by done.
  rewrite (jsmap_set_same _ _ _ Htype), (jsmap_set_same _ _ _ Hthis).
  apply with_listeners_id.
Qed.

Lemma acquire_wf self h options : wf self → wf (perform self (Acquire h options)).
Proof.
  destruct h as [[this type] listener]. intros [Hnd Hin].
  unfold wf. rewrite acquire_listeners. cbv zeta.
  set (L := EventListenerTracker.listeners self) in *.
  assert (Htl : NoDup (default [] (JsMap.get this L)).*1
                ∧ ∀ type' ls, JsMap.get type' (default [] (JsMap.get this L)) = Some ls →
                              NoDup ls ∧ ls ≠ []).
  { destruct (JsMap.get this L) as [tl|] eqn:Hthis.
    - rewrite default_Some. exact (Hin this tl Hthis).
    - split; [apply NoDup_nil_2 | done]. }
  destruct Htl as [Htl1 Htl2]. split; [by apply jsmap_NoDup_set|].
  intros this' tl'. rewrite jsmap_get_set.
  case_decide as Hthis'; [|by apply Hin].
  intros [= <-]. split; [by apply jsmap_NoDup_set|].
  intros type' ls'. rewrite jsmap_get_set.
  case_decide as Htype'; [|by apply Htl2].
  intros [= <-]. split; [|apply jsset_add_not_nil].
  apply jsset_NoDup_add.
  destruct (JsMap.get type _) as [ls|] eqn:Htype; [|apply NoDup_nil_2].
  rewrite default_Some. by apply (Htl2 type).
Qed.

Lemma release_listeners self this type listener options :
  EventListenerTracker.listeners
    (perform self (Release (this, type, listener) options))
  = match JsMap.get this (EventListenerTracker.listeners self) with
    | Some targetListeners =>
        match JsMap.get type targetListeners with
        | Some listenerSet =>
            let listenerSet1 := JsSet.delete listener listenerSet in
            let targetListeners1 := JsMap.set type listenerSet1 targetListeners in
            let targetListeners2 :=
              if decide (JsSet.size listenerSet1 = 0%nat)
              then JsMap.delete type targetListeners1 else targetListeners1 in
            let listeners1 :=
              JsMap.set this targetListeners2 (EventListenerTracker.listeners self) in
            if decide (JsMap.size targetListeners2 = 0%nat)
            then JsMap.delete this listeners1 else listeners1
        | None => EventListenerTracker.listeners self
        end
    | None => EventListenerTracker.listeners self
    end.
Proof. done. Qed.

Lemma release_same self h options :
  wf self → tracked self h = false → perform self (Release h options) = self.
Proof.
  destruct h as [[this type] listener]. intros [Hnd Hin] Htr.
  rewrite perform_with_listeners, release_listeners.
  unfold tracked in Htr.
  destruct (JsMap.get this _) as [tl|] eqn:Hthis; [|apply with_listeners_id].
  destruct (JsMap.get type tl) as [ls|] eqn:Htype; [|apply with_listeners_id].
  cbv zeta. unfold JsSet.has in Htr. apply bool_decide_eq_false in Htr.
  destruct (Hin _ _ Hthis) as [_ Hsets]. destruct (Hsets _ _ Htype) as [_ Hne].
  rewrite (jsset_delete_absent _ _ Htr), (jsmap_set_same _ _ _ Htype).
  assert (Hsz : JsSet.size ls ≠ 0%nat).
  { unfold JsSet.size. destruct ls; [done|simpl; lia]. }
  destruct (decide (JsSet.size ls = 0%nat)) as [?|_]; [done|].
  rewrite (jsmap_set_same _ _ _ Hthis).
  destruct (decide (JsMap.size tl = 0%nat)) as [Hz|_]; [|apply with_listeners_id].
  destruct tl; [done|]. unfold JsMap.size in Hz. simpl in Hz. lia.
Qed.

(** [m.set(k, v); if (v.size === 0) m.delete(k)], read at any key. *)
Lemma jsmap_get_set_prune {K V : Type} `{EqDecision K} (k k' : K) (v : V)
    (m : list (K * V)) (P : Prop) `{Decision P} :
  JsMap.get k'
    (if decide P then JsMap.delete k (JsMap.set k v m) else JsMap.set k v m)
  = if decide (k' = k) then (if decide P then None else Some v)
    else JsMap.get k' m.
Proof.
  destruct (decide P).
  - rewrite jsmap_get_delete, jsmap_get_set. by case_decide.
  - by rewrite jsmap_get_set.
Qed.

Lemma default_prune {A : Type} (l : list A) :
  default [] (if decide (length l = 0%nat) then None else Some l) = l.
Proof. case_decide as Hl; [|done]. by destruct l. Qed.

Lemma release_tracked self h options h' :
  tracked (perform self (Release h options)) h'
  = tracked self h' && negb (bool_decide (h' = h)).
Proof.
  destruct h as [[this type] listener], h' as [[this' type'] listener'].
  assert (Hout : tracked self (this, type, listener) = false →
    tracked self (this', type', listener')
    = tracked self (this', type', listener')
      && negb (bool_decide ((this', type', listener') = (this, type, listener)))).
  { intros Hno. case_bool_decide as Heq.
    - rewrite Heq, Hno. done.
    - by rewrite andb_true_r. }
  unfold tracked at 1. rewrite release_listeners.
  destruct (JsMap.get this (EventListenerTracker.listeners self))
    as [tl|] eqn:Hthis.
  2:{ apply Hout. unfold tracked. by rewrite Hthis. }
  destruct (JsMap.get type tl) as [ls|] eqn:Htype.
  2:{ apply Hout. unfold tracked. by rewrite Hthis, Htype. }
  cbv zeta. fold (tracked self (this', type', listener')).
  rewrite (jsmap_get_set_prune this this').
  destruct (decide (this' = this)) as [->|Hne].
  - unfold tracked. rewrite Hthis.
    set (tl2 := if decide (JsSet.size (JsSet.delete listener ls) = 0%nat)
                then _ else _).
    assert (Hinner :
      match JsMap.get type' tl2 with
      | Some listenerSet => JsSet.has listener' listenerSet
      | None => false
      end
      = match JsMap.get type' tl with
        | Some listenerSet => JsSet.has listener' listenerSet
        | None => false
        end && negb (bool_decide ((this, type', listener') = (this, type, listener)))).
    { subst tl2. rewrite (jsmap_get_set_prune type type').
      destruct (decide (type' = type)) as [->|Hnet].
      - rewrite Htype.
        assert (Hhas : JsSet.has listener' (JsSet.delete listener ls)
                       = JsSet.has listener' ls
                         && negb (bool_decide
                                    ((this, type, listener') = (this, type, listener)))).
        { unfold JsSet.has. apply bool_decide_ext_and.
          rewrite jsset_elem_of_delete. split.
          - intros [Hl Hin]. split; [done|]. by intros [= ->].
          - intros [Hin Hl]. split; [|done]. intros ->. by apply Hl. }
        destruct (decide (JsSet.size (JsSet.delete listener ls) = 0%nat))
          as [Hsz|_]; [|exact Hhas].
        rewrite <- Hhas. unfold JsSet.size in Hsz.
        destruct (JsSet.delete listener ls); [|done].
        unfold JsSet.has. by rewrite bool_decide_eq_false_2 by apply not_elem_of_nil.
      - rewrite (bool_decide_eq_false_2 (_ = _)) by congruence.
        by rewrite andb_true_r. }
    clearbody tl2.
    destruct (decide (JsMap.size tl2 = 0%nat)) as [Hsz|_]; [|exact Hinner].
    destruct tl2; [exact Hinner|done].
  - rewrite (bool_decide_eq_false_2 (_ = _)) by congruence.
    rewrite andb_true_r. done.
Qed.

Lemma release_registered self h options :
  wf self →
  (registered (perform self (Release h options))
   + (if tracked self h then 1 else 0) = registered self)%nat.
Proof.
  destruct h as [[this type] listener]. intros [Hnd Hin].
  unfold registered, tracked. rewrite release_listeners.
  set (L := EventListenerTracker.listeners self) in *.
  destruct (JsMap.get this L) as [tl|] eqn:Hthis; [|lia].
  destruct (JsMap.get type tl) as [ls|] eqn:Htype; [|lia].
  destruct (Hin _ _ Hthis) as [Hndtl Hsets].
  destruct (Hsets _ _ Htype) as [Hndls _]. cbv zeta.
  set (ls1 := JsSet.delete listener ls).
  set (tl1 := JsMap.set type ls1 tl).
  pose proof (jsset_size_delete listener ls Hndls) as Hs. fold ls1 in Hs.
  pose proof (jsmap_total_set JsSet.size type ls1 tl) as Ht1.
  rewrite Htype in Ht1. simpl in Ht1. fold tl1 in Ht1.
  assert (Hndtl1 : NoDup tl1.*1) by (by apply jsmap_NoDup_set).
  set (tl2 := if decide (JsSet.size ls1 = 0%nat) then JsMap.delete type tl1 else tl1).
  assert (Ht2 : JsMap.total JsSet.size tl2 = JsMap.total JsSet.size tl1).
  { subst tl2. case_decide as Hz; [|done].
    pose proof (jsmap_total_delete JsSet.size type tl1 Hndtl1) as Hd.
    unfold tl1 in Hd at 2. rewrite jsmap_get_set, decide_True in Hd by done.
    simpl in Hd. lia. }
  pose proof (jsmap_total_set (JsMap.total JsSet.size) this tl2 L) as HL1.
  rewrite Hthis in HL1. simpl in HL1.
  set (L1 := JsMap.set this tl2 L) in *.
  assert (HndL1 : NoDup L1.*1) by (by apply jsmap_NoDup_set).
  assert (HR : JsMap.total (JsMap.total JsSet.size)
                 (if decide (JsMap.size tl2 = 0%nat) then JsMap.delete this L1 else L1)
               = JsMap.total (JsMap.total JsSet.size) L1).
  { case_decide as Hz; [|done].
    pose proof (jsmap_total_delete (JsMap.total JsSet.size) this L1 HndL1) as Hd.
    unfold L1 in Hd at 2. rewrite jsmap_get_set, decide_True in Hd by done.
    simpl in Hd. unfold JsMap.size in Hz. destruct tl2; [|done].
    rewrite jsmap_total_nil in Hd. lia. }
  rewrite HR. destruct (JsSet.has listener ls); lia.
Qed.

Lemma release_wf self h options : wf self → wf (perform self (Release h options)).
Proof.
  destruct h as [[this type] listener]. intros [Hnd Hin].
  unfold wf. rewrite release_listeners.
  set (L := EventListenerTracker.listeners self) in *.
  destruct (JsMap.get this L) as [tl|] eqn:Hthis; [|done].
  destruct (JsMap.get type tl) as [ls|] eqn:Htype; [|done].
  destruct (Hin _ _ Hthis) as [Hndtl Hsets].
  destruct (Hsets _ _ Htype) as [Hndls _]. cbv zeta. split.
  - case_decide; [apply jsmap_NoDup_delete|]; by apply jsmap_NoDup_set.
  - intros this' tl'. rewrite (jsmap_get_set_prune this this').
    destruct (decide (this' = this)) as [->|Hthis']; [|by apply Hin].
    set (ls1 := JsSet.delete listener ls).
    set (tl2 := if decide (JsSet.size ls1 = 0%nat) then _ else _).
    destruct (decide (JsMap.size tl2 = 0%nat)) as [?|Hsz]; [done|].
    intros [= <-]. split.
    + subst tl2. case_decide; [apply jsmap_NoDup_delete|]; by apply jsmap_NoDup_set.
    + intros type' ls'. subst tl2. rewrite (jsmap_get_set_prune type type').
      destruct (decide (type' = type)) as [->|Htype']; [|by apply Hsets].
      destruct (decide (JsSet.size ls1 = 0%nat)) as [?|Hsz']; [done|].
      intros [= <-].
      split; [by apply jsset_NoDup_delete|].
      intros Hnil. apply Hsz'. unfold JsSet.size. by rewrite Hnil.
Qed.

Lemma new_wf (w : World.t) : wf (EventListenerTracker.new w).1.
Proof. split; [apply NoDup_nil_2 | done]. Qed.

Lemma perform_wf self c : wf self → wf (perform self c).
Proof. destruct c; [apply acquire_wf | apply release_wf]. Qed.

Lemma live_snoc (calls : list Call) (c : Call) h :
  live (calls ++ [c]) h
  = match c with
    | Acquire h' _ => if decide (h' = h) then true else live calls h
    | Release h' _ => if decide (h' = h) then false else live calls h
    end.
Proof. unfold live. by rewrite foldl_snoc. Qed.

Lemma run_snoc (calls : list Call) (c : Call) self :
  run (calls ++ [c]) self = perform (run calls self) c.
Proof. unfold run. by rewrite foldl_snoc. Qed.

(** The invariant that links the registry to the call sequence. *)
Lemma run_invariant (w : World.t) (rest before : list Call) :
  let self := run before (EventListenerTracker.new w).1 in
  wf self →
  (∀ h, tracked self h = live before h) →
  let self' := run (before ++ rest) (EventListenerTracker.new w).1 in
  wf self'
  ∧ (∀ h, tracked self' h = live (before ++ rest) h)
  ∧ (registered self' + matched_releases_from before rest
     = registered self + new_acquires_from before rest)%nat.
Proof.
  revert before. induction rest as [|c rest IH]; intros before self Hwf Htr.
  - rewrite app_nil_r. cbv zeta. fold self.
    cbn [matched_releases_from new_acquires_from]. split_and!; [done|done|lia].
  - cbv zeta. replace (before ++ c :: rest) with ((before ++ [c]) ++ rest)
      by (by rewrite <- app_assoc).
    assert (Hwf1 : wf (run (before ++ [c]) (EventListenerTracker.new w).1)).
    { rewrite run_snoc. by apply perform_wf. }
    assert (Htr1 : ∀ h, tracked (run (before ++ [c]) (EventListenerTracker.new w).1) h
                        = live (before ++ [c]) h).
    { intros h. rewrite run_snoc, live_snoc. fold self. destruct c as [h' o|h' o].
      - rewrite acquire_tracked, Htr. case_decide as Heq.
        + subst. rewrite bool_decide_eq_true_2 by done. apply orb_true_r.
        + rewrite bool_decide_eq_false_2 by congruence. apply orb_false_r.
      - rewrite release_tracked, Htr. case_decide as Heq.
        + subst. rewrite bool_decide_eq_true_2 by done. apply andb_false_r.
        + rewrite bool_decide_eq_false_2 by congruence. apply andb_true_r. }
    destruct (IH (before ++ [c]) Hwf1 Htr1) as (Hwf' & Htr' & Hcount).
    split_and!; [done|done|].
    cbn [matched_releases_from new_acquires_from].
    assert (Hstep :
      (registered (run (before ++ [c]) (EventListenerTracker.new w).1)
       + match c with
         | Acquire _ _ => 0
         | Release h _ => if live before h then 1 else 0
         end
       = registered self
         + match c with
           | Acquire h _ => if live before h then 0 else 1
           | Release _ _ => 0
           end)%nat).
    { rewrite run_snoc. fold self. destruct c as [h' o|h' o].
      - rewrite acquire_registered, Htr. lia.
      - pose proof (release_registered self h' o Hwf) as Hr. rewrite Htr in Hr. lia. }
    lia.
Qed.

Lemma new_acquires_from_le (rest before : list Call) :
  (new_acquires_from before rest ≤ acquires rest)%nat.
Proof.
  revert before. unfold acquires.
  induction rest as [|c rest IH]; intros before; simpl; [done|].
  rewrite filter_cons. specialize (IH (before ++ [c])).
  destruct c as [h o|h o]; simpl.
  - destruct (live before h); simpl; lia.
  - lia.
Qed.

(** C1, as stated, fails: acquiring the same listener twice on the same
    target and event kind leaves one tracked listener, while the number of
    acquires minus the number of matched releases is two. *)
Lemma C1_counterexample :
  let calls := [Acquire (button, "click", 7%nat) None;
                Acquire (button, "click", 7%nat) None] in
  EventListenerTracker.getActiveListeners
    (run calls (EventListenerTracker.new host0).1) = 1
  ∧ Z.of_nat (acquires calls) - Z.of_nat (matched_releases calls) = 2.
Proof. split; vm_compute; reflexivity. Qed.

(** C1 (amended): for every sequence of addEventListener/removeEventListener
    calls on a fresh tracker, getActiveListeners() equals the number of
    acquires of a handle that is not tracked at that moment minus the number
    of matched releases; it is never negative and never above the number of
    acquires minus the matched releases; a release of a handle that is not
    tracked changes nothing, and so does an acquire of a handle that is. *)
Theorem C1_active_listeners (w : World.t) (calls : list Call) :
  let self := run calls (EventListenerTracker.new w).1 in
  EventListenerTracker.getActiveListeners self
  = Z.of_nat (new_acquires calls) - Z.of_nat (matched_releases calls)
  ∧ 0 ≤ EventListenerTracker.getActiveListeners self
      ≤ Z.of_nat (acquires calls) - Z.of_nat (matched_releases calls)
  ∧ (∀ h options, live calls h = false →
       perform self (Release h options) = self)
  ∧ (∀ h options, live calls h = true →
       perform self (Acquire h options) = self).
Proof.
  intros self.
  assert (Hnew : ∀ h, tracked (run [] (EventListenerTracker.new w).1) h = live [] h).
  { by intros [[this type] listener]. }
  destruct (run_invariant w calls [] (new_wf w) Hnew) as (Hwf & Htr & Hcount).
  rewrite app_nil_l in Hwf, Htr, Hcount. fold self in Hwf, Htr, Hcount.
  change (registered (run [] (EventListenerTracker.new w).1)) with 0%nat in Hcount.
  fold (new_acquires calls) in Hcount. fold (matched_releases calls) in Hcount.
  pose proof (new_acquires_from_le calls []) as Hle. fold (new_acquires calls) in Hle.
  rewrite getActiveListeners_registered. split_and!.
  - lia.
  - lia.
  - lia.
  - intros h o Hl. apply release_same; [done|]. by rewrite Htr.
  - intros h o Hl. apply acquire_same. by rewrite Htr.
Qed.

Lemma detectLeaks_per_target_eq self :
  EventListenerTracker.detectLeaks self = detectLeaks_per_target self.
Proof.
  unfold EventListenerTracker.detectLeaks, detectLeaks_per_target. cbv zeta.
  rewrite <- (app_nil_l (_ ≫= _)). apply foldl_push.
  intros acc [target tl]. rewrite count_loop_total, Z.add_0_l.
  case_decide; [done|by rewrite app_nil_r].
Qed.

(** C2, as stated, fails: a target with 30 listeners for "click" and 30 for
    "keydown" has no (target, event kind) key above 50 (the rule worded per
    key emits nothing), yet detectLeaks emits a suspect of count 60. *)
Lemma C2_counterexample :
  let calls :=
    ((λ i, Acquire (button, "click", i) None) <$> seq 0 30)
    ++ ((λ i, Acquire (button, "keydown", i) None) <$> seq 0 30) in
  let self := run calls (EventListenerTracker.new host0).1 in
  EventListenerTracker.listeners self
  = [(button, [("click", seq 0 30); ("keydown", seq 0 30)])]
  ∧ detectLeaks_per_key self = []
  ∧ EventListenerTracker.detectLeaks self
    = [suspect LeakType.event_listener high
         (DescEventListeners 60 "HTMLButtonElement") 60].
Proof. split_and!; vm_compute; reflexivity. Qed.

(** C2 (amended): the listener tracker's detectLeaks emits one suspect for
    each target whose live listener count, summed over all its event kinds,
    exceeds 50, in the registry's order, and nothing else; the suspect's
    count is that sum, its severity is critical if and only if the sum
    exceeds 100 and high otherwise. *)
Theorem C2_listener_suspects (self : EventListenerTracker.t) :
  EventListenerTracker.detectLeaks self = detectLeaks_per_target self
  ∧ (∀ s, s ∈ EventListenerTracker.detectLeaks self ↔
       ∃ target listeners,
         (target, listeners) ∈ EventListenerTracker.listeners self
         ∧ Z.of_nat (JsMap.total JsSet.size listeners) > 50
         ∧ s = suspect LeakType.event_listener
                 (if decide (Z.of_nat (JsMap.total JsSet.size listeners) > 100)
                  then critical else high)
                 (DescEventListeners
                    (Z.of_nat (JsMap.total JsSet.size listeners))
                    (constructor_name target))
                 (Z.of_nat (JsMap.total JsSet.size listeners)))
  ∧ (∀ s, s ∈ EventListenerTracker.detectLeaks self →
       ∃ n, LeakSuspect.count s = Some n ∧ n > 50
            ∧ LeakSuspect.type s = LeakType.event_listener
            ∧ (LeakSuspect.severity s = critical ↔ n > 100)
            ∧ (LeakSuspect.severity s = high ↔ n ≤ 100))
  ∧ length (EventListenerTracker.detectLeaks self)
    = length (filter (λ p, Z.of_nat (JsMap.total JsSet.size p.2) > 50)
                (EventListenerTracker.listeners self)).
Proof.
  assert (Hmem : ∀ s, s ∈ EventListenerTracker.detectLeaks self ↔
       ∃ target listeners,
         (target, listeners) ∈ EventListenerTracker.listeners self
         ∧ Z.of_nat (JsMap.total JsSet.size listeners) > 50
         ∧ s = suspect LeakType.event_listener
                 (if decide (Z.of_nat (JsMap.total JsSet.size listeners) > 100)
                  then critical else high)
                 (DescEventListeners
                    (Z.of_nat (JsMap.total JsSet.size listeners))
                    (constructor_name target))
                 (Z.of_nat (JsMap.total JsSet.size listeners))).
  { intros s. rewrite detectLeaks_per_target_eq. unfold detectLeaks_per_target.
    rewrite list_elem_of_bind. split.
    - intros ([target tl] & Hs & Hin). cbn beta iota zeta in Hs.
      case_decide as Hn; [|by apply elem_of_nil in Hs].
      apply list_elem_of_singleton in Hs. by exists target, tl.
    - intros (target & tl & Hin & Hn & ->). exists (target, tl).
      split; [|done]. cbn beta iota zeta.
      destruct (decide (Z.of_nat (JsMap.total JsSet.size tl) > 50)); [|done].
      apply list_elem_of_here. }
  split; [apply detectLeaks_per_target_eq|].
  split; [exact Hmem|]. split.
  - intros s Hs. apply Hmem in Hs as (target & tl & _ & Hn & ->).
    eexists. split; [reflexivity|]. split; [done|]. split; [done|].
    simpl. case_decide; split; split; (done || lia).
  - rewrite detectLeaks_per_target_eq. unfold detectLeaks_per_target.
    clear Hmem.
    induction (EventListenerTracker.listeners self) as [|[target tl] L IH];
      [done|].
    rewrite filter_cons, bind_cons, length_app, IH. cbn beta iota zeta.
    cbn [snd]. destruct (decide (Z.of_nat (JsMap.total JsSet.size tl) > 50));
      simpl; lia.
Qed.

End listener_facts.

(** ** The snapshot history *)

Section snapshot_facts.
Import MemoryLeakDetector.

Lemma slice_last_all {A : Type} (n : nat) (l : list A) :
  (length l ≤ n)%nat → slice_last n l = l.
Proof.
  intros Hl. unfold slice_last.
  replace (length l - n)%nat with 0%nat by lia. done.
Qed.

Lemma length_slice_last {A : Type} (n : nat) (l : list A) :
  length (slice_last n l) = (length l `min` n)%nat.
Proof. unfold slice_last. rewrite length_drop. lia. Qed.

Lemma slice_last_snoc {A : Type} (n : nat) (l : list A) (x : A) :
  (0 < n)%nat → slice_last n (slice_last n l ++ [x]) = slice_last n (l ++ [x]).
Proof.
  intros Hn. destruct (decide (length l ≤ n)%nat) as [Hle|Hgt].
  - by rewrite (slice_last_all n l).
  - unfold slice_last at 1 3. rewrite !length_app, length_slice_last. simpl.
    replace (length l `min` n + 1 - n)%nat with 1%nat by lia.
    unfold slice_last. rewrite drop_app_le by (rewrite length_drop; lia).
    rewrite drop_drop. rewrite drop_app_le by lia.
    do 2 f_equal. lia.
Qed.

Lemma takeSnapshot_snapshots (self : t) (r : Readings.t) :
  snapshots (takeSnapshot self r).2
  = slice_last 100 (snapshots self ++ [(takeSnapshot self r).1]).
Proof.
  unfold takeSnapshot. cbv zeta. cbn [fst snd snapshots with_snapshots].
  case_decide as Hlen; [done|]. by rewrite slice_last_all by lia.
Qed.

Lemma takeSnapshot_trackers (self : t) (r : Readings.t) :
  let self' := (takeSnapshot self r).2 in
  config self' = config self
  ∧ eventTracker self' = eventTracker self
  ∧ timerTracker self' = timerTracker self
  ∧ domTracker self' = domTracker self
  ∧ reduxTracker self' = reduxTracker self
  ∧ reportInterval self' = reportInterval self
  ∧ isRunning self' = isRunning self.
Proof. done. Qed.

Lemma takeSnapshots_loop (rs : list Readings.t) (created : list MemorySnapshot.t)
    (self : t) :
  snapshots self = slice_last 100 created →
  let res :=
    foldl (λ '(created, self) r,
             let '(snapshot, self1) := takeSnapshot self r in
             (created ++ [snapshot], self1))
          (created, self) rs in
  snapshots res.2 = slice_last 100 res.1
  ∧ length res.1 = (length created + length rs)%nat.
Proof.
  revert created self. induction rs as [|r rs IH]; intros created self Hs.
  - simpl. split; [done|lia].
  - cbn [foldl]. cbv zeta.
    destruct (takeSnapshot self r) as [snapshot self1] eqn:Ht.
    assert (Hs1 : snapshots self1 = slice_last 100 (created ++ [snapshot])).
    { pose proof (takeSnapshot_snapshots self r) as H1. rewrite Ht in H1.
      cbn [fst snd] in H1. rewrite H1, Hs. apply slice_last_snoc. lia. }
    destruct (IH _ _ Hs1) as [IH1 IH2]. split; [exact IH1|].
    rewrite IH2, length_app. simpl. lia.
Qed.

(** C3: after any takeSnapshot the history holds at most 100 snapshots; a
    takeSnapshot appends the new snapshot and keeps the last 100; starting
    from an empty history, the history is always the last 100 of the
    snapshots created, in order of creation; after 150 insertions these are
    exactly the 100 most recent ones (the first 50 are gone). *)
Theorem C3_snapshot_history :
  (∀ self r, (length (snapshots (takeSnapshot self r).2) ≤ 100)%nat)
  ∧ (∀ self r,
       snapshots (takeSnapshot self r).2
       = slice_last 100 (snapshots self ++ [(takeSnapshot self r).1]))
  ∧ (∀ self rs,
       let res := takeSnapshots (with_snapshots [] self) rs in
       length res.1 = length rs
       ∧ snapshots res.2 = slice_last 100 res.1)
  ∧ (∀ self (f : nat → Readings.t),
       let res := takeSnapshots (with_snapshots [] self) (f <$> seq 0 150) in
       length res.1 = 150%nat
       ∧ snapshots res.2 = drop 50 res.1
       ∧ length (snapshots res.2) = 100%nat).
Proof.
  assert (Hall : ∀ self rs,
       let res := takeSnapshots (with_snapshots [] self) rs in
       length res.1 = length rs
       ∧ snapshots res.2 = slice_last 100 res.1).
  { intros self rs.
    destruct (takeSnapshots_loop rs [] (with_snapshots [] self) eq_refl)
      as [H1 H2].
    split; [exact H2 | exact H1]. }
  split_and!.
  - intros self r. rewrite takeSnapshot_snapshots, length_slice_last. lia.
  - apply takeSnapshot_snapshots.
  - exact Hall.
  - intros self f. destruct (Hall self (f <$> seq 0 150)) as [H1 H2].
    rewrite length_fmap, length_seq in H1. cbv zeta.
    split; [exact H1|]. rewrite H2. unfold slice_last. rewrite H1.
    change (150 - 100)%nat with 50%nat.
    split; [reflexivity|]. rewrite length_drop, H1. reflexivity.
Qed.

End snapshot_facts.

(** ** The growth rule *)

Section growth_facts.
Import MemoryLeakDetector.

Lemma growthMB_lt (k d : Z) :
  (inject_Z k < inject_Z d / inject_Z (1024 * 1024))%Q ↔ k * MB < d.
Proof.
  unfold MB. change (1024 * 1024) with 1048576.
  unfold Qlt, Qdiv, Qmult, Qinv, inject_Z. simpl. lia.
Qed.

Lemma Math_round_growthMB (d : Z) :
  Math_round (inject_Z d / inject_Z (1024 * 1024)) = (2 * d + MB) `div` (2 * MB).
Proof.
  unfold MB. change (1024 * 1024) with 1048576.
  unfold Math_round, Qfloor, Qdiv, Qmult, Qinv, Qplus, inject_Z.
  cbn -[Z.mul Z.div Z.add]. f_equal. lia.
Qed.

(** Rounding to the nearest integer, a tie going up. *)
Lemma round_nearest (d : Z) :
  let n := (2 * d + MB) `div` (2 * MB) in
  2 * n * MB - MB ≤ 2 * d < 2 * n * MB + MB.
Proof.
  intros n. unfold MB in *. change (1024 * 1024) with 1048576 in *.
  pose proof (Z.div_mod (2 * d + 1048576) (2 * 1048576) ltac:(lia)) as Hdm.
  pose proof (Z.mod_pos_bound (2 * d + 1048576) (2 * 1048576) ltac:(lia)) as Hb.
  subst n. lia.
Qed.

Lemma lookup_last_two {A : Type} (pre : list A) (previous latest : A) :
  let l := pre ++ [previous; latest] in
  l !! (length l - 1)%nat = Some latest ∧ l !! (length l - 2)%nat = Some previous.
Proof.
  intros l. subst l. rewrite length_app. simpl. split.
  - rewrite lookup_app_r by lia.
    by replace (length pre + 2 - 1 - length pre)%nat with 1%nat by lia.
  - rewrite lookup_app_r by lia.
    by replace (length pre + 2 - 2 - length pre)%nat with 0%nat by lia.
Qed.

(** C4: the growth rule emits nothing when fewer than two snapshots exist;
    with the two most recent snapshots previous and latest it emits one
    suspect exactly when the heap-used increase exceeds 10 MB, critical if
    the increase exceeds 50 MB and high otherwise, with the increase in MB
    rounded to the nearest integer as count; heap-used [100MB, 112MB] gives
    one suspect of count 12 and severity high, [100MB, 105MB] gives none. *)
Theorem C4_growth_rule :
  (∀ self, (length (snapshots self) < 2)%nat → memoryGrowthSuspects self = [])
  ∧ (∀ self pre previous latest,
       let d := Memory.heapUsed (MemorySnapshot.memory latest)
                - Memory.heapUsed (MemorySnapshot.memory previous) in
       let n := (2 * d + MB) `div` (2 * MB) in
       memoryGrowthSuspects (with_snapshots (pre ++ [previous; latest]) self)
       = (if decide (d > 10 * MB)
          then [suspect LeakType.closure
                  (if decide (d > 50 * MB) then critical else high)
                  (DescMemoryIncreased
                     (inject_Z d / inject_Z (1024 * 1024))
                     (inject_Z (Config.reportInterval (config self)) / 1000))
                  n]
          else [])
       ∧ 2 * n * MB - MB ≤ 2 * d < 2 * n * MB + MB)
  ∧ (∀ self r,
       detectLeaks self r
       = fromTracker (eventTracker self) EventListenerTracker.detectLeaks
         ++ fromTracker (timerTracker self)
              (λ tr, TimerTracker.detectLeaks tr (Readings.timer_now r))
         ++ fromTracker (domTracker self)
              (λ tr, DOMTracker.detectLeaks tr (Readings.detect_domNodes r))
         ++ fromTracker (reduxTracker self)
              (λ tr, ReduxTracker.detectLeaks tr (Readings.redux_now r))
         ++ memoryGrowthSuspects self)
  ∧ (∀ self,
       memoryGrowthSuspects
         (with_snapshots [snapshotWithHeap (100 * MB); snapshotWithHeap (112 * MB)] self)
       = [suspect LeakType.closure high
            (DescMemoryIncreased
               (inject_Z (12 * MB) / inject_Z (1024 * 1024))
               (inject_Z (Config.reportInterval (config self)) / 1000))
            12])
  ∧ (∀ self,
       memoryGrowthSuspects
         (with_snapshots [snapshotWithHeap (100 * MB); snapshotWithHeap (105 * MB)] self)
       = []).
Proof.
  split_and!.
  - intros self Hlen. unfold memoryGrowthSuspects.
    by rewrite decide_False by lia.
  - intros self pre previous latest d n. split; [|apply round_nearest].
    unfold memoryGrowthSuspects. cbn [snapshots with_snapshots config].
    rewrite decide_True by (rewrite length_app; simpl; lia).
    destruct (lookup_last_two pre previous latest) as [-> ->].
    cbv zeta. fold d.
    destruct (Qlt_le_dec 10 _) as [H10|H10].
    + apply (proj1 (growthMB_lt 10 d)) in H10.
      destruct (decide (d > 10 * MB)) as [_|Hn]; [|lia].
      rewrite Math_round_growthMB. fold n. do 2 f_equal.
      destruct (Qlt_le_dec 50 _) as [H50|H50].
      * apply (proj1 (growthMB_lt 50 d)) in H50.
        destruct (decide (d > 50 * MB)) as [_|Hn]; [done|lia].
      * destruct (decide (d > 50 * MB)) as [Hd|_]; [|done].
        apply Qle_not_lt in H50. exfalso. apply H50.
        apply (proj2 (growthMB_lt 50 d)). lia.
    + destruct (decide (d > 10 * MB)) as [Hd|_]; [|done].
      apply Qle_not_lt in H10. exfalso. apply H10.
      apply (proj2 (growthMB_lt 10 d)). lia.
  - intros self r. unfold detectLeaks, fromTracker.
    destruct (eventTracker self), (timerTracker self), (domTracker self),
      (reduxTracker self); cbv zeta; rewrite ?app_nil_l, ?app_nil_r, <- ?app_assoc;
      reflexivity.
  - intros self. vm_compute. reflexivity.
  - intros self. vm_compute. reflexivity.
Qed.

End growth_facts.

(** ** The timer rules *)

Section timer_facts.

Lemma timer_loop (now : Z) (timers : list (TimerId * TimerInfo.t)) (o i : Z) :
  foldl (λ '(oldTimers, totalIntervals) '(id, timer),
           let totalIntervals1 :=
             if decide (TimerInfo.type timer = TimerType.interval)
             then totalIntervals + 1 else totalIntervals in
           let oldTimers1 :=
             if decide (now - TimerInfo.created timer > 5 * 60 * 1000)
             then oldTimers + 1 else oldTimers in
           (oldTimers1, totalIntervals1))
        (o, i) timers
  = (o + Z.of_nat (length (filter (λ p, now - TimerInfo.created p.2 > 5 * 60 * 1000)
                             timers)),
     i + Z.of_nat (length (filter (λ p, TimerInfo.type p.2 = TimerType.interval)
                             timers))).
Proof.
  revert o i. induction timers as [|[id timer] timers IH]; intros o i.
  - simpl. f_equal; lia.
  - cbn [foldl]. cbv zeta. rewrite IH, !filter_cons. cbn [snd].
    do 2 case_decide; cbn [length]; f_equal; lia.
Qed.

Lemma jsmap_set_fresh {K V : Type} `{EqDecision K} (k : K) (v : V)
    (m : list (K * V)) :
  k ∉ m.*1 → JsMap.set k v m = m ++ [(k, v)].
Proof.
  induction m as [|[k0 v0] m IH]; csimpl; [done|].
  rewrite not_elem_of_cons. intros [Hne Hni].
  rewrite decide_False by done. by rewrite IH.
Qed.

Lemma setIntervals_timers (calls : list (TimerId * Z)) (self : TimerTracker.t) :
  NoDup ((TimerTracker.timers self).*1 ++ calls.*1) →
  TimerTracker.timers (setIntervals self calls)
  = TimerTracker.timers self
    ++ ((λ '(id, now),
           (id, {| TimerInfo.type := TimerType.interval;
                   TimerInfo.created := now; TimerInfo.stack := None |}))
          <$> calls).
Proof.
  revert self. induction calls as [|[id now] calls IH]; intros self Hnd.
  - simpl. by rewrite app_nil_r.
  - unfold setIntervals. cbn [foldl]. fold (setIntervals
      (TimerTracker.setInterval self 0%nat None [] id now None).1.1 calls).
    csimpl in Hnd. apply NoDup_app in Hnd as (Hnd1 & Hdisj & Hnd2).
    apply NoDup_cons in Hnd2 as [Hid Hnd2].
    assert (Hfresh : id ∉ (TimerTracker.timers self).*1).
    { intros Hin. apply (Hdisj _ Hin). apply list_elem_of_here. }
    rewrite IH.
    + cbn [TimerTracker.setInterval fst TimerTracker.timers TimerTracker.with_timers].
      rewrite (jsmap_set_fresh _ _ _ Hfresh). csimpl. by rewrite <- app_assoc.
    + cbn [TimerTracker.setInterval fst TimerTracker.timers TimerTracker.with_timers].
      rewrite (jsmap_set_fresh _ _ _ Hfresh), fmap_app. csimpl.
      rewrite <- app_assoc. simpl. apply NoDup_app. split_and!; [done| |].
      * intros x Hx Hx'. apply elem_of_cons in Hx' as [->|Hx']; [done|].
        apply (Hdisj _ Hx). by apply list_elem_of_further.
      * by apply NoDup_cons.
Qed.

(** C5: the timer tracker's detectLeaks pushes a suspect for the timers
    older than 5 minutes when they number more than 10 (critical above 50,
    else high) and then, independently, a suspect for the repeating timers
    when they number more than 20 (critical above 100, else medium); 25
    repeating timers acquired under distinct ids and at most 5 minutes old
    give exactly one suspect, of severity medium and count 25. *)
Theorem C5_timer_rules :
  (∀ self now,
     TimerTracker.detectLeaks self now
     = (if decide (oldTimers self now > 10)
        then [suspect LeakType.timer
                (if decide (oldTimers self now > 50) then critical else high)
                (DescOldTimers (oldTimers self now)) (oldTimers self now)]
        else [])
       ++ (if decide (totalIntervals self > 20)
           then [suspect LeakType.timer
                   (if decide (totalIntervals self > 100) then critical else medium)
                   (DescActiveIntervals (totalIntervals self)) (totalIntervals self)]
           else []))
  ∧ (∀ w calls now,
       NoDup calls.*1 → length calls = 25%nat →
       (∀ id created, (id, created) ∈ calls → now - created ≤ 5 * 60 * 1000) →
       TimerTracker.detectLeaks (setIntervals (TimerTracker.new w).1 calls) now
       = [suspect LeakType.timer medium (DescActiveIntervals 25) 25]).
Proof.
  assert (Hgen : ∀ self now,
     TimerTracker.detectLeaks self now
     = (if decide (oldTimers self now > 10)
        then [suspect LeakType.timer
                (if decide (oldTimers self now > 50) then critical else high)
                (DescOldTimers (oldTimers self now)) (oldTimers self now)]
        else [])
       ++ (if decide (totalIntervals self > 20)
           then [suspect LeakType.timer
                   (if decide (totalIntervals self > 100) then critical else medium)
                   (DescActiveIntervals (totalIntervals self)) (totalIntervals self)]
           else [])).
  { intros self now. unfold TimerTracker.detectLeaks. cbv zeta.
    rewrite timer_loop, !Z.add_0_l. fold (oldTimers self now).
    fold (totalIntervals self).
    destruct (decide (totalIntervals self > 20)); [done|by rewrite app_nil_r]. }
  split; [exact Hgen|].
  intros w calls now Hnd Hlen Hfresh. rewrite Hgen.
  assert (Htimers : TimerTracker.timers (setIntervals (TimerTracker.new w).1 calls)
            = (λ '(id, now),
                 (id, {| TimerInfo.type := TimerType.interval;
                         TimerInfo.created := now; TimerInfo.stack := None |}))
              <$> calls).
  { by rewrite setIntervals_timers. }
  assert (Hold : oldTimers (setIntervals (TimerTracker.new w).1 calls) now = 0).
  { unfold oldTimers. rewrite Htimers. clear Htimers Hnd Hlen.
    induction calls as [|[id created] calls IH]; [done|].
    rewrite fmap_cons, filter_cons. cbn [snd TimerInfo.created].
    rewrite decide_False.
    - apply IH. intros id' c' Hin. apply (Hfresh id'). by apply list_elem_of_further.
    - specialize (Hfresh id created (list_elem_of_here _ _)). lia. }
  assert (Hint : totalIntervals (setIntervals (TimerTracker.new w).1 calls) = 25).
  { unfold totalIntervals. rewrite Htimers.
    replace 25 with (Z.of_nat (length calls)) by lia. clear.
    induction calls as [|[id created] calls IH]; [done|].
    rewrite fmap_cons, filter_cons. cbn [snd TimerInfo.type].
    rewrite decide_True by done. cbn [length]. lia. }
  rewrite Hold, Hint. reflexivity.
Qed.

(** C5 holds at a concrete input: 25 repeating timers with ids 1 to 25,
    created at time 1000, inspected at time 2000. *)
Lemma C5_witness :
  TimerTracker.detectLeaks
    (setIntervals (TimerTracker.new host0).1
       ((λ i, (Z.of_nat i + 1, 1000)) <$> seq 0 25)) 2000
  = [suspect LeakType.timer medium (DescActiveIntervals 25) 25].
Proof.
  apply (proj2 C5_timer_rules).
  - apply (bool_decide_unpack _). vm_compute. exact I.
  - reflexivity.
  - intros id created Hin. apply list_elem_of_fmap in Hin as (i & [= -> ->] & _).
    lia.
Defined.

End timer_facts.

(** ** One detection cycle *)

Section report_facts.
Import MemoryLeakDetector.

Lemma foldl_push_one {A B : Type} (f : A → B) (l : list A) :
  foldl (λ acc x, acc ++ [f x]) [] l = f <$> l.
Proof.
  rewrite (foldl_push _ (λ x, [f x])) by done. rewrite app_nil_l.
  induction l as [|x l IH]; [done|]. csimpl. by rewrite IH.
Qed.

Lemma detectLeaks_concat (self : t) (r : Readings.t) :
  detectLeaks self r
  = fromTracker (eventTracker self) EventListenerTracker.detectLeaks
    ++ fromTracker (timerTracker self)
         (λ tr, TimerTracker.detectLeaks tr (Readings.timer_now r))
    ++ fromTracker (domTracker self)
         (λ tr, DOMTracker.detectLeaks tr (Readings.detect_domNodes r))
    ++ fromTracker (reduxTracker self)
         (λ tr, ReduxTracker.detectLeaks tr (Readings.redux_now r))
    ++ memoryGrowthSuspects self.
Proof.
  unfold detectLeaks, fromTracker.
  destruct (eventTracker self), (timerTracker self), (domTracker self),
    (reduxTracker self); cbv zeta; rewrite ?app_nil_l, ?app_nil_r, <- ?app_assoc;
    reflexivity.
Qed.

(** C6: generateReport takes a snapshot, then builds its suspect list as
    the detectLeaks results of the enabled trackers in the order listener,
    timer, structural, store, followed by the growth rule's suspects (which
    see the new snapshot); it then invokes the on-leak callback once per
    suspect, in list order, and last the on-report callback, once, with the
    report that holds this list and the recommendations built from it. *)
Theorem C6_generateReport (self : t) (r : Readings.t) :
  let report := (generateReport self r).1.1 in
  let self' := (generateReport self r).1.2 in
  let effects := (generateReport self r).2 in
  self' = (takeSnapshot self r).2
  ∧ MemoryLeakReport.leakSuspects report
    = fromTracker (eventTracker self) EventListenerTracker.detectLeaks
      ++ fromTracker (timerTracker self)
           (λ tr, TimerTracker.detectLeaks tr (Readings.timer_now r))
      ++ fromTracker (domTracker self)
           (λ tr, DOMTracker.detectLeaks tr (Readings.detect_domNodes r))
      ++ fromTracker (reduxTracker self)
           (λ tr, ReduxTracker.detectLeaks tr (Readings.redux_now r))
      ++ memoryGrowthSuspects self'
  ∧ MemoryLeakReport.recommendations report
    = generateRecommendations (MemoryLeakReport.leakSuspects report)
  ∧ effects = (OnLeak <$> MemoryLeakReport.leakSuspects report) ++ [OnReport report].
Proof.
  unfold generateReport.
  destruct (takeSnapshot self r) as [snapshot self1] eqn:Ht.
  cbv zeta. cbn [fst snd MemoryLeakReport.leakSuspects
                 MemoryLeakReport.recommendations].
  pose proof (takeSnapshot_trackers self r) as Htr. rewrite Ht in Htr.
  cbn [snd] in Htr. destruct Htr as (_ & He & Hti & Hd & Hre & _).
  split; [done|]. split.
  - rewrite detectLeaks_concat. by rewrite He, Hti, Hd, Hre.
  - split; [done|]. by rewrite foldl_push_one.
Qed.

End report_facts.

(** ** Recommendations *)

Section recommendation_facts.
Import MemoryLeakDetector.

Lemma of_list_loop_elem {A : Type} `{EqDecision A} (l acc : list A) (x : A) :
  x ∈ foldl (λ s y, JsSet.add y s) acc l ↔ x ∈ acc ∨ x ∈ l.
Proof.
  revert acc. induction l as [|y l IH]; intros acc; simpl.
  - rewrite elem_of_nil. tauto.
  - rewrite IH, jsset_elem_of_add, elem_of_cons. tauto.
Qed.


Lemma of_list_loop_fmap {A B : Type} `{EqDecision A, EqDecision B} (f : A → B)
    `{!Inj (=) (=) f} (l acc : list A) :
  foldl (λ s y, JsSet.add y s) (f <$> acc) (f <$> l)
  = f <$> foldl (λ s y, JsSet.add y s) acc l.
Proof.
  revert acc. induction l as [|y l IH]; intros acc; csimpl; [done|].
  rewrite <- IH. f_equal. unfold JsSet.add.
  destruct (decide (y ∈ acc)) as [Hin|Hni].
  - rewrite decide_True; [done|]. by apply list_elem_of_fmap_2.
  - rewrite decide_False; [by rewrite fmap_app|].
    intros Hin. apply Hni. by apply (list_elem_of_fmap_inj_2 f) in Hin.
Qed.

Global Instance recommendation_inj : Inj (=) (=) recommendation.
Proof. intros [] [] Heq; (reflexivity || (vm_compute in Heq; discriminate)). Qed.

Lemma generateRecommendations_of_types (suspects : list LeakSuspect.t) :
  generateRecommendations suspects
  = recommendation <$> JsSet.of_list (LeakSuspect.type <$> suspects).
Proof.
  unfold generateRecommendations. cbv zeta.
  rewrite (foldl_push_one (λ s, recommendation (LeakSuspect.type s))).
  unfold JsSet.of_list.
  rewrite <- (of_list_loop_fmap recommendation _ []). by rewrite <- list_fmap_compose.
Qed.



End recommendation_facts.

(** ** Cleanup *)

Section cleanup_facts.
Import MemoryLeakDetector.

Lemma stop_not_running (self : t) (w : World.t) :
  isRunning (stop self w).1 = false.
Proof.
  unfold stop. destruct (isRunning self) eqn:Hrun; simpl; [|done].
  destruct (TimerTracker.truthy (reportInterval self)); simpl; [|done].
  unfold call_clearInterval. cbn [timerTracker with_running].
  by destruct (World.clearInterval w), (timerTracker self).
Qed.

Lemma stop_idle (self : t) (w : World.t) :
  isRunning self = false → stop self w = (self, []).
Proof. unfold stop. by intros ->. Qed.

Lemma stop_trackers (self : t) (w : World.t) :
  let self' := (stop self w).1 in
  config self' = config self
  ∧ eventTracker self' = eventTracker self
  ∧ domTracker self' = domTracker self
  ∧ reduxTracker self' = reduxTracker self
  ∧ snapshots self' = snapshots self
  ∧ TimerTracker.originalSetTimeout <$> timerTracker self'
    = TimerTracker.originalSetTimeout <$> timerTracker self
  ∧ TimerTracker.originalSetInterval <$> timerTracker self'
    = TimerTracker.originalSetInterval <$> timerTracker self
  ∧ TimerTracker.originalClearTimeout <$> timerTracker self'
    = TimerTracker.originalClearTimeout <$> timerTracker self
  ∧ TimerTracker.originalClearInterval <$> timerTracker self'
    = TimerTracker.originalClearInterval <$> timerTracker self.
Proof.
  destruct self as [cfg et tt dt rt snaps ri running]. unfold stop. cbn.
  destruct running; cbn; [|done].
  destruct (TimerTracker.truthy ri) eqn:Hri; cbn; [|done].
  unfold call_clearInterval. cbn.
  destruct (World.clearInterval w), tt as [tr|]; cbn; try done.
  by rewrite Hri.
Qed.

Lemma set_subscribe_twice (store : ObjRef) (f : Fn) (w : World.t) :
  World.set_subscribe store f (World.set_subscribe store f w)
  = World.set_subscribe store f w.
Proof.
  unfold World.set_subscribe. simpl. f_equal. apply insert_insert_eq.
Qed.

Lemma cleanup_twice (self : t) (w : World.t) :
  let d1 := (cleanup self w).1.1 in
  let w1 := (cleanup self w).1.2 in
  cleanup d1 w1 = (d1, w1, []).
Proof.
  unfold cleanup at 1 2.
  destruct (stop self w) as [self1 effects1] eqn:Hstop.
  pose proof (stop_not_running self w) as Hrun. rewrite Hstop in Hrun.
  cbn [fst] in Hrun.
  destruct self1 as [cfg et tt dt rt snaps ri running]. cbn in Hrun. subst running.
  destruct w as [a r st si ct ci win sub mo].
  destruct et as [[l oa or]|], tt as [[tm o1 o2 o3 o4]|], dt as [[ob dn nc]|],
    rt as [[ss sc [os|] [sr|]]|];
    cbn; unfold cleanup, stop; cbn;
    unfold World.set_subscribe, World.set_timer_slots, World.set_listener_slots;
    cbn; rewrite ?insert_insert_eq; reflexivity.
Qed.

Lemma step_frame (op : System.Op) (sys : System.t) :
  match op with
  | System.PatchReduxStore _ | System.HostDevToolsCreateStore _ _
  | System.Cleanup => True
  | _ => frame (System.step op sys).1 = frame sys
  end.
Proof.
  destruct sys as [[cfg et tt dt rt snaps ri running] w].
  destruct op; try exact I; unfold System.step, frame;
    cbn [System.detector System.world eventTracker timerTracker domTracker
         reduxTracker].
  - destruct (World.addEventListener w), et; reflexivity.
  - destruct (World.removeEventListener w), et; reflexivity.
  - destruct (World.setTimeout w), tt; reflexivity.
  - destruct (World.setInterval w), tt; reflexivity.
  - destruct (World.clearTimeout w), tt as [tr|]; try reflexivity.
    unfold TimerTracker.clearTimeout. by destruct (TimerTracker.truthy id).
  - destruct (World.clearInterval w), tt as [tr|]; try reflexivity.
    unfold TimerTracker.clearInterval. by destruct (TimerTracker.truthy id).
  - destruct dt as [tr|]; [|reflexivity].
    by destruct (DOMTracker.observer tr).
  - destruct (World.subscribe w !! store) as [[]|], rt as [tr|];
      try reflexivity.
    unfold ReduxTracker.subscribe.
    by destruct (ReduxTracker.originalStoreSubscribe tr).
  - destruct u, rt; reflexivity.
  - unfold start. cbn [isRunning]. destruct running; [reflexivity|].
    unfold call_setInterval, takeSnapshot. cbn.
    by destruct (World.setInterval w), tt.
  - unfold stop. cbn [isRunning]. destruct running; [|reflexivity]. cbn.
    destruct (TimerTracker.truthy ri) eqn:Htr; [|reflexivity].
    unfold call_clearInterval. cbn.
    destruct (World.clearInterval w), tt as [tr|]; try reflexivity.
    cbn. by rewrite Htr.
  - reflexivity.
  - unfold trackSelectorUsage. cbn. by destruct rt.
Qed.

Lemma cleanup_frame (sys : System.t) :
  let '(ev, ti, re, eps, sub) := frame sys in
  frame (System.step System.Cleanup sys).1
  = (ev, ti, re,
     match ev with Some (a, r) => [a; r] | None => take 2 eps end
     ++ match ti with
        | Some (st, si, ct, ci) => [st; si; ct; ci]
        | None => drop 2 eps
        end,
     match re with
     | Some (Some store, Some original) => <[store := original]> sub
     | _ => sub
     end).
Proof.
  destruct sys as [d w]. unfold frame, System.step.
  cbn [System.detector System.world]. unfold cleanup.
  destruct (stop d w) as [d1 effects1] eqn:Hstop.
  pose proof (stop_trackers d w) as Htr. rewrite Hstop in Htr. cbn [fst] in Htr.
  destruct d as [cfg et tt dt rt snaps ri running],
    d1 as [cfg1 et1 tt1 dt1 rt1 snaps1 ri1 running1].
  cbn in Htr. destruct Htr as (-> & -> & -> & -> & -> & H1 & H2 & H3 & H4).
  destruct et as [et|], tt1 as [[tm1 a1 b1 c1 e1]|], tt as [[tm a b c e]|],
    dt as [dt|], rt as [[ss sc [os|] [sr|]]|];
    cbn in H1, H2, H3, H4; try discriminate; simplify_eq; reflexivity.
Qed.

Lemma restorable_patchStore (w0 : World.t) ev ti eps
    (tr : ReduxTracker.t) (w : World.t) (store : ObjRef) :
  restorable w0
    (ev, ti, Some (ReduxTracker.storeRef tr, ReduxTracker.originalStoreSubscribe tr),
     eps, World.subscribe w) →
  let tr1 := (ReduxTracker.patchStore tr w store).1 in
  let w1 := (ReduxTracker.patchStore tr w store).2 in
  restorable w0
    (ev, ti, Some (ReduxTracker.storeRef tr1, ReduxTracker.originalStoreSubscribe tr1),
     eps, World.subscribe w1)
  ∧ entryPoints w1 = entryPoints w.
Proof.
  intros (Hev & Hti & Hst). unfold ReduxTracker.patchStore.
  destruct (ReduxTracker.storeRef tr) as [sr|] eqn:Href; cbn [fst snd].
  { rewrite Href. by split. }
  split; [|done]. split; [done|]. split; [done|].
  intros store' f Hw0. destruct (Hst store' f Hw0) as [Ho Hsub].
  destruct Hsub as [Hsub|[_ [o [=]]]].
  cbn [ReduxTracker.storeRef ReduxTracker.originalStoreSubscribe
       World.subscribe World.set_subscribe]. split.
  - intros o [= -> <-]. done.
  - destruct (decide (store' = store)) as [->|Hne].
    + right. rewrite lookup_insert_eq. eauto.
    + left. by rewrite lookup_insert_ne.
Qed.

Lemma restorable_cleanup (w0 : World.t) (sys : System.t) :
  restorable w0 (frame sys) →
  restorable w0 (frame (System.step System.Cleanup sys).1)
  ∧ entryPoints (System.world (System.step System.Cleanup sys).1) = entryPoints w0
  ∧ ∀ store f,
      World.subscribe w0 !! store = Some f →
      World.subscribe (System.world (System.step System.Cleanup sys).1) !! store
      = Some f.
Proof.
  intros Hinv. pose proof (cleanup_frame sys) as Hfr.
  assert (Heps : entryPoints (System.world (System.step System.Cleanup sys).1)
                 = (frame (System.step System.Cleanup sys).1).1.2) by done.
  assert (Hsub : World.subscribe (System.world (System.step System.Cleanup sys).1)
                 = (frame (System.step System.Cleanup sys).1).2) by done.
  rewrite Heps, Hsub. clear Heps Hsub.
  assert (Hlen : ∃ a b c d e f, (frame sys).1.2 = [a; b; c; d; e; f]).
  { unfold frame, entryPoints. cbn. by repeat eexists. }
  destruct (frame sys) as [[[[ev ti] re] eps] sub]. rewrite Hfr. clear Hfr.
  destruct Hlen as (a & b & c & d & e & f & Heps). cbn in Heps. subst eps.
  destruct Hinv as (Hev & Hti & Hst). cbn [fst snd].
  assert (Hstore : ∀ store f0,
    World.subscribe w0 !! store = Some f0 →
    match re with
    | Some (Some store0, Some original) => <[store0:=original]> sub
    | _ => sub
    end !! store = Some f0).
  { intros store f0 Hw0. destruct (Hst store f0 Hw0) as [Ho Hs].
    destruct re as [[[sr|] [os|]]|].
    - destruct (decide (sr = store)) as [->|Hne].
      + rewrite lookup_insert_eq. by apply Ho.
      + rewrite lookup_insert_ne by done.
        destruct Hs as [Hs|[_ [o [= ? ?]]]]; [done|congruence].
    - destruct Hs as [Hs|[_ [o [= ? ?]]]]; [done|].
      subst. by specialize (Ho None eq_refl).
    - by destruct Hs as [Hs|[_ [o [= ? ?]]]].
    - by destruct Hs as [Hs|[_ [o [= ? ?]]]].
    - by destruct Hs as [Hs|[_ [o [=]]]]. }
  assert (Hent :
    match ev with Some (a0, r) => [a0; r] | None => take 2 [a; b; c; d; e; f] end
    ++ match ti with
       | Some (st, si, ct, ci) => [st; si; ct; ci]
       | None => drop 2 [a; b; c; d; e; f]
       end
    = entryPoints w0).
  { unfold entryPoints in *.
    destruct ev as [[a0 r0]|], ti as [[[[st si] ct] ci]|]; cbn in *.
    - destruct Hev as [-> ->], Hti as (-> & -> & -> & ->). done.
    - destruct Hev as [-> ->]. by simplify_eq.
    - destruct Hti as (-> & -> & -> & ->). by simplify_eq.
    - by simplify_eq. }
  split; [|split; [exact Hent|exact Hstore]].
  rewrite Hent. split; [|split].
  - destruct ev as [[a0 r0]|]; [exact Hev|done].
  - destruct ti as [[[[st si] ct] ci]|]; [exact Hti|done].
  - intros store f0 Hw0. destruct (Hst store f0 Hw0) as [Ho Hs].
    split; [exact Ho|]. left. by apply Hstore.
Qed.

Lemma restorable_step (w0 : World.t) (op : System.Op) (sys : System.t) :
  restorable w0 (frame sys) → restorable w0 (frame (System.step op sys).1).
Proof.
  intros Hinv. pose proof (step_frame op sys) as Hfr.
  destruct op; try (rewrite Hfr; exact Hinv).
  - (* HostDevToolsCreateStore *)
    destruct sys as [d w]. unfold System.step. cbn [System.detector System.world].
    destruct (World.window w ≫= Window.REDUX_DEVTOOLS_EXTENSION) as [[]|];
      try exact Hinv;
      destruct (reduxTracker d) as [tr|] eqn:Hre; try exact Hinv.
    unfold ReduxTracker.devToolsCreateStore.
    destruct (ReduxTracker.patchStore tr w store) as [tr1 w1] eqn:Hp.
    cbn [fst]. unfold frame in *. cbn [System.detector System.world] in *.
    cbn [eventTracker timerTracker reduxTracker with_reduxTracker
         System.with_reduxTracker System.detector System.world].
    rewrite Hre in Hinv. cbn [fmap option_fmap option_map] in *.
    pose proof (restorable_patchStore w0 _ _ _ tr w store Hinv) as [H1 H2].
    rewrite Hp in H1, H2. cbn [fst snd] in H1, H2. by rewrite H2.
  - (* PatchReduxStore *)
    destruct sys as [d w]. unfold System.step. cbn [System.detector System.world].
    unfold patchReduxStore. destruct (reduxTracker d) as [tr|] eqn:Hre;
      [|exact Hinv].
    destruct (ReduxTracker.patchStore tr w store) as [tr1 w1] eqn:Hp.
    cbn [fst]. unfold frame in *. cbn [System.detector System.world] in *.
    cbn [eventTracker timerTracker reduxTracker with_reduxTracker].
    rewrite Hre in Hinv. cbn [fmap option_fmap option_map] in *.
    pose proof (restorable_patchStore w0 _ _ _ tr w store Hinv) as [H1 H2].
    rewrite Hp in H1, H2. cbn [fst snd] in H1, H2. by rewrite H2.
  - (* Cleanup *)
    by apply restorable_cleanup.
Qed.

Lemma restorable_ReduxTracker_new (w0 : World.t) ev ti eps (w : World.t) :
  restorable w0 (ev, ti, Some (None, None), eps, World.subscribe w) →
  let tr := (ReduxTracker.new w).1 in
  let w1 := (ReduxTracker.new w).2 in
  restorable w0
    (ev, ti, Some (ReduxTracker.storeRef tr, ReduxTracker.originalStoreSubscribe tr),
     eps, World.subscribe w1)
  ∧ entryPoints w1 = entryPoints w.
Proof.
  intros Hinv. unfold ReduxTracker.new, ReduxTracker.patchReduxStore.
  destruct (World.window w) as [win|]; [|by split].
  unfold ReduxTracker.detectStoreFromWindow.
  set (tr0 := {| ReduxTracker.storeSubscriptions := [];
                 ReduxTracker.selectorCalls := [];
                 ReduxTracker.originalStoreSubscribe := None;
                 ReduxTracker.storeRef := None |}).
  destruct (ReduxTracker.firstStore w _) as [store|].
  - pose proof (restorable_patchStore w0 ev ti eps tr0 w store Hinv) as [H1 H2].
    destruct (ReduxTracker.patchStore tr0 w store) as [tr1 w1].
    cbn [fst snd] in H1, H2.
    destruct (Window.REDUX_DEVTOOLS_EXTENSION win); by split.
  - destruct (Window.REDUX_DEVTOOLS_EXTENSION win); by split.
Qed.

Lemma restorable_create (config : DetectorConfig.t) (w0 : World.t) :
  restorable w0 (frame (System.create config w0)).
Proof.
  unfold System.create, new, resolveConfig. cbv zeta.
  cbn [Config.enableEventListenerTracking Config.enableTimerTracking
       Config.enableDOMTracking Config.enableReduxTracking].
  destruct (default true (DetectorConfig.enableEventListenerTracking config)),
    (default true (DetectorConfig.enableTimerTracking config)),
    (default true (DetectorConfig.enableDOMTracking config)),
    (default true (DetectorConfig.enableReduxTracking config));
    cbn [EventListenerTracker.new TimerTracker.new];
    repeat match goal with
    | |- context [DOMTracker.new ?w] => destruct (DOMTracker.new w) as [? ?]
    end;
    try (match goal with
         | |- context [ReduxTracker.new ?w] =>
             let H := fresh in
             pose proof (λ ev ti eps, restorable_ReduxTracker_new w0 ev ti eps w) as H;
             destruct (ReduxTracker.new w) as [tr w'] eqn:Hnew;
             cbn [fst snd] in H;
             unfold frame; cbn [System.detector System.world eventTracker
               timerTracker reduxTracker fmap option_fmap option_map];
             match goal with
             | |- restorable _ (?ev, ?ti, _, _, _) =>
                 destruct (H ev ti (entryPoints w)) as [H1 H2];
                 [|rewrite H2; exact H1]
             end
         end);
    (split; [|split]); cbn; try done;
    intros store f Hw0; (split; [by intros o [=]|by left]).
Qed.

Lemma run_snoc_step (ops : list System.Op) (op : System.Op) (sys : System.t) :
  (System.run (ops ++ [op]) sys).1 = (System.step op (System.run ops sys).1).1.
Proof.
  unfold System.run. rewrite foldl_snoc.
  destruct (foldl _ _ ops) as [sys1 effects].
  cbn [fst]. by destruct (System.step op sys1).
Qed.

Lemma restorable_run (w0 : World.t) (ops : list System.Op) (sys : System.t) :
  restorable w0 (frame sys) → restorable w0 (frame (System.run ops sys).1).
Proof.
  intros Hinv. induction ops as [|op ops IH] using rev_ind; [done|].
  rewrite run_snoc_step. by apply restorable_step.
Qed.

Lemma cleanup_counts (self : t) (w : World.t) :
  let d1 := (cleanup self w).1.1 in
  default 0 (EventListenerTracker.getActiveListeners <$> eventTracker d1) = 0
  ∧ default 0 (TimerTracker.getActiveTimers <$> timerTracker d1) = 0
  ∧ default 0 (DOMTracker.getDetachedNodeCount <$> domTracker d1) = 0
  ∧ default 0 (ReduxTracker.getActiveSubscriptions <$> reduxTracker d1) = 0
  ∧ snapshots d1 = []
  ∧ isRunning d1 = false.
Proof.
  unfold cleanup. destruct (stop self w) as [self1 effects1] eqn:Hstop.
  pose proof (stop_not_running self w) as Hrun. rewrite Hstop in Hrun.
  cbn [fst] in Hrun.
  destruct (eventTracker self1), (timerTracker self1), (domTracker self1),
    (reduxTracker self1); cbn; by rewrite Hrun.
Qed.

(** C8: a second cleanup() after a first one changes neither the detector
    nor the host and has no effect at all (the model has no exception path
    because the source has no throwing operation there); after a cleanup,
    whatever operations came before it, the six intercepted entry points are
    the functions that were there before the detector was created and every
    store of the original host has its own subscribe function again; every
    tracker's active count is zero and the snapshot history is empty. *)
Theorem C8_cleanup_idempotent (config : DetectorConfig.t) (w0 : World.t)
    (ops : list System.Op) :
  let sys := (System.run ops (System.create config w0)).1 in
  let sys1 := (System.step System.Cleanup sys).1 in
  let d1 := System.detector sys1 in
  System.step System.Cleanup sys1 = (sys1, [])
  ∧ entryPoints (System.world sys1) = entryPoints w0
  ∧ (∀ store f,
       World.subscribe w0 !! store = Some f →
       World.subscribe (System.world sys1) !! store = Some f)
  ∧ default 0 (EventListenerTracker.getActiveListeners <$> eventTracker d1) = 0
  ∧ default 0 (TimerTracker.getActiveTimers <$> timerTracker d1) = 0
  ∧ default 0 (DOMTracker.getDetachedNodeCount <$> domTracker d1) = 0
  ∧ default 0 (ReduxTracker.getActiveSubscriptions <$> reduxTracker d1) = 0
  ∧ snapshots d1 = [].
Proof.
  intros sys sys1 d1.
  pose proof (restorable_run w0 ops _ (restorable_create config w0)) as Hinv.
  fold sys in Hinv.
  destruct (restorable_cleanup w0 sys Hinv) as (_ & Hent & Hsub).
  fold sys1 in Hent, Hsub.
  assert (Hsys1 : sys1 = {| System.detector := (cleanup (System.detector sys)
                                                  (System.world sys)).1.1;
                            System.world := (cleanup (System.detector sys)
                                               (System.world sys)).1.2 |}).
  { subst sys1. unfold System.step.
    by destruct (cleanup (System.detector sys) (System.world sys)) as [[? ?] ?]. }
  split.
  - rewrite Hsys1. unfold System.step at 1. cbn [System.detector System.world].
    pose proof (cleanup_twice (System.detector sys) (System.world sys)) as Htw.
    cbv zeta in Htw. by rewrite Htw.
  - split; [exact Hent|]. split; [exact Hsub|].
    pose proof (cleanup_counts (System.detector sys) (System.world sys)) as Hc.
    cbv zeta in Hc. subst d1. rewrite Hsys1. cbn [System.detector].
    destruct Hc as (H1 & H2 & H3 & H4 & H5 & _). by repeat split.
Qed.

End cleanup_facts.

(** ** The store tracker *)

Section store_facts.

(** C9: the unsubscribe function of one subscription can remove the entry
    of another.  On the store that the constructor found, a second patchStore
    changes nothing, as the claim says.  But when two subscribe calls compute
    the same id [collidingId], the second call replaces the entry of the
    first: the registry holds one entry, with the second listener, although
    both listeners are subscribed to the store.  The unsubscribe function
    returned to the first caller then deletes that entry and ends the first
    store subscription only: the registry is empty and
    getActiveSubscriptions() is 0 while the second listener is still
    subscribed, and the second caller's unsubscribe finds nothing to
    remove. *)
Theorem C9_id_collision :
  let tr0 := (ReduxTracker.new hostWithStore).1 in
  let w0 := (ReduxTracker.new hostWithStore).2 in
  let first := {| Subscription.subscriber := 10;
                  Subscription.created := 1700000000000;
                  Subscription.stack := None |} in
  let second := {| Subscription.subscriber := 20;
                   Subscription.created := 1700000000000;
                   Subscription.stack := None |} in
  ReduxTracker.storeRef tr0 = Some 1%nat
  ∧ World.subscribe w0 !! 1%nat = Some SubscribeShim
  ∧ ReduxTracker.patchStore tr0 w0 1%nat = (tr0, w0)
  ∧ ∃ tr1 tr2,
      ReduxTracker.subscribe tr0 1%nat 10%nat 100%nat collidingId
        1700000000000 None
      = Some (tr1, WrappedUnsubscribe collidingId 100,
              [Call (HostFn 11) (SubscribeArgs 1%nat 10%nat)])
      ∧ ReduxTracker.storeSubscriptions tr1 = [(collidingId, first)]
      ∧ ReduxTracker.subscribe tr1 1%nat 20%nat 200%nat collidingId
          1700000000000 None
        = Some (tr2, WrappedUnsubscribe collidingId 200,
                [Call (HostFn 11) (SubscribeArgs 1%nat 20%nat)])
      ∧ ReduxTracker.storeSubscriptions tr2 = [(collidingId, second)]
      ∧ ReduxTracker.getActiveSubscriptions tr2 = 1
      ∧ let unsubscribed1 := ReduxTracker.call_unsubscribe tr2 collidingId 100 in
        unsubscribed1.2 = [CallUnsubscribe 100]
        ∧ ReduxTracker.storeSubscriptions unsubscribed1.1 = []
        ∧ ReduxTracker.getActiveSubscriptions unsubscribed1.1 = 0
        ∧ let unsubscribed2 :=
            ReduxTracker.call_unsubscribe unsubscribed1.1 collidingId 200 in
          unsubscribed2.2 = [CallUnsubscribe 200]
          ∧ ReduxTracker.storeSubscriptions unsubscribed2.1 = [].
Proof.
  cbv zeta.
  assert (ReduxTracker.new hostWithStore
          = ({| ReduxTracker.storeSubscriptions := [];
                ReduxTracker.selectorCalls := [];
                ReduxTracker.originalStoreSubscribe := Some (HostFn 11);
                ReduxTracker.storeRef := Some 1%nat |},
             World.set_subscribe 1%nat SubscribeShim hostWithStore)) as ->.
  { unfold ReduxTracker.new, ReduxTracker.patchReduxStore,
      ReduxTracker.detectStoreFromWindow. cbn [World.window hostWithStore].
    cbn [Window.REDUX_STORE Window.store Window.STORE
         Window.REDUX_DEVTOOLS_EXTENSION ReduxTracker.firstStore].
    destruct (decide (is_Some (World.subscribe hostWithStore !! 1%nat)))
      as [_|Hno]; [reflexivity|].
    exfalso. apply Hno. by eexists. }
  cbn [fst snd]. split; [reflexivity|].
  split; [apply lookup_insert_eq|]. split; [reflexivity|].
  eexists _, _. split; [reflexivity|]. split; [reflexivity|].
  split; [reflexivity|]. split; [reflexivity|]. split; [reflexivity|].
  split; [reflexivity|]. split; [reflexivity|]. split; [reflexivity|].
  split; reflexivity.
Qed.

Lemma patchStore_frame (tr : ReduxTracker.t) (w : World.t) (store : ObjRef) :
  let tr1 := (ReduxTracker.patchStore tr w store).1 in
  let w1 := (ReduxTracker.patchStore tr w store).2 in
  match ReduxTracker.storeRef tr with
  | Some _ => tr1 = tr ∧ w1 = w
  | None =>
      ReduxTracker.storeRef tr1 = Some store
      ∧ ReduxTracker.originalStoreSubscribe tr1 = World.subscribe w !! store
      ∧ World.subscribe w1 = <[store := SubscribeShim]> (World.subscribe w)
  end.
Proof.
  unfold ReduxTracker.patchStore. by destruct (ReduxTracker.storeRef tr).
Qed.

Lemma wrappedIsRef_patchStore ev ti eps eps' (tr : ReduxTracker.t) (w : World.t)
    (store : ObjRef) :
  wrappedIsRef
    (ev, ti, Some (ReduxTracker.storeRef tr, ReduxTracker.originalStoreSubscribe tr),
     eps, World.subscribe w) →
  let tr1 := (ReduxTracker.patchStore tr w store).1 in
  let w1 := (ReduxTracker.patchStore tr w store).2 in
  wrappedIsRef
    (ev, ti, Some (ReduxTracker.storeRef tr1, ReduxTracker.originalStoreSubscribe tr1),
     eps', World.subscribe w1).
Proof.
  intros Hinv. pose proof (patchStore_frame tr w store) as Hp. cbv zeta in *.
  destruct (ReduxTracker.storeRef tr) as [sr|] eqn:Href.
  - destruct Hp as [-> ->]. by rewrite Href.
  - destruct Hp as (Hr & Ho & Hs). rewrite Hr, Ho, Hs.
    intros store' Hshim. cbn [fst snd] in *.
    destruct (decide (store' = store)) as [->|Hne]; [eauto|].
    rewrite lookup_insert_ne in Hshim by done.
    by destruct (Hinv store' Hshim) as [o [=]].
Qed.

Lemma wrappedIsRef_step (op : System.Op) (sys : System.t) :
  wrappedIsRef (frame sys) → wrappedIsRef (frame (System.step op sys).1).
Proof.
  intros Hinv. pose proof (step_frame op sys) as Hfr.
  destruct op; try (rewrite Hfr; exact Hinv).
  - destruct sys as [d w]. unfold System.step. cbn [System.detector System.world].
    destruct (World.window w ≫= Window.REDUX_DEVTOOLS_EXTENSION) as [[]|];
      try exact Hinv;
      destruct (MemoryLeakDetector.reduxTracker d) as [tr|] eqn:Hre;
      try exact Hinv.
    unfold ReduxTracker.devToolsCreateStore.
    pose proof (λ ev ti eps eps', wrappedIsRef_patchStore ev ti eps eps' tr w store)
      as Hp.
    destruct (ReduxTracker.patchStore tr w store) as [tr1 w1].
    cbn [fst snd] in *. unfold frame in *.
    cbn [System.detector System.world] in *. rewrite Hre in Hinv.
    by eapply Hp.
  - destruct sys as [d w]. unfold System.step. cbn [System.detector System.world].
    unfold MemoryLeakDetector.patchReduxStore.
    destruct (MemoryLeakDetector.reduxTracker d) as [tr|] eqn:Hre; [|exact Hinv].
    pose proof (λ ev ti eps eps', wrappedIsRef_patchStore ev ti eps eps' tr w store)
      as Hp.
    destruct (ReduxTracker.patchStore tr w store) as [tr1 w1].
    cbn [fst snd] in *. unfold frame in *.
    cbn [System.detector System.world] in *. rewrite Hre in Hinv.
    by eapply Hp.
  - pose proof (cleanup_frame sys) as Hcf.
    destruct (frame sys) as [[[[ev ti] re] eps] sub]. rewrite Hcf.
    intros store Hshim. cbn [fst snd] in *.
    destruct re as [[[sr|] [os|]]|]; try (by apply Hinv).
    destruct (decide (sr = store)) as [->|Hne]; [eauto|].
    rewrite lookup_insert_ne in Hshim by done. by apply Hinv.
Qed.

Lemma wrappedIsRef_create (config : DetectorConfig.t) (w0 : World.t) :
  pristine w0 → wrappedIsRef (frame (System.create config w0)).
Proof.
  intros Hpr.
  assert (Hnew : ∀ ev ti eps w,
    World.subscribe w = World.subscribe w0 →
    wrappedIsRef
      (ev, ti,
       Some (ReduxTracker.storeRef (ReduxTracker.new w).1,
             ReduxTracker.originalStoreSubscribe (ReduxTracker.new w).1),
       eps, World.subscribe (ReduxTracker.new w).2)).
  { intros ev ti eps w Hw.
    assert (H0 : wrappedIsRef (ev, ti, Some (None, None), eps, World.subscribe w)).
    { intros store Hs. cbn in Hs. rewrite Hw in Hs. by apply Hpr in Hs. }
    unfold ReduxTracker.new, ReduxTracker.patchReduxStore.
    destruct (World.window w) as [win|]; [|exact H0].
    unfold ReduxTracker.detectStoreFromWindow.
    set (tr0 := {| ReduxTracker.storeSubscriptions := [];
                   ReduxTracker.selectorCalls := [];
                   ReduxTracker.originalStoreSubscribe := None;
                   ReduxTracker.storeRef := None |}).
    destruct (ReduxTracker.firstStore w _) as [store|].
    - pose proof (wrappedIsRef_patchStore ev ti eps eps tr0 w store H0) as Hp.
      destruct (ReduxTracker.patchStore tr0 w store) as [tr1 w1].
      by destruct (Window.REDUX_DEVTOOLS_EXTENSION win).
    - by destruct (Window.REDUX_DEVTOOLS_EXTENSION win). }
  unfold System.create, MemoryLeakDetector.new, MemoryLeakDetector.resolveConfig.
  cbv zeta.
  cbn [Config.enableEventListenerTracking Config.enableTimerTracking
       Config.enableDOMTracking Config.enableReduxTracking].
  destruct (default true (DetectorConfig.enableEventListenerTracking config)),
    (default true (DetectorConfig.enableTimerTracking config)),
    (default true (DetectorConfig.enableDOMTracking config)),
    (default true (DetectorConfig.enableReduxTracking config));
    cbn [EventListenerTracker.new TimerTracker.new];
    repeat match goal with
    | |- context [DOMTracker.new ?w] => destruct (DOMTracker.new w) as [? ?]
    end;
    try (match goal with
         | |- context [ReduxTracker.new ?w] =>
             let H := fresh in
             pose proof (λ ev ti eps, Hnew ev ti eps w eq_refl) as H;
             destruct (ReduxTracker.new w) as [tr w'];
             cbn [fst snd] in H; unfold frame;
             cbn [System.detector System.world MemoryLeakDetector.eventTracker
               MemoryLeakDetector.timerTracker MemoryLeakDetector.reduxTracker
               fmap option_fmap option_map];
             apply H
         end);
    intros store Hs; cbn in Hs; by apply Hpr in Hs.
Qed.

Lemma wrappedIsRef_run (ops : list System.Op) (sys : System.t) :
  wrappedIsRef (frame sys) → wrappedIsRef (frame (System.run ops sys).1).
Proof.
  intros Hinv. induction ops as [|op ops IH] using rev_ind; [done|].
  rewrite run_snoc_step. by apply wrappedIsRef_step.
Qed.

(** The tracker's [storeRef], once set, stays. *)
Lemma storeRef_step (op : System.Op) (sys : System.t) (store0 : ObjRef) :
  ReduxTracker.storeRef
    <$> MemoryLeakDetector.reduxTracker (System.detector sys) = Some (Some store0) →
  ReduxTracker.storeRef
    <$> MemoryLeakDetector.reduxTracker (System.detector (System.step op sys).1)
  = Some (Some store0).
Proof.
  intros Href.
  assert (Hfr : ∀ sys', (frame sys').1.1.2 = (frame sys).1.1.2 →
    ReduxTracker.storeRef
      <$> MemoryLeakDetector.reduxTracker (System.detector sys')
    = Some (Some store0)).
  { intros sys' Heq. unfold frame in Heq. cbn in Heq.
    destruct (MemoryLeakDetector.reduxTracker (System.detector sys')) as [tr'|],
      (MemoryLeakDetector.reduxTracker (System.detector sys)) as [tr|];
      cbn in *; congruence. }
  pose proof (step_frame op sys) as Hsf.
  destruct op; try (apply Hfr; by rewrite Hsf).
  - destruct sys as [[cfg et tt dt [tr|] snaps ri running] w]; [|discriminate].
    cbn in Href. injection Href as Href. unfold System.step.
    cbn [System.detector System.world MemoryLeakDetector.reduxTracker].
    destruct (World.window w ≫= Window.REDUX_DEVTOOLS_EXTENSION) as [[]|];
      cbn; try (by rewrite Href).
    unfold ReduxTracker.patchStore. rewrite Href. cbn. by rewrite Href.
  - destruct sys as [[cfg et tt dt [tr|] snaps ri running] w]; [|discriminate].
    cbn in Href. injection Href as Href. unfold System.step.
    cbn [System.detector System.world MemoryLeakDetector.reduxTracker].
    unfold MemoryLeakDetector.patchReduxStore, ReduxTracker.patchStore.
    cbn [MemoryLeakDetector.reduxTracker]. rewrite Href. cbn. by rewrite Href.
  - apply Hfr. pose proof (cleanup_frame sys) as Hcf.
    destruct (frame sys) as [[[[ev ti] re] eps] sub]. by rewrite Hcf.
Qed.

Lemma storeRef_run (ops : list System.Op) (sys : System.t) (store0 : ObjRef) :
  ReduxTracker.storeRef
    <$> MemoryLeakDetector.reduxTracker (System.detector sys) = Some (Some store0) →
  ReduxTracker.storeRef
    <$> MemoryLeakDetector.reduxTracker (System.detector (System.run ops sys).1)
  = Some (Some store0).
Proof.
  intros Href. induction ops as [|op ops IH] using rev_ind; [done|].
  rewrite run_snoc_step. by apply storeRef_step.
Qed.

(** C10: once the store tracker holds a store, patchStore is a no-op for
    every store object; in a host where no store carried the tracker's
    function beforehand, after any sequence of operations every store whose
    subscribe is the tracker's function is the one store the tracker holds,
    that store never changes afterwards, and a subscription on any other
    store leaves the tracker's entries untouched. *)
Theorem C10_single_store :
  (∀ self w store0 store,
     ReduxTracker.storeRef self = Some store0 →
     ReduxTracker.patchStore self w store = (self, w))
  ∧ (∀ config w0 ops,
       pristine w0 →
       let sys := (System.run ops (System.create config w0)).1 in
       let held (sys : System.t) :=
         ReduxTracker.storeRef
           <$> MemoryLeakDetector.reduxTracker (System.detector sys) in
       (∀ store,
          World.subscribe (System.world sys) !! store = Some SubscribeShim →
          held sys = Some (Some store))
       ∧ (∀ store store',
            World.subscribe (System.world sys) !! store = Some SubscribeShim →
            World.subscribe (System.world sys) !! store' = Some SubscribeShim →
            store = store')
       ∧ (∀ store0 ops',
            held sys = Some (Some store0) →
            held (System.run ops' sys).1 = Some (Some store0))
       ∧ (∀ store listener unsubscribe subscriptionId now stack,
            held sys ≠ Some (Some store) →
            trackedSubscriptions
              (System.step
                 (System.HostSubscribe store listener unsubscribe subscriptionId
                    now stack) sys).1
            = trackedSubscriptions sys)).
Proof.
  split.
  { intros self w store0 store Href. unfold ReduxTracker.patchStore.
    by rewrite Href. }
  intros config w0 ops Hpr sys held.
  pose proof (wrappedIsRef_run ops _ (wrappedIsRef_create config w0 Hpr)) as Hinv.
  fold sys in Hinv.
  assert (Hheld : ∀ store,
    World.subscribe (System.world sys) !! store = Some SubscribeShim →
    held sys = Some (Some store)).
  { intros store Hs. destruct (Hinv store Hs) as [o Ho]. subst held.
    unfold frame in Ho. cbn in Ho. cbv beta.
    destruct (MemoryLeakDetector.reduxTracker (System.detector sys)) as [tr|]
      eqn:Hre; rewrite ?Hre; cbn in *; congruence. }
  split; [exact Hheld|]. split.
  { intros store store' Hs Hs'. apply Hheld in Hs, Hs'. congruence. }
  split.
  { intros store0 ops' Hh. by apply storeRef_run. }
  intros store listener unsubscribe subscriptionId now stack Hne.
  unfold System.step.
  destruct (World.subscribe (System.world sys) !! store) as [f|] eqn:Hs;
    [|by destruct (MemoryLeakDetector.reduxTracker (System.detector sys))].
  destruct (decide (f = SubscribeShim)) as [->|Hf].
  - by apply Hheld in Hs.
  - by destruct f, (MemoryLeakDetector.reduxTracker (System.detector sys)).
Qed.

(** C10 holds at a concrete input: in [host0], a detector with the default
    configuration patches store 1, is then asked to patch store 2, and a
    listener subscribes on store 2: nothing is tracked. *)
Lemma C10_witness :
  let sys :=
    (System.run [System.PatchReduxStore 1%nat; System.PatchReduxStore 2%nat]
       (System.create defaultConfig host0)).1 in
  World.subscribe (System.world sys) !! 1%nat = Some SubscribeShim
  ∧ World.subscribe (System.world sys) !! 2%nat = Some (HostFn 12)
  ∧ trackedSubscriptions
      (System.step (System.HostSubscribe 2%nat 7%nat 8%nat 1700000000000 1700000000000 None)
         sys).1
    = trackedSubscriptions sys.
Proof.
  split; [reflexivity|]. split; [reflexivity|].
  apply (proj2 C10_single_store defaultConfig host0
           [System.PatchReduxStore 1%nat; System.PatchReduxStore 2%nat]).
  - intros store Hs. unfold host0 in Hs. cbn [World.subscribe] in Hs.
    rewrite lookup_insert in Hs. case_decide; [discriminate|].
    rewrite lookup_singleton in Hs. case_decide; discriminate.
  - vm_compute. intros [=].
Defined.

End store_facts.

(** ** Further properties of the listener tracker *)

Section listener_registry_shape.
Import ListenerCalls.

Lemma perform_noEmptyTarget (self : EventListenerTracker.t) (c : Call) :
  noEmptyTarget self → noEmptyTarget (perform self c).
Proof.
  intros Hne this' tl'. destruct c as [[[this type] listener] o|[[this type] listener] o].
  - rewrite acquire_listeners. cbv zeta. rewrite jsmap_get_set.
    case_decide; [|by apply Hne]. intros [= <-]. apply jsmap_set_not_nil.
  - rewrite release_listeners.
    destruct (JsMap.get this _) as [tl|] eqn:Hthis; [|by apply Hne].
    destruct (JsMap.get type tl) as [ls|] eqn:Htype; [|by apply Hne].
    cbv zeta. rewrite (jsmap_get_set_prune this this').
    destruct (decide (this' = this)) as [->|Hthis']; [|by apply Hne].
    set (tl2 := if decide (JsSet.size (JsSet.delete listener ls) = 0%nat)
                then _ else _).
    destruct (decide (JsMap.size tl2 = 0%nat)) as [?|Hsz]; [done|].
    intros [= <-] Hnil. apply Hsz. by rewrite Hnil.
Qed.

Lemma run_noEmptyTarget (w : World.t) (calls : list Call) :
  noEmptyTarget (run calls (EventListenerTracker.new w).1).
Proof.
  induction calls as [|c calls IH] using rev_ind; [done|].
  rewrite run_snoc. by apply perform_noEmptyTarget.
Qed.

Lemma run_wf (w : World.t) (calls : list Call) :
  wf (run calls (EventListenerTracker.new w).1).
Proof.
  induction calls as [|c calls IH] using rev_ind; [apply new_wf|].
  rewrite run_snoc. by apply perform_wf.
Qed.

(** X1: after any sequence of addEventListener/removeEventListener calls on
    a fresh tracker the registry is compact: targets and event kinds are
    unique keys, no target is left with an empty map, no event kind with an
    empty set, no set has a duplicate; hence when getActiveListeners() is 0
    the registry is empty. *)
Theorem X1_registry_compact (w : World.t) (calls : list Call) :
  let self := run calls (EventListenerTracker.new w).1 in
  NoDup (EventListenerTracker.listeners self).*1
  ∧ (∀ this targetListeners,
       JsMap.get this (EventListenerTracker.listeners self) = Some targetListeners →
       targetListeners ≠ [] ∧ NoDup targetListeners.*1
       ∧ ∀ type listenerSet,
           JsMap.get type targetListeners = Some listenerSet →
           listenerSet ≠ [] ∧ NoDup listenerSet)
  ∧ (EventListenerTracker.getActiveListeners self = 0 →
     EventListenerTracker.listeners self = []).
Proof.
  intros self. destruct (run_wf w calls) as [Hnd Hin].
  pose proof (run_noEmptyTarget w calls) as Hne. fold self in Hnd, Hin, Hne.
  split; [exact Hnd|]. split.
  - intros this tl Hthis. destruct (Hin this tl Hthis) as [Hk Hsets].
    split; [by apply (Hne this)|]. split; [exact Hk|].
    intros type ls Htype. destruct (Hsets type ls Htype). by split.
  - rewrite getActiveListeners_registered. unfold registered. intros Hz.
    destruct (EventListenerTracker.listeners self) as [|[this tl] L] eqn:HL;
      [done|]. exfalso.
    assert (Hthis : JsMap.get this ((this, tl) :: L) = Some tl).
    { simpl. by rewrite decide_True. }
    destruct (Hin this tl Hthis) as [_ Hsets].
    unfold noEmptyTarget in Hne. rewrite HL in Hne.
    specialize (Hne this tl Hthis).
    destruct tl as [|[type ls] tl]; [done|].
    assert (Htype : JsMap.get type ((type, ls) :: tl) = Some ls).
    { simpl. by rewrite decide_True. }
    destruct (Hsets type ls Htype) as [_ Hls].
    rewrite !jsmap_total_cons in Hz. unfold JsSet.size in Hz at 1.
    destruct ls; [done|]. simpl in Hz. lia.
Qed.

End listener_registry_shape.

(** ** The detector in its host: what the instrumentation does not disturb *)

Section host_facts.
Import MemoryLeakDetector.

(** The functions saved by the listener and timer trackers never change. *)
Lemma frame_static (op : System.Op) (sys : System.t) :
  (frame (System.step op sys).1).1.1.1 = (frame sys).1.1.1.
Proof.
  pose proof (step_frame op sys) as Hsf.
  destruct op; try (by rewrite Hsf).
  - destruct sys as [[cfg et tt dt rt snaps ri running] w]. unfold System.step.
    cbn [System.detector System.world reduxTracker].
    destruct (World.window w ≫= Window.REDUX_DEVTOOLS_EXTENSION) as [[]|];
      try reflexivity; destruct rt as [tr|]; try reflexivity.
    unfold ReduxTracker.devToolsCreateStore.
    by destruct (ReduxTracker.patchStore tr w store).
  - destruct sys as [[cfg et tt dt rt snaps ri running] w]. unfold System.step.
    cbn [System.detector System.world]. unfold patchReduxStore.
    cbn [reduxTracker]. destruct rt as [tr|]; [|reflexivity].
    by destruct (ReduxTracker.patchStore tr w store).
  - pose proof (cleanup_frame sys) as Hcf.
    destruct (frame sys) as [[[[ev ti] re] eps] sub]. by rewrite Hcf.
Qed.

Lemma patch_entryPoints (tr : ReduxTracker.t) (w : World.t) (store : ObjRef) :
  entryPoints (ReduxTracker.patchStore tr w store).2 = entryPoints w.
Proof. unfold ReduxTracker.patchStore. by destruct (ReduxTracker.storeRef tr). Qed.

Lemma slotsOk_step (w0 : World.t) (op : System.Op) (sys : System.t) :
  restorable w0 (frame sys) → slotsOk w0 (frame sys) →
  slotsOk w0 (frame (System.step op sys).1).
Proof.
  intros Hres Hok. pose proof (step_frame op sys) as Hsf.
  destruct op; try (by rewrite Hsf).
  - destruct sys as [[cfg et tt dt rt snaps ri running] w]. unfold System.step.
    cbn [System.detector System.world reduxTracker].
    destruct (World.window w ≫= Window.REDUX_DEVTOOLS_EXTENSION) as [[]|];
      try exact Hok; destruct rt as [tr|]; try exact Hok.
    unfold ReduxTracker.devToolsCreateStore.
    pose proof (patch_entryPoints tr w store) as Hep.
    destruct (ReduxTracker.patchStore tr w store) as [tr1 w1].
    cbn [snd] in Hep. unfold frame in *.
    cbn [System.detector System.world eventTracker timerTracker reduxTracker
         with_reduxTracker System.with_reduxTracker fst] in *.
    rewrite Hep. exact Hok.
  - destruct sys as [[cfg et tt dt rt snaps ri running] w]. unfold System.step.
    cbn [System.detector System.world]. unfold patchReduxStore.
    cbn [reduxTracker]. destruct rt as [tr|]; [|exact Hok].
    pose proof (patch_entryPoints tr w store) as Hep.
    destruct (ReduxTracker.patchStore tr w store) as [tr1 w1].
    cbn [snd] in Hep. unfold frame in *.
    cbn [System.detector System.world eventTracker timerTracker reduxTracker
         with_reduxTracker System.with_reduxTracker fst] in *.
    rewrite Hep. exact Hok.
  - destruct (restorable_cleanup w0 sys Hres) as (_ & Hent & _).
    pose proof (frame_static System.Cleanup sys) as Hst.
    assert (Heps : (frame (System.step System.Cleanup sys).1).1.2 = entryPoints w0)
      by exact Hent.
    destruct (frame (System.step System.Cleanup sys).1) as [[[[ev ti] re] eps] sub].
    cbn in Heps. subst eps. by split; left.
Qed.

Lemma slotsOk_create (config : DetectorConfig.t) (w0 : World.t) :
  slotsOk w0 (frame (System.create config w0)).
Proof.
  assert (Hnew : ∀ w, entryPoints (ReduxTracker.new w).2 = entryPoints w).
  { intros w. unfold ReduxTracker.new, ReduxTracker.patchReduxStore.
    destruct (World.window w) as [win|]; [|done].
    unfold ReduxTracker.detectStoreFromWindow.
    destruct (ReduxTracker.firstStore w _) as [store|].
    - pose proof (patch_entryPoints
        {| ReduxTracker.storeSubscriptions := [];
           ReduxTracker.selectorCalls := [];
           ReduxTracker.originalStoreSubscribe := None;
           ReduxTracker.storeRef := None |} w store) as Hep.
      destruct (ReduxTracker.patchStore _ w store) as [tr1 w1].
      by destruct (Window.REDUX_DEVTOOLS_EXTENSION win).
    - by destruct (Window.REDUX_DEVTOOLS_EXTENSION win). }
  unfold System.create, new, resolveConfig. cbv zeta.
  cbn [Config.enableEventListenerTracking Config.enableTimerTracking
       Config.enableDOMTracking Config.enableReduxTracking].
  destruct (default true (DetectorConfig.enableEventListenerTracking config)),
    (default true (DetectorConfig.enableTimerTracking config)),
    (default true (DetectorConfig.enableDOMTracking config)),
    (default true (DetectorConfig.enableReduxTracking config));
    cbn [EventListenerTracker.new TimerTracker.new];
    repeat match goal with
    | |- context [DOMTracker.new ?w] => destruct (DOMTracker.new w) as [? ?]
    end;
    try (match goal with
         | |- context [ReduxTracker.new ?w] =>
             let H := fresh in
             pose proof (Hnew w) as H;
             destruct (ReduxTracker.new w) as [tr w'];
             cbn [fst snd] in H; unfold frame;
             cbn [System.detector System.world eventTracker timerTracker
                  reduxTracker fmap option_fmap option_map];
             rewrite H
         end);
    cbn; (split; [(by left) || (right; split; [by eexists|done])
                 |(by left) || (right; split; [by eexists|done])]).
Qed.

Lemma host_invariants (w0 : World.t) (config : DetectorConfig.t)
    (ops : list System.Op) :
  let sys := (System.run ops (System.create config w0)).1 in
  restorable w0 (frame sys) ∧ slotsOk w0 (frame sys)
  ∧ (frame sys).1.1.1 = (frame (System.create config w0)).1.1.1.
Proof.
  induction ops as [|op ops IH] using rev_ind.
  - split; [apply restorable_create|]. split; [apply slotsOk_create|done].
  - cbv zeta in *. rewrite run_snoc_step. destruct IH as (H1 & H2 & H3).
    split; [by apply restorable_step|]. split; [by apply slotsOk_step|].
    by rewrite frame_static.
Qed.

Lemma listener_slots (w0 : World.t) (config : DetectorConfig.t)
    (ops : list System.Op) :
  let sys := (System.run ops (System.create config w0)).1 in
  let w := System.world sys in
  (World.addEventListener w = World.addEventListener w0
   ∧ World.removeEventListener w = World.removeEventListener w0)
  ∨ (∃ tr, eventTracker (System.detector sys) = Some tr
           ∧ World.addEventListener w = AddEventListenerShim
           ∧ World.removeEventListener w = RemoveEventListenerShim
           ∧ EventListenerTracker.originalAddEventListener tr
             = World.addEventListener w0
           ∧ EventListenerTracker.originalRemoveEventListener tr
             = World.removeEventListener w0).
Proof.
  intros sys w. destruct (host_invariants w0 config ops) as (Hres & Hok & _).
  fold sys in Hres, Hok. unfold frame in Hres, Hok. fold w in Hres, Hok.
  destruct Hres as (Hev & _). destruct Hok as (Hl & _).
  unfold entryPoints in Hl. cbn [take] in Hl.
  destruct Hl as [Hl|[[x Hx] Hl]]; [left; by simplify_eq|]. right.
  destruct (eventTracker (System.detector sys)) as [tr|]; [|discriminate].
  exists tr. cbn in Hev. destruct Hev as [-> ->]. by simplify_eq.
Qed.

Lemma timer_slots (w0 : World.t) (config : DetectorConfig.t)
    (ops : list System.Op) :
  let sys := (System.run ops (System.create config w0)).1 in
  let w := System.world sys in
  (World.setTimeout w = World.setTimeout w0
   ∧ World.setInterval w = World.setInterval w0
   ∧ World.clearTimeout w = World.clearTimeout w0
   ∧ World.clearInterval w = World.clearInterval w0)
  ∨ (∃ tr, timerTracker (System.detector sys) = Some tr
           ∧ World.setTimeout w = SetTimeoutShim
           ∧ World.setInterval w = SetIntervalShim
           ∧ World.clearTimeout w = ClearTimeoutShim
           ∧ World.clearInterval w = ClearIntervalShim
           ∧ TimerTracker.originalSetTimeout tr = World.setTimeout w0
           ∧ TimerTracker.originalSetInterval tr = World.setInterval w0
           ∧ TimerTracker.originalClearTimeout tr = World.clearTimeout w0
           ∧ TimerTracker.originalClearInterval tr = World.clearInterval w0).
Proof.
  intros sys w. destruct (host_invariants w0 config ops) as (Hres & Hok & _).
  fold sys in Hres, Hok. unfold frame in Hres, Hok. fold w in Hres, Hok.
  destruct Hres as (_ & Hti & _). destruct Hok as (_ & Ht).
  unfold entryPoints in Ht. cbn [drop] in Ht.
  destruct Ht as [Ht|[[x Hx] Ht]]; [left; by simplify_eq|]. right.
  destruct (timerTracker (System.detector sys)) as [tr|]; [|discriminate].
  exists tr. cbn in Hti. destruct Hti as (-> & -> & -> & ->). by simplify_eq.
Qed.

(** X2: in a host whose entry points are its own functions, after any
    sequence of operations (detector calls, cleanup included, and
    application activity) every call of addEventListener,
    removeEventListener, setTimeout, setInterval, clearTimeout or
    clearInterval by the application results in exactly one call of the
    host's original function, with the arguments of the application. *)
Theorem X2_original_always_called (config : DetectorConfig.t) (w0 : World.t)
    (ops : list System.Op) :
  native w0 →
  let sys := (System.run ops (System.create config w0)).1 in
  (∀ this type listener options,
     (System.step (System.HostAddEventListener this type listener options) sys).2
     = [Call (World.addEventListener w0) (ListenerArgs this type listener options)])
  ∧ (∀ this type listener options,
       (System.step (System.HostRemoveEventListener this type listener options) sys).2
       = [Call (World.removeEventListener w0)
            (ListenerArgs this type listener options)])
  ∧ (∀ handler timeout args id now stack,
       (System.step (System.HostSetTimeout handler timeout args id now stack) sys).2
       = [Call (World.setTimeout w0) (SetTimerArgs handler timeout args)])
  ∧ (∀ handler timeout args id now stack,
       (System.step (System.HostSetInterval handler timeout args id now stack) sys).2
       = [Call (World.setInterval w0) (SetTimerArgs handler timeout args)])
  ∧ (∀ id,
       (System.step (System.HostClearTimeout id) sys).2
       = [Call (World.clearTimeout w0) (ClearTimerArgs id)])
  ∧ (∀ id,
       (System.step (System.HostClearInterval id) sys).2
       = [Call (World.clearInterval w0) (ClearTimerArgs id)]).
Proof.
  intros Hnat sys.
  pose proof (listener_slots w0 config ops) as Hl.
  pose proof (timer_slots w0 config ops) as Ht. fold sys in Hl, Ht.
  cbv zeta in Hl, Ht.
  unfold native, entryPoints in Hnat.
  repeat (apply Forall_cons in Hnat as [[? ?] Hnat]).
  split_and!.
  - intros this type listener options. unfold System.step.
    destruct Hl as [[-> _]|(tr & -> & -> & _ & <- & _)]; [|done].
    by rewrite H.
  - intros this type listener options. unfold System.step.
    destruct Hl as [[_ ->]|(tr & -> & _ & -> & _ & <-)]; [|done].
    by rewrite H0.
  - intros handler timeout args id now stack. unfold System.step.
    destruct Ht as [(-> & _)|(tr & -> & -> & _ & _ & _ & <- & _)]; [|done].
    by rewrite H1.
  - intros handler timeout args id now stack. unfold System.step.
    destruct Ht as [(_ & -> & _)|(tr & -> & _ & -> & _ & _ & _ & <- & _)]; [|done].
    by rewrite H2.
  - intros id. unfold System.step.
    destruct Ht as [(_ & _ & -> & _)|(tr & -> & _ & _ & -> & _ & _ & _ & <- & _)];
      [|done].
    by rewrite H3.
  - intros id. unfold System.step.
    destruct Ht as [(_ & _ & _ & ->)|(tr & -> & _ & _ & _ & -> & _ & _ & _ & <-)];
      [|done].
    by rewrite H4.
Qed.

(** X2 holds at a concrete input: [host0], default configuration, a
    listener added after start and cleanup. *)
Lemma X2_witness :
  (System.step (System.HostAddEventListener button "click" 7%nat None)
     (System.run [System.Cleanup] (System.create defaultConfig host0)).1).2
  = [Call (HostFn 1) (ListenerArgs button "click" 7%nat None)].
Proof.
  apply (X2_original_always_called defaultConfig host0 [System.Cleanup]).
  unfold native, host0, entryPoints. cbn. repeat constructor; by eexists.
Defined.

Lemma cleanup_state (self : t) (w : World.t) :
  let d1 := (cleanup self w).1.1 in
  (∀ tr, domTracker d1 = Some tr → DOMTracker.observer tr = false)
  ∧ (∀ tr, reduxTracker d1 = Some tr → ReduxTracker.storeSubscriptions tr = []).
Proof.
  unfold cleanup. destruct (stop self w) as [self1 effects1].
  destruct (eventTracker self1), (timerTracker self1), (domTracker self1),
    (reduxTracker self1); cbn; split; intros tr [=]; by subst.
Qed.

Lemma inert_step (w0 : World.t) (sys : System.t) (op : System.Op) :
  native w0 → pristine w0 →
  entryPoints (System.world sys) = entryPoints w0 →
  (∀ store f, World.subscribe w0 !! store = Some f →
              World.subscribe (System.world sys) !! store = Some f) →
  (∀ tr, domTracker (System.detector sys) = Some tr →
         DOMTracker.observer tr = false) →
  (∀ tr, reduxTracker (System.detector sys) = Some tr →
         ReduxTracker.storeSubscriptions tr = []) →
  hostActivity w0 op →
  (System.step op sys).1 = sys.
Proof.
  intros Hnat Hpr Hent Hsub Hobs Hsubs Hop.
  destruct sys as [d w]. cbn [System.world System.detector] in *.
  unfold native in Hnat. rewrite <- Hent in Hnat. unfold entryPoints in Hnat.
  repeat (apply Forall_cons in Hnat as [[? ?] Hnat]).
  destruct op; try (by destruct Hop); unfold System.step;
    cbn [System.detector System.world].
  - by rewrite H.
  - by rewrite H0.
  - by rewrite H1.
  - by rewrite H2.
  - by rewrite H3.
  - by rewrite H4.
  - destruct (domTracker d) as [tr|] eqn:Hd; [|done].
    by rewrite (Hobs tr eq_refl).
  - destruct Hop as [f Hf]. rewrite (Hsub store f Hf).
    destruct (decide (f = SubscribeShim)) as [->|Hne]; [by apply Hpr in Hf|].
    by destruct f, (reduxTracker d).
  - destruct u as [u|id u]; [done|].
    destruct (reduxTracker d) as [tr|] eqn:Hr; [|done].
    pose proof (Hsubs tr eq_refl) as Hnil.
    unfold ReduxTracker.call_unsubscribe. cbn [fst].
    destruct tr as [ss sc os sr]. cbn in Hnil. subst ss.
    destruct d as [cfg et tt dt rt snaps ri running]. cbn in Hr. subst rt.
    reflexivity.
Qed.

(** X3: in a host whose entry points are its own functions and whose stores
    carry their own subscribe, once cleanup() has run (after any operations)
    the application's further activity (adding and removing listeners,
    setting and clearing timers, DOM mutations, subscribing to and
    unsubscribing from the host's stores) leaves the detector and the host
    slots exactly as cleanup left them: nothing is recorded any more. *)
Theorem X3_inert_after_cleanup (config : DetectorConfig.t) (w0 : World.t)
    (ops acts : list System.Op) :
  native w0 → pristine w0 → Forall (hostActivity w0) acts →
  let sys1 :=
    (System.step System.Cleanup
       (System.run ops (System.create config w0)).1).1 in
  (System.run acts sys1).1 = sys1.
Proof.
  intros Hnat Hpr Hacts sys1.
  pose proof (host_invariants w0 config ops) as (Hres & _ & _).
  destruct (restorable_cleanup w0 _ Hres) as (_ & Hent & Hsub).
  fold sys1 in Hent, Hsub.
  assert (Hst : (∀ tr, domTracker (System.detector sys1) = Some tr →
                       DOMTracker.observer tr = false)
                ∧ (∀ tr, reduxTracker (System.detector sys1) = Some tr →
                         ReduxTracker.storeSubscriptions tr = [])).
  { subst sys1. unfold System.step.
    pose proof (cleanup_state
      (System.detector (System.run ops (System.create config w0)).1)
      (System.world (System.run ops (System.create config w0)).1)) as Hc.
    by destruct (cleanup _ _) as [[d1 w1] e1]. }
  destruct Hst as [Hobs Hsubs].
  induction acts as [|op acts IH] using rev_ind; [done|].
  apply Forall_app in Hacts as [Hacts Hop].
  apply Forall_cons in Hop as [Hop _].
  rewrite run_snoc_step, (IH Hacts).
  exact (inert_step w0 sys1 op Hnat Hpr Hent Hsub Hobs Hsubs Hop).
Qed.

(** X3 holds at a concrete input: [host0], default configuration; after
    start and cleanup, a listener and an interval are added. *)
Lemma X3_witness :
  let sys1 :=
    (System.step System.Cleanup
       (System.run [System.PatchReduxStore 1%nat]
          (System.create defaultConfig host0)).1).1 in
  (System.run [System.HostAddEventListener button "click" 7%nat None;
               System.HostSetInterval 1%nat (Some 1000) [] 5 1700000000000 None;
               System.HostSubscribe 1%nat 7%nat 8%nat 1700000000001
                 1700000000000 None]
     sys1).1 = sys1.
Proof.
  apply (X3_inert_after_cleanup defaultConfig host0
           [System.PatchReduxStore 1%nat]).
  - unfold native, host0, entryPoints. cbn. repeat constructor; by eexists.
  - intros store Hs. unfold host0 in Hs. cbn [World.subscribe] in Hs.
    rewrite lookup_insert in Hs. case_decide; [discriminate|].
    rewrite lookup_singleton in Hs. case_decide; discriminate.
  - repeat constructor. by eexists.
Defined.

Lemma create_trackers (config : DetectorConfig.t) (w0 : World.t) :
  let d := System.detector (System.create config w0) in
  (is_Some (eventTracker d)
   ↔ default true (DetectorConfig.enableEventListenerTracking config) = true)
  ∧ (is_Some (timerTracker d)
     ↔ default true (DetectorConfig.enableTimerTracking config) = true)
  ∧ (is_Some (domTracker d)
     ↔ default true (DetectorConfig.enableDOMTracking config) = true)
  ∧ (is_Some (reduxTracker d)
     ↔ default true (DetectorConfig.enableReduxTracking config) = true).
Proof.
  unfold System.create, new, resolveConfig. cbv zeta.
  cbn [Config.enableEventListenerTracking Config.enableTimerTracking
       Config.enableDOMTracking Config.enableReduxTracking].
  destruct (default true (DetectorConfig.enableEventListenerTracking config)),
    (default true (DetectorConfig.enableTimerTracking config)),
    (default true (DetectorConfig.enableDOMTracking config)),
    (default true (DetectorConfig.enableReduxTracking config));
    cbn [EventListenerTracker.new TimerTracker.new];
    repeat match goal with
    | |- context [DOMTracker.new ?w] => destruct (DOMTracker.new w) as [? ?]
    | |- context [ReduxTracker.new ?w] => destruct (ReduxTracker.new w) as [? ?]
    end;
    cbn; repeat split;
    first [done | by intros [? ?] | intros _; eexists; reflexivity].
Qed.

(** X15: a tracker that the configuration disables is never created, and no
    sequence of operations changes the entry points of its category: with
    enableEventListenerTracking false, addEventListener and
    removeEventListener stay the host's functions; with enableTimerTracking
    false, so do the four timer functions. *)
Theorem X15_disabled_tracker_untouched (config : DetectorConfig.t)
    (w0 : World.t) (ops : list System.Op) :
  let sys := (System.run ops (System.create config w0)).1 in
  (DetectorConfig.enableEventListenerTracking config = Some false →
   eventTracker (System.detector sys) = None
   ∧ World.addEventListener (System.world sys) = World.addEventListener w0
   ∧ World.removeEventListener (System.world sys) = World.removeEventListener w0)
  ∧ (DetectorConfig.enableTimerTracking config = Some false →
     timerTracker (System.detector sys) = None
     ∧ World.setTimeout (System.world sys) = World.setTimeout w0
     ∧ World.setInterval (System.world sys) = World.setInterval w0
     ∧ World.clearTimeout (System.world sys) = World.clearTimeout w0
     ∧ World.clearInterval (System.world sys) = World.clearInterval w0).
Proof.
  intros sys. destruct (host_invariants w0 config ops) as (_ & Hok & Hst).
  fold sys in Hok, Hst.
  destruct (create_trackers config w0) as (He & Ht & _).
  unfold frame in Hok, Hst. cbn [fst snd] in Hst.
  unfold entryPoints in Hok. cbn [take drop] in Hok. destruct Hok as [Hl Hti].
  injection Hst as Hev Htt. split.
  - intros Hflag. rewrite Hflag in He. cbn in He.
    assert (H0 : eventTracker (System.detector (System.create config w0)) = None).
    { destruct (eventTracker (System.detector (System.create config w0)));
        [|done]. assert (false = true) by (apply He; by eexists). discriminate. }
    rewrite H0 in Hev. cbn in Hev. apply fmap_None in Hev.
    split; [exact Hev|]. rewrite Hev in Hl. unfold entryPoints in Hl.
    destruct Hl as [Hl|[[x Hx] _]]; [by simplify_eq|discriminate].
  - intros Hflag. rewrite Hflag in Ht. cbn in Ht.
    assert (H0 : timerTracker (System.detector (System.create config w0)) = None).
    { destruct (timerTracker (System.detector (System.create config w0)));
        [|done]. assert (false = true) by (apply Ht; by eexists). discriminate. }
    rewrite H0 in Htt. cbn in Htt. apply fmap_None in Htt.
    split; [exact Htt|]. rewrite Htt in Hti. unfold entryPoints in Hti.
    destruct Hti as [Hti|[[x Hx] _]]; [by simplify_eq|discriminate].
Qed.

(** X15 holds at a concrete input: listener tracking disabled in [host0]. *)
Lemma X15_witness :
  let config :=
    {| DetectorConfig.enableEventListenerTracking := Some false;
       DetectorConfig.enableTimerTracking := None;
       DetectorConfig.enableDOMTracking := None;
       DetectorConfig.enableReduxTracking := None;
       DetectorConfig.enablePerformanceObserver := None;
       DetectorConfig.reportInterval := None;
       DetectorConfig.memoryThreshold := None |} in
  let sys :=
    (System.run [System.HostAddEventListener button "click" 7%nat None;
                 System.Cleanup]
       (System.create config host0)).1 in
  eventTracker (System.detector sys) = None
  ∧ World.addEventListener (System.world sys) = HostFn 1
  ∧ World.removeEventListener (System.world sys) = HostFn 2.
Proof.
  apply (proj1 (X15_disabled_tracker_untouched _ host0 _)). reflexivity.
Defined.

End host_facts.

(** ** Further properties of the timer tracker *)

Section timer_registry.
Import TimerCalls.

Lemma timer_run_snoc (calls : list Call) (c : Call) (self : TimerTracker.t) :
  run (calls ++ [c]) self = perform (run calls self) c.
Proof. unfold run. by rewrite foldl_snoc. Qed.

Lemma clear_get (self : TimerTracker.t) (id : option TimerId) (k : TimerId) :
  JsMap.get k (TimerTracker.timers (TimerTracker.clearTimeout self id).1)
  = match id with
    | Some i => if decide (i = k ∧ i ≠ 0) then None
                else JsMap.get k (TimerTracker.timers self)
    | None => JsMap.get k (TimerTracker.timers self)
    end.
Proof.
  unfold TimerTracker.clearTimeout, TimerTracker.truthy. cbn [fst].
  destruct id as [i|]; [|done]. case_bool_decide as Hi; cbn.
  - rewrite jsmap_get_delete.
    destruct (decide (k = i)) as [->|Hne].
    + by rewrite decide_True.
    + rewrite decide_False; [done|]. intros [? ?]. congruence.
  - rewrite decide_False; [done|]. intros [? ?]. done.
Qed.

(** X4: for every sequence of setTimeout, setInterval, clearTimeout and
    clearInterval calls on a fresh timer tracker, the registry holds an id
    exactly when the last call naming that id was a set, with the kind and
    creation time of that set (a later set under the same id replaces the
    record); a clear with an undefined or zero id removes nothing, and
    clearTimeout and clearInterval remove an entry whatever its kind; ids
    stay unique keys, and getActiveTimers() is never negative nor above the
    number of calls. *)
Theorem X4_timer_registry (w : World.t) (calls : list Call) :
  let self := run calls (TimerTracker.new w).1 in
  (∀ k, JsMap.get k (TimerTracker.timers self) = lastFor calls k)
  ∧ NoDup (TimerTracker.timers self).*1
  ∧ 0 ≤ TimerTracker.getActiveTimers self ≤ Z.of_nat (length calls)
  ∧ (∀ id, (TimerTracker.clearTimeout self id).1
           = (TimerTracker.clearInterval self id).1).
Proof.
  cbv zeta. induction calls as [|c calls IH] using rev_ind.
  - split; [done|]. split; [apply NoDup_nil_2|]. split; [done|done].
  - rewrite timer_run_snoc. destruct IH as (Hget & Hnd & Hcount & _).
    set (self := run calls (TimerTracker.new w).1) in *.
    unfold TimerTracker.getActiveTimers in *. rewrite length_app. cbn [length].
    split; [|split; [|split; [|done]]].
    + intros k. unfold lastFor. rewrite foldl_snoc. fold (lastFor calls k).
      rewrite <- Hget. destruct c as [id now stack|id now stack|id|id]; cbn [perform].
      * cbn. rewrite jsmap_get_set. by destruct (decide (k = id)), (decide (id = k)).
      * cbn. rewrite jsmap_get_set. by destruct (decide (k = id)), (decide (id = k)).
      * rewrite clear_get. by destruct id.
      * change (TimerTracker.clearInterval self id).1
          with (TimerTracker.clearTimeout self id).1.
        rewrite clear_get. by destruct id.
    + destruct c as [id now stack|id now stack|id|id]; cbn [perform]; cbn.
      * by apply jsmap_NoDup_set.
      * by apply jsmap_NoDup_set.
      * destruct (TimerTracker.truthy id); [|done]. by apply jsmap_NoDup_delete.
      * destruct (TimerTracker.truthy id); [|done]. by apply jsmap_NoDup_delete.
    + destruct c as [id now stack|id now stack|id|id];
        cbn [perform TimerTracker.setTimeout TimerTracker.setInterval
             TimerTracker.clearTimeout TimerTracker.clearInterval fst].
      * cbn [TimerTracker.timers TimerTracker.with_timers].
        rewrite jsmap_size_set. destruct (JsMap.has id _); lia.
      * cbn [TimerTracker.timers TimerTracker.with_timers].
        rewrite jsmap_size_set. destruct (JsMap.has id _); lia.
      * destruct (TimerTracker.truthy id);
          cbn [TimerTracker.timers TimerTracker.with_timers]; [|lia].
        pose proof (jsmap_size_delete (default 0 id) _ Hnd) as Hs.
        revert Hs. unfold JsMap.size, TimerId in *. case_match; lia.
      * destruct (TimerTracker.truthy id);
          cbn [TimerTracker.timers TimerTracker.with_timers]; [|lia].
        pose proof (jsmap_size_delete (default 0 id) _ Hnd) as Hs.
        revert Hs. unfold JsMap.size, TimerId in *. case_match; lia.
Qed.

End timer_registry.

(** ** The detector's own report interval *)

Section lifecycle_facts.
Import MemoryLeakDetector.

Lemma ReduxTracker_new_entryPoints (w : World.t) :
  entryPoints (ReduxTracker.new w).2 = entryPoints w.
Proof.
  unfold ReduxTracker.new, ReduxTracker.patchReduxStore.
  destruct (World.window w) as [win|]; [|done].
  unfold ReduxTracker.detectStoreFromWindow.
  destruct (ReduxTracker.firstStore w _) as [store|].
  - pose proof (patch_entryPoints
      {| ReduxTracker.storeSubscriptions := [];
         ReduxTracker.selectorCalls := [];
         ReduxTracker.originalStoreSubscribe := None;
         ReduxTracker.storeRef := None |} w store) as Hep.
    destruct (ReduxTracker.patchStore _ w store) as [tr1 w1].
    by destruct (Window.REDUX_DEVTOOLS_EXTENSION win).
  - by destruct (Window.REDUX_DEVTOOLS_EXTENSION win).
Qed.

Lemma create_timer_state (conf : DetectorConfig.t) (w0 : World.t) :
  default true (DetectorConfig.enableTimerTracking conf) = true →
  let sys0 := System.create conf w0 in
  let d0 := System.detector sys0 in
  isRunning d0 = false ∧ snapshots d0 = [] ∧ reportInterval d0 = None
  ∧ config d0 = resolveConfig conf
  ∧ timerTracker d0
    = Some {| TimerTracker.timers := [];
              TimerTracker.originalSetTimeout := World.setTimeout w0;
              TimerTracker.originalSetInterval := World.setInterval w0;
              TimerTracker.originalClearTimeout := World.clearTimeout w0;
              TimerTracker.originalClearInterval := World.clearInterval w0 |}
  ∧ World.setInterval (System.world sys0) = SetIntervalShim
  ∧ World.clearInterval (System.world sys0) = ClearIntervalShim.
Proof.
  intros Hflag. unfold System.create, new. cbv zeta.
  change (Config.enableTimerTracking (resolveConfig conf))
    with (default true (DetectorConfig.enableTimerTracking conf)).
  rewrite Hflag.
  destruct (Config.enableEventListenerTracking (resolveConfig conf)),
    (Config.enableDOMTracking (resolveConfig conf)),
    (Config.enableReduxTracking (resolveConfig conf));
    cbn [EventListenerTracker.new TimerTracker.new];
    repeat match goal with
    | |- context [DOMTracker.new ?w] => destruct (DOMTracker.new w) as [? ?]
    end;
    try (match goal with
         | |- context [ReduxTracker.new ?w] =>
             let H := fresh in
             pose proof (ReduxTracker_new_entryPoints w) as H;
             destruct (ReduxTracker.new w) as [tr w'];
             cbn [snd] in H; unfold entryPoints in H; cbn in H;
             injection H as ? ? ? ? ? ?
         end);
    cbn; by repeat split.
Qed.

(** X5: with timer tracking enabled, start() on a new detector takes one
    snapshot (in which the timer count is still 0) and then registers the
    detector's own report interval in its timer tracker, so getActiveTimers()
    is 1 although the application has set no timer; the interval is set
    through the host's original setInterval with the configured period.
    stop() removes the entry again when the interval id is truthy; when the
    native setInterval returned 0, stop() neither clears the interval nor
    removes the entry. *)
Theorem X5_own_interval_is_tracked (conf : DetectorConfig.t) (w0 : World.t)
    (r : Readings.t) (id : TimerId) (now : Z) (stack : option string) :
  default true (DetectorConfig.enableTimerTracking conf) = true →
  let started := System.step (System.Start r id now stack)
                   (System.create conf w0) in
  let d1 := System.detector started.1 in
  let stopped := System.step System.Stop started.1 in
  let d2 := System.detector stopped.1 in
  TimerTracker.timers <$> timerTracker d1
  = Some [(id, {| TimerInfo.type := TimerType.interval;
                  TimerInfo.created := now; TimerInfo.stack := stack |})]
  ∧ TimerTracker.getActiveTimers <$> timerTracker d1 = Some 1
  ∧ Counts.timers ∘ MemorySnapshot.counts <$> snapshots d1 = [0]
  ∧ isRunning d1 = true ∧ reportInterval d1 = Some id
  ∧ started.2
    = [Call (World.setInterval w0)
         (SetTimerArgs reportCallback
            (Some (default 30000 (DetectorConfig.reportInterval conf))) []);
       ConsoleLog DetectorStarted]
  ∧ isRunning d2 = false
  ∧ (id ≠ 0 →
     TimerTracker.timers <$> timerTracker d2 = Some []
     ∧ reportInterval d2 = None
     ∧ stopped.2 = [Call (World.clearInterval w0) (ClearTimerArgs (Some id));
                    ConsoleLog DetectorStopped])
  ∧ (id = 0 →
     TimerTracker.timers <$> timerTracker d2 = TimerTracker.timers <$> timerTracker d1
     ∧ reportInterval d2 = Some 0
     ∧ stopped.2 = [ConsoleLog DetectorStopped]).
Proof.
  intros Hflag.
  destruct (create_timer_state conf w0 Hflag)
    as (Hrun & Hsn & Hri & Hcfg & Htt & Hsi & Hci).
  destruct (System.create conf w0) as [[cfg et tt dt rt snaps ri running] w].
  cbn in Hrun, Hsn, Hri, Hcfg, Htt, Hsi, Hci. subst running snaps ri cfg tt.
  cbv zeta.
  match goal with
  | |- context [System.step (System.Start r id now stack) ?s] =>
      remember (System.step (System.Start r id now stack) s) as started eqn:Hst
  end.
  unfold System.step, start, call_setInterval, takeSnapshot in Hst.
  cbn [isRunning with_running with_snapshots timerTracker
       MemoryLeakDetector.config snapshots fst snd reportInterval eventTracker
       domTracker reduxTracker System.detector System.world] in Hst.
  rewrite Hsi in Hst.
  cbn [TimerTracker.setInterval with_timerTracker with_running
    TimerTracker.with_timers TimerTracker.timers JsMap.set fst snd
    System.detector System.world timerTracker snapshots isRunning reportInterval
    MemoryLeakDetector.config eventTracker domTracker reduxTracker
    TimerTracker.originalSetInterval app] in Hst.
  subst started. cbn [fst snd System.detector System.world].
  cbn [length] in *. destruct (decide (100 < 1)%nat) as [?|_]; [lia|].
  cbn [with_running with_timerTracker with_snapshots timerTracker snapshots
       isRunning reportInterval MemoryLeakDetector.config eventTracker
       domTracker reduxTracker TimerTracker.with_timers TimerTracker.timers].
  split; [done|]. split; [done|]. split; [done|]. split; [done|].
  split; [done|]. split; [done|].
  unfold System.step, stop. cbn [System.detector System.world isRunning negb
    with_running reportInterval]. unfold TimerTracker.truthy.
  case_bool_decide as Hid.
  - unfold call_clearInterval. cbn [timerTracker with_running]. rewrite Hci.
    cbn. rewrite ?(bool_decide_eq_true_2 (id ≠ 0)) by done. cbn.
    split; [done|].
    split; [intros _; repeat split; try reflexivity; by case_decide|].
    intros ->. done.
  - cbn. split; [done|]. split; [done|]. intros _. by subst id.
Qed.

(** X5 holds at a concrete input: [host0], default configuration, the
    native setInterval returning id 5. *)
Lemma X5_witness :
  TimerTracker.getActiveTimers
    <$> timerTracker
          (System.detector
             (System.step
                (System.Start
                   {| Readings.performance_memory := None; Readings.now := 1000;
                      Readings.domNodes := 10; Readings.timer_now := 1000;
                      Readings.detect_domNodes := 10; Readings.redux_now := 1000 |}
                   5 1000 None)
                (System.create defaultConfig host0)).1)
  = Some 1.
Proof.
  apply (X5_own_interval_is_tracked defaultConfig host0). reflexivity.
Defined.

End lifecycle_facts.

(** ** The DOM tracker's mutation callback *)

Section dom_facts.
Import DOMTracker.

Lemma added_fold (self : t) (l : list NodeView.t) :
  foldl (λ (self : t) (_ : NodeView.t),
           {| observer := observer self; detachedNodes := detachedNodes self;
              nodeCount := nodeCount self + 1 |}) self l
  = {| observer := observer self; detachedNodes := detachedNodes self;
       nodeCount := nodeCount self + Z.of_nat (length l) |}.
Proof.
  revert self. induction l as [|v l IH]; intros self.
  - destruct self. cbn. f_equal. lia.
  - cbn [foldl]. rewrite IH. cbn. f_equal. lia.
Qed.

Lemma checkForDetachedNode_eq (self : t) (v : NodeView.t) :
  checkForDetachedNode self v
  = {| observer := observer self;
       detachedNodes := addDetached (detachedNodes self) v;
       nodeCount := nodeCount self |}.
Proof.
  unfold checkForDetachedNode, addDetached, detachedElement.
  case_decide as Hty.
  - rewrite (bool_decide_eq_true_2 _ Hty). cbn [andb].
    by destruct (_ && _); destruct self.
  - rewrite (bool_decide_eq_false_2 _ Hty). by destruct self.
Qed.

Lemma removed_fold (self : t) (l : list NodeView.t) :
  foldl checkForDetachedNode self l
  = {| observer := observer self;
       detachedNodes := foldl addDetached (detachedNodes self) l;
       nodeCount := nodeCount self |}.
Proof.
  revert self. induction l as [|v l IH]; intros self; [by destruct self|].
  cbn [foldl]. rewrite IH, checkForDetachedNode_eq. done.
Qed.

Lemma onMutations_eq (self : t) (ms : list MutationRecord.t) :
  onMutations self ms
  = {| observer := observer self;
       detachedNodes := foldl addDetached (detachedNodes self) (removedViews ms);
       nodeCount := nodeCount self + Z.of_nat (length (addedViews ms)) |}.
Proof.
  unfold onMutations, removedViews, addedViews.
  revert self. induction ms as [|m ms IH]; intros self.
  - destruct self. cbn. f_equal. lia.
  - cbn [foldl]. rewrite IH, removed_fold, added_fold. cbn.
    rewrite foldl_app, length_app. f_equal. lia.
Qed.

Lemma batches_eq (self : t) (batches : list (list MutationRecord.t)) :
  foldl onMutations self batches = onMutations self (concat batches).
Proof.
  revert self. induction batches as [|ms batches IH]; intros self.
  - rewrite onMutations_eq. destruct self. cbn. f_equal. lia.
  - cbn [foldl concat]. rewrite IH, !onMutations_eq. cbn.
    unfold removedViews, addedViews. rewrite !bind_app, foldl_app, length_app.
    f_equal. lia.
Qed.

Lemma elem_of_addDetached (n : nat) (s : list nat) (l : list NodeView.t) :
  n ∈ foldl addDetached s l
  ↔ n ∈ s ∨ ∃ v, v ∈ l ∧ NodeView.node v = n ∧ detachedElement v = true.
Proof.
  revert s. induction l as [|v l IH]; intros s.
  - cbn. split; [tauto|]. intros [?|(v & Hv & _)]; [done|].
    by apply elem_of_nil in Hv.
  - cbn [foldl]. rewrite IH. unfold addDetached.
    destruct (detachedElement v) eqn:Hd.
    + rewrite jsset_elem_of_add. split.
      * intros [[->|?]|(v' & ? & ? & ?)]; [right|tauto|right].
        -- exists v. split_and!; [apply list_elem_of_here|done|done].
        -- exists v'. split_and!; [by apply list_elem_of_further|done|done].
      * intros [?|(v' & Hv' & Hn & Hd')]; [tauto|].
        apply elem_of_cons in Hv' as [->|?]; [by left; left|]. right. by exists v'.
    + split.
      * intros [?|(v' & ? & ? & ?)]; [tauto|right].
        exists v'. split_and!; [by apply list_elem_of_further|done|done].
      * intros [?|(v' & Hv' & Hn & Hd')]; [tauto|].
        apply elem_of_cons in Hv' as [->|?]; [congruence|]. right. by exists v'.
Qed.

Lemma NoDup_addDetached (s : list nat) (l : list NodeView.t) :
  NoDup s → NoDup (foldl addDetached s l).
Proof.
  revert s. induction l as [|v l IH]; intros s Hs; [done|].
  cbn [foldl]. apply IH. unfold addDetached.
  destruct (detachedElement v); [by apply jsset_NoDup_add|done].
Qed.

Lemma length_addDetached (s : list nat) (l : list NodeView.t) :
  (length s ≤ length (foldl addDetached s l)
   ≤ length s + length (filter (λ v, detachedElement v = true) l))%nat.
Proof.
  revert s. induction l as [|v l IH]; intros s; [cbn; lia|].
  cbn [foldl]. specialize (IH (addDetached s v)).
  rewrite filter_cons. unfold addDetached in *.
  destruct (detachedElement v) eqn:Hd.
  - rewrite decide_True by done. cbn [length].
    pose proof (jsset_size_add (NodeView.node v) s) as Hsz.
    unfold JsSet.size in Hsz. destruct (JsSet.has _ _); lia.
  - rewrite decide_False by done. lia.
Qed.

Lemma addDetached_of_list (s : list nat) (l : list NodeView.t) :
  foldl addDetached s l
  = foldl (λ s x, JsSet.add x s) s
      (NodeView.node <$> filter (λ v, detachedElement v = true) l).
Proof.
  revert s. induction l as [|v l IH]; intros s; [done|].
  cbn [foldl]. rewrite IH, filter_cons. unfold addDetached.
  destruct (detachedElement v); [by rewrite decide_True|by rewrite decide_False].
Qed.

(** X6: for every sequence of mutation batches the observer callback is run
    on, starting from a new DOM tracker: a node is in the detached set
    exactly when some removed node of some record was, when its record was
    processed, an element outside the document with no parent; the set is
    the Set built from the removed nodes passing this test, in delivery
    order, has no duplicates, never shrinks from one batch to the next (a node that is
    re-attached later stays counted), and its size is at most the number of
    removed nodes passing the test; nodeCount is the number of added nodes;
    and detectLeaks never reads nodeCount. *)
Theorem X6_detached_set (w : World.t) (batches : list (list MutationRecord.t))
    (more : list MutationRecord.t) :
  let self := foldl onMutations (new w).1 batches in
  let ms := concat batches in
  (∀ n, n ∈ detachedNodes self
        ↔ ∃ v, v ∈ removedViews ms ∧ NodeView.node v = n
               ∧ detachedElement v = true)
  ∧ detachedNodes self
    = JsSet.of_list
        (NodeView.node <$> filter (λ v, detachedElement v = true)
                             (removedViews ms))
  ∧ NoDup (detachedNodes self)
  ∧ detachedNodes self ⊆ detachedNodes (onMutations self more)
  ∧ 0 ≤ getDetachedNodeCount self
      ≤ Z.of_nat (length (filter (λ v, detachedElement v = true)
                            (removedViews ms)))
  ∧ nodeCount self = Z.of_nat (length (addedViews ms))
  ∧ observer self = World.MutationObserver w
  ∧ (∀ q c, detectLeaks self q
            = detectLeaks {| observer := observer self;
                             detachedNodes := detachedNodes self;
                             nodeCount := c |} q).
Proof.
  cbv zeta. rewrite batches_eq, !onMutations_eq.
  cbn [observer detachedNodes nodeCount].
  assert (detachedNodes (new w).1 = [] ∧ nodeCount (new w).1 = 0
          ∧ observer (new w).1 = World.MutationObserver w) as (Hd & Hn & Ho).
  { unfold new, setupMutationObserver. by destruct (World.MutationObserver w). }
  rewrite Hd, Hn, Ho. split_and!.
  - intros n. rewrite elem_of_addDetached. split; [|tauto].
    intros [Hin|?]; [|done]. by apply elem_of_nil in Hin.
  - apply addDetached_of_list.
  - apply NoDup_addDetached, NoDup_nil_2.
  - intros n Hn'. apply elem_of_addDetached. by left.
  - unfold getDetachedNodeCount. lia.
  - unfold getDetachedNodeCount, JsSet.size.
    pose proof (length_addDetached [] (removedViews (concat batches))) as Hlen.
    cbn [detachedNodes]. change (length (@nil nat)) with 0%nat in Hlen. lia.
  - lia.
  - done.
  - done.
Qed.

End dom_facts.

(** ** Selector statistics *)

Section selector_facts.
Import SelectorCalls.

Lemma jsmap_get_elem_of {K V : Type} `{EqDecision K} (k : K) (v : V)
    (m : list (K * V)) :
  JsMap.get k m = Some v → (k, v) ∈ m.
Proof.
  induction m as [|[k0 v0] m IH]; cbn; [done|].
  case_decide as Heq.
  - intros [= ->]. subst. apply list_elem_of_here.
  - intros Hg. by apply list_elem_of_further, IH.
Qed.

Lemma jsmap_elem_of_get {K V : Type} `{EqDecision K} (k : K) (v : V)
    (m : list (K * V)) :
  NoDup m.*1 → (k, v) ∈ m → JsMap.get k m = Some v.
Proof.
  induction m as [|[k0 v0] m IH]; csimpl; intros Hnd Hin.
  - by apply elem_of_nil in Hin.
  - apply NoDup_cons in Hnd as [Hk0 Hnd].
    apply elem_of_cons in Hin as [[= -> ->]|Hin].
    + by rewrite decide_True.
    + case_decide as Heq; [|by apply IH]. subst k0. exfalso. apply Hk0.
      apply list_elem_of_fmap. by exists (k, v).
Qed.

Lemma ReduxTracker_new_maps (w : World.t) :
  ReduxTracker.storeSubscriptions (ReduxTracker.new w).1 = []
  ∧ ReduxTracker.selectorCalls (ReduxTracker.new w).1 = [].
Proof.
  unfold ReduxTracker.new, ReduxTracker.patchReduxStore,
    ReduxTracker.detectStoreFromWindow.
  destruct (World.window w) as [win|]; [|done].
  destruct (ReduxTracker.firstStore w _) as [store|];
    by destruct (Window.REDUX_DEVTOOLS_EXTENSION win).
Qed.

Lemma callsOf_snoc (name : string) (calls : list Call) (c : Call) :
  callsOf name (calls ++ [c])
  = callsOf name calls ++ (if decide (c.1 = name) then [c] else []).
Proof.
  unfold callsOf. by rewrite filter_app.
Qed.

Lemma stats_snoc (name : string) (calls : list Call) (c : Call) :
  stats name (calls ++ [c])
  = if decide (name = c.1)
    then Some {| SelectorStats.count :=
                   SelectorStats.count
                     (default {| SelectorStats.count := 0;
                                 SelectorStats.lastCalled := 0 |}
                        (stats c.1 calls)) + 1;
                 SelectorStats.lastCalled := c.2 |}
    else stats name calls.
Proof.
  unfold stats, count, lastCalled. rewrite callsOf_snoc.
  destruct (decide (name = c.1)) as [->|Hne].
  - destruct (decide (c.1 = c.1)) as [_|?]; [|done].
    destruct (decide (callsOf c.1 calls ++ [c] = [])) as [Hnil|_];
      [by destruct (callsOf c.1 calls)|].
    rewrite fmap_app. cbn [fmap list_fmap]. rewrite last_snoc, length_app. cbn [default length].
    f_equal. f_equal.
    destruct (decide (callsOf c.1 calls = [])) as [->|_]; cbn; lia.
  - destruct (decide (c.1 = name)) as [?|_]; [done|]. by rewrite app_nil_r.
Qed.

Lemma run_stats (self0 : ReduxTracker.t) (calls : list Call) :
  ReduxTracker.selectorCalls self0 = [] →
  let self := run calls self0 in
  (∀ name, JsMap.get name (ReduxTracker.selectorCalls self) = stats name calls)
  ∧ NoDup (ReduxTracker.selectorCalls self).*1
  ∧ ReduxTracker.storeSubscriptions self = ReduxTracker.storeSubscriptions self0
  ∧ ReduxTracker.storeRef self = ReduxTracker.storeRef self0
  ∧ ReduxTracker.originalStoreSubscribe self
    = ReduxTracker.originalStoreSubscribe self0.
Proof.
  intros Hnil. cbv zeta. induction calls as [|c calls IH] using rev_ind.
  - cbn. rewrite Hnil. split_and!; try done. apply NoDup_nil_2.
  - destruct IH as (Hget & Hnd & Hsub & Href & Horig).
    unfold run in *. rewrite foldl_app. cbn [foldl].
    unfold perform at 1 3 5 7 9. unfold ReduxTracker.trackSelectorUsage.
    cbn [ReduxTracker.selectorCalls ReduxTracker.storeSubscriptions
         ReduxTracker.storeRef ReduxTracker.originalStoreSubscribe].
    split_and!; try done.
    + intros name. rewrite jsmap_get_set, stats_snoc, !Hget. done.
    + by apply jsmap_NoDup_set.
Qed.

Lemma selector_fold (now : Z) (acc : list LeakSuspect.t)
    (m : list (string * SelectorStats.t)) :
  foldl (λ suspects '(selector, stats),
           if decide (SelectorStats.count stats > 1000
                      ∧ now - SelectorStats.lastCalled stats < 60000)
           then suspects ++
                [suspect LeakType.redux_selector
                   (if decide (SelectorStats.count stats > 5000)
                    then critical else high)
                   (DescSelectorCalls selector (SelectorStats.count stats))
                   (SelectorStats.count stats)]
           else suspects) acc m
  = acc ++ (m ≫= selectorSuspect now).
Proof.
  revert acc. induction m as [|[sel st] m IH]; intros acc.
  - by rewrite app_nil_r.
  - cbn [foldl]. rewrite IH. rewrite bind_cons. unfold selectorSuspect at 2.
    cbn [fst snd]. case_decide; [by rewrite <- app_assoc|done].
Qed.

(** X7: after any sequence of trackSelectorUsage calls on a new Redux
    tracker, the entry of a selector holds the number of calls made with that
    name since construction and the time of the latest one (no entry when it
    was never called), and the map has one entry per name.  With no store
    subscription tracked, detectLeaks is the selector rule applied to the
    entries in first-call order, so a selector is reported exactly when its
    calls over the whole life of the tracker number more than 1000 and the
    latest one is less than 60 s old, whenever the earlier ones were made. *)
Theorem X7_selector_stats (w : World.t) (calls : list Call) (now : Z) :
  let self := run calls (ReduxTracker.new w).1 in
  (∀ name, JsMap.get name (ReduxTracker.selectorCalls self) = stats name calls)
  ∧ NoDup (ReduxTracker.selectorCalls self).*1
  ∧ ReduxTracker.getActiveSubscriptions self = 0
  ∧ ReduxTracker.detectLeaks self now
    = ReduxTracker.selectorCalls self ≫= selectorSuspect now
  ∧ (∀ name,
       let n := count name calls in
       suspect LeakType.redux_selector
         (if decide (n > 5000) then critical else high)
         (DescSelectorCalls name n) n ∈ ReduxTracker.detectLeaks self now
       ↔ n > 1000 ∧ now - lastCalled name calls < 60000).
Proof.
  destruct (ReduxTracker_new_maps w) as [Hsubs Hsel].
  destruct (run_stats (ReduxTracker.new w).1 calls Hsel)
    as (Hget & Hnd & Hsub & _ & _).
  cbv zeta. rewrite Hsubs in Hsub.
  assert (ReduxTracker.detectLeaks (run calls (ReduxTracker.new w).1) now
          = ReduxTracker.selectorCalls (run calls (ReduxTracker.new w).1)
              ≫= selectorSuspect now) as Hleaks.
  { unfold ReduxTracker.detectLeaks. rewrite Hsub. cbn [JsMap.size length foldl].
    rewrite selector_fold. done. }
  split_and!; try done.
  - unfold ReduxTracker.getActiveSubscriptions. by rewrite Hsub.
  - intros name. rewrite Hleaks, list_elem_of_bind. split.
    + intros ([sel st] & Hin & Hm). unfold selectorSuspect in Hin.
      cbn [fst snd] in Hin.
      destruct (decide (SelectorStats.count st > 1000
                        ∧ now - SelectorStats.lastCalled st < 60000))
        as [Hc|_]; [|by apply elem_of_nil in Hin].
      apply list_elem_of_singleton in Hin.
      unfold suspect in Hin. injection Hin as _ Hname Hcount. subst sel.
      apply jsmap_elem_of_get in Hm; [|done]. rewrite Hget in Hm.
      unfold stats in Hm. case_decide; [done|]. injection Hm as <-.
      exact Hc.
    + intros Hc.
      assert (stats name calls
              = Some {| SelectorStats.count := count name calls;
                        SelectorStats.lastCalled := lastCalled name calls |})
        as Hst.
      { unfold stats. case_decide as Hnil; [|done]. unfold count in Hc.
        rewrite Hnil in Hc. cbn in Hc. lia. }
      rewrite <- Hget in Hst. apply jsmap_get_elem_of in Hst.
      eexists. split; [|exact Hst]. unfold selectorSuspect.
      cbn [fst snd SelectorStats.count SelectorStats.lastCalled].
      destruct (decide (count name calls > 1000
                        ∧ now - lastCalled name calls < 60000))
        as [_|Hn]; [apply list_elem_of_here|done].
Qed.

End selector_facts.

(** ** The shape of every suspect *)

Section shape_facts.

Lemma ruleSuspect_suspect (types : list LeakType.t) (ty : LeakType.t)
    (sev : Severity) (d : Description) (n : Z) :
  ty ∈ types → sev ≠ low → 10 ≤ n → ruleSuspect types (suspect ty sev d n).
Proof. intros. unfold ruleSuspect, suspect. cbn. split_and!; eauto. Qed.

Lemma ruleSuspect_mono (types types' : list LeakType.t) (s : LeakSuspect.t) :
  types ⊆ types' → ruleSuspect types s → ruleSuspect types' s.
Proof. intros Hsub (? & ? & ? & ? & ?). split_and!; auto. Qed.

Ltac shape_rules :=
  repeat first [apply Forall_nil_2 | apply Forall_cons_2 | apply Forall_app_2];
  try (apply ruleSuspect_suspect; [set_solver|done|lia]).

Lemma foldl_Forall {A B : Type} (P : B → Prop) (f : list B → A → list B)
    (l : list A) (acc : list B) :
  (∀ acc x, Forall P acc → Forall P (f acc x)) →
  Forall P acc → Forall P (foldl f acc l).
Proof.
  intros Hf. revert acc. induction l as [|x l IH]; intros acc Hacc; [done|].
  cbn [foldl]. by apply IH, Hf.
Qed.

Lemma event_shape (tr : EventListenerTracker.t) :
  Forall (ruleSuspect [LeakType.event_listener])
    (EventListenerTracker.detectLeaks tr).
Proof.
  unfold EventListenerTracker.detectLeaks. cbv zeta.
  apply foldl_Forall; [|constructor].
  intros acc [target ls] Hacc. case_decide as Hn; [|done].
  apply Forall_app. split; [done|]. apply Forall_singleton.
  apply ruleSuspect_suspect; [apply list_elem_of_here| |lia].
  by case_decide.
Qed.

Lemma timer_shape (tr : TimerTracker.t) (now : Z) :
  Forall (ruleSuspect [LeakType.timer]) (TimerTracker.detectLeaks tr now).
Proof.
  unfold TimerTracker.detectLeaks. cbv zeta.
  destruct (foldl _ _ _) as [oldTimers totalIntervals].
  repeat case_decide; shape_rules.
Qed.

Lemma dom_shape (tr : DOMTracker.t) (q : Z) :
  Forall (ruleSuspect [LeakType.dom_reference; LeakType.detached_dom])
    (DOMTracker.detectLeaks tr q).
Proof.
  unfold DOMTracker.detectLeaks, DOMTracker.getDOMNodeCount. cbv zeta.
  repeat case_decide; shape_rules.
Qed.

Lemma redux_shape (tr : ReduxTracker.t) (now : Z) :
  Forall (ruleSuspect [LeakType.redux_subscription; LeakType.redux_selector])
    (ReduxTracker.detectLeaks tr now).
Proof.
  unfold ReduxTracker.detectLeaks. cbv zeta. rewrite selector_fold.
  apply Forall_app. split.
  - generalize (foldl (λ (oldSubscriptions : Z)
                         '(_, sub), if decide (now - Subscription.created sub
                                              > 10 * 60 * 1000)
                                    then oldSubscriptions + 1
                                    else oldSubscriptions)
                  0 (ReduxTracker.storeSubscriptions tr)).
    intros old.
    repeat case_decide; shape_rules.
  - apply Forall_forall. intros s Hs.
    apply list_elem_of_bind in Hs as ([sel st] & Hs & _).
    unfold SelectorCalls.selectorSuspect in Hs. cbn [fst snd] in Hs.
    destruct (decide (SelectorStats.count st > 1000
                      ∧ now - SelectorStats.lastCalled st < 60000))
      as [[Hc _]|_]; [|by apply elem_of_nil in Hs].
    apply list_elem_of_singleton in Hs as ->.
    apply ruleSuspect_suspect; [by repeat constructor| |lia].
    by case_decide.
Qed.

Lemma growth_shape (self : MemoryLeakDetector.t) :
  Forall (ruleSuspect [LeakType.closure])
    (MemoryLeakDetector.memoryGrowthSuspects self).
Proof.
  unfold MemoryLeakDetector.memoryGrowthSuspects.
  case_decide; [|constructor].
  destruct (_ !! _) as [latest|]; [|constructor].
  destruct (_ !! _) as [previous|]; [|constructor].
  cbv zeta.
  set (d := Memory.heapUsed (MemorySnapshot.memory latest)
            - Memory.heapUsed (MemorySnapshot.memory previous)).
  destruct (Qlt_le_dec 10 _) as [H10|_]; [|constructor].
  apply Forall_singleton.
  apply ruleSuspect_suspect; [apply list_elem_of_here| |].
  - by destruct (Qlt_le_dec 50 _).
  - rewrite Math_round_growthMB. apply (proj1 (growthMB_lt 10 d)) in H10.
    apply Z.div_le_lower_bound; unfold MB in *; lia.
Qed.

(** X8: every suspect that detectLeaks of the detector returns, in every
    state and for every reading, carries a leak type of a tracker the
    detector holds (or closure, from the growth rule), a severity above low,
    a count of at least 10, and neither stackTrace nor element: no rule of
    the sources emits severity low or fills the two optional fields, and a
    disabled tracker contributes no suspect of its types.  The same holds
    for the suspects of the report that generateReport builds. *)
Theorem X8_suspect_shape (self : MemoryLeakDetector.t) (r : Readings.t) :
  Forall (ruleSuspect (ownTypes self)) (MemoryLeakDetector.detectLeaks self r)
  ∧ Forall (ruleSuspect (ownTypes self))
      (MemoryLeakReport.leakSuspects
         (MemoryLeakDetector.generateReport self r).1.1).
Proof.
  assert (∀ self r, Forall (ruleSuspect (ownTypes self))
                      (MemoryLeakDetector.detectLeaks self r)) as Hshape.
  { clear. intros self r. rewrite detectLeaks_concat. unfold ownTypes, fromTracker.
    repeat apply Forall_app_2.
    - destruct (MemoryLeakDetector.eventTracker self) as [tr|]; [|constructor].
      eapply Forall_impl; [apply event_shape|]. intros s.
      apply ruleSuspect_mono. cbn [typesOf]. set_solver.
    - destruct (MemoryLeakDetector.timerTracker self) as [tr|]; [|constructor].
      eapply Forall_impl; [apply timer_shape|]. intros s.
      apply ruleSuspect_mono. cbn [typesOf]. set_solver.
    - destruct (MemoryLeakDetector.domTracker self) as [tr|]; [|constructor].
      eapply Forall_impl; [apply dom_shape|]. intros s.
      apply ruleSuspect_mono. cbn [typesOf]. set_solver.
    - destruct (MemoryLeakDetector.reduxTracker self) as [tr|]; [|constructor].
      eapply Forall_impl; [apply redux_shape|]. intros s.
      apply ruleSuspect_mono. cbn [typesOf]. set_solver.
    - eapply Forall_impl; [apply growth_shape|]. intros s.
      apply ruleSuspect_mono. set_solver. }
  split; [apply Hshape|].
  unfold MemoryLeakDetector.generateReport.
  destruct (MemoryLeakDetector.takeSnapshot self r) as [snapshot self1] eqn:Hts.
  cbn [fst snd MemoryLeakReport.leakSuspects].
  replace (ownTypes self) with (ownTypes self1); [apply Hshape|].
  unfold MemoryLeakDetector.takeSnapshot in Hts. injection Hts as _ <-.
  reflexivity.
Qed.

End shape_facts.

(** ** Hosts without performance.memory *)

Section memoryless_facts.
Import MemoryLeakDetector.

Lemma run_snoc_effects (ops : list System.Op) (op : System.Op) (sys : System.t) :
  (System.run (ops ++ [op]) sys).2
  = (System.run ops sys).2 ++ (System.step op (System.run ops sys).1).2.
Proof.
  unfold System.run. rewrite foldl_snoc.
  destruct (foldl _ _ ops) as [sys1 effects].
  cbn [fst snd]. by destruct (System.step op sys1).
Qed.

Lemma takeSnapshot_zero (self : t) (r : Readings.t) :
  Readings.performance_memory r = None →
  Forall (λ s, MemorySnapshot.memory s = zeroMemory) (snapshots self) →
  MemorySnapshot.memory (takeSnapshot self r).1 = zeroMemory
  ∧ Forall (λ s, MemorySnapshot.memory s = zeroMemory)
      (snapshots (takeSnapshot self r).2)
  ∧ ownTypes (takeSnapshot self r).2 = ownTypes self.
Proof.
  intros Hmem Hall. unfold takeSnapshot. cbv zeta. rewrite Hmem.
  cbn [fst snd with_snapshots snapshots getMemoryInfo
       MemoryInfo.usedJSHeapSize MemoryInfo.totalJSHeapSize MemoryInfo.external
       MemoryInfo.arrayBuffers default MemorySnapshot.memory].
  split; [done|]. split; [|done].
  assert (Forall (λ s, MemorySnapshot.memory s = zeroMemory)
            (snapshots self ++
             [{| MemorySnapshot.timestamp := Readings.now r;
                 MemorySnapshot.memory := zeroMemory;
                 MemorySnapshot.counts :=
                   {| Counts.eventListeners :=
                        default 0 (EventListenerTracker.getActiveListeners
                                     <$> eventTracker self);
                      Counts.timers :=
                        default 0 (TimerTracker.getActiveTimers
                                     <$> timerTracker self);
                      Counts.domNodes :=
                        default 0 ((λ tr, DOMTracker.getDOMNodeCount tr
                                            (Readings.domNodes r))
                                     <$> domTracker self);
                      Counts.detachedNodes :=
                        default 0 (DOMTracker.getDetachedNodeCount
                                     <$> domTracker self) |} |}])) as Hall'.
  { apply Forall_app. split; [done|]. by apply Forall_singleton. }
  case_decide; [|exact Hall']. unfold slice_last. by apply Forall_drop.
Qed.

Lemma growth_zero (self : t) :
  Forall (λ s, MemorySnapshot.memory s = zeroMemory) (snapshots self) →
  memoryGrowthSuspects self = [].
Proof.
  intros Hall. unfold memoryGrowthSuspects. case_decide; [|done].
  destruct (_ !! _) as [latest|] eqn:Hl; [|done].
  destruct (_ !! (_ - 2)%nat) as [previous|] eqn:Hp; [|done].
  apply list_elem_of_lookup_2 in Hl, Hp.
  rewrite Forall_forall in Hall.
  rewrite (Hall _ Hl), (Hall _ Hp). reflexivity.
Qed.

Lemma generateReport_memoryless (self : t) (r : Readings.t) :
  Readings.performance_memory r = None →
  Forall (λ s, MemorySnapshot.memory s = zeroMemory) (snapshots self) →
  Forall (λ s, MemorySnapshot.memory s = zeroMemory)
    (snapshots (generateReport self r).1.2)
  ∧ Forall memoryless (generateReport self r).2.
Proof.
  intros Hmem Hall.
  destruct (takeSnapshot_zero self r Hmem Hall) as (Hz & Hall1 & _).
  unfold generateReport.
  destruct (takeSnapshot self r) as [snapshot self1]. cbn [fst snd] in *.
  split; [done|].
  assert (Forall (λ s, LeakSuspect.type s ≠ LeakType.closure)
            (detectLeaks self1 r)) as Hty.
  { rewrite detectLeaks_concat, (growth_zero self1 Hall1), app_nil_r.
    unfold fromTracker. repeat apply Forall_app_2.
    - destruct (eventTracker self1) as [tr|]; [|constructor].
      eapply Forall_impl; [apply event_shape|].
      intros s [Hs _] Hc. rewrite Hc in Hs. set_solver.
    - destruct (timerTracker self1) as [tr|]; [|constructor].
      eapply Forall_impl; [apply timer_shape|].
      intros s [Hs _] Hc. rewrite Hc in Hs. set_solver.
    - destruct (domTracker self1) as [tr|]; [|constructor].
      eapply Forall_impl; [apply dom_shape|].
      intros s [Hs _] Hc. rewrite Hc in Hs. set_solver.
    - destruct (reduxTracker self1) as [tr|]; [|constructor].
      eapply Forall_impl; [apply redux_shape|].
      intros s [Hs _] Hc. rewrite Hc in Hs. set_solver. }
  rewrite (foldl_push_one OnLeak). apply Forall_app. split.
  - apply Forall_fmap. eapply Forall_impl; [exact Hty|]. done.
  - apply Forall_singleton. cbn [memoryless MemoryLeakReport.heapUsed
      MemoryLeakReport.heapTotal MemoryLeakReport.external
      MemoryLeakReport.arrayBuffers MemoryLeakReport.leakSuspects
      MemoryLeakReport.recommendations].
    rewrite Hz. split_and!; try done.
    rewrite generateRecommendations_of_types. intros Hin.
    apply list_elem_of_fmap in Hin as (ty & Hty' & Hin).
    apply (inj recommendation) in Hty'. subst ty.
    unfold JsSet.of_list in Hin. apply of_list_loop_elem in Hin as [Hin|Hin];
      [by apply elem_of_nil in Hin|].
    apply list_elem_of_fmap in Hin as (s & Hs & Hin).
    rewrite Forall_forall in Hty. by apply (Hty s Hin).
Qed.

Lemma create_snapshots (conf : DetectorConfig.t) (w0 : World.t) :
  snapshots (System.detector (System.run [] (System.create conf w0)).1) = [].
Proof.
  unfold System.run, System.create, new. cbv zeta. cbn [foldl fst].
  destruct (Config.enableEventListenerTracking (resolveConfig conf)),
    (Config.enableTimerTracking (resolveConfig conf)),
    (Config.enableDOMTracking (resolveConfig conf)),
    (Config.enableReduxTracking (resolveConfig conf));
    cbn [EventListenerTracker.new TimerTracker.new];
    repeat match goal with
    | |- context [DOMTracker.new ?w] => destruct (DOMTracker.new w) as [? ?]
    | |- context [ReduxTracker.new ?w] => destruct (ReduxTracker.new w) as [? ?]
    end; reflexivity.
Qed.

Lemma memoryless_step (op : System.Op) (sys : System.t) :
  noMemory op →
  Forall (λ s, MemorySnapshot.memory s = zeroMemory)
    (snapshots (System.detector sys)) →
  Forall (λ s, MemorySnapshot.memory s = zeroMemory)
    (snapshots (System.detector (System.step op sys).1))
  ∧ Forall memoryless (System.step op sys).2.
Proof.
  intros Hop Hall.
  destruct op; cbn [noMemory] in Hop.
  11: { unfold System.step, start.
        destruct (isRunning (System.detector sys)) eqn:Hrun;
          [by split; [|constructor]|].
        pose proof (takeSnapshot_zero
                      (with_running true (reportInterval (System.detector sys))
                         (System.detector sys)) r Hop) as Hts.
        destruct (takeSnapshot _ r) as [snapshot self1].
        destruct Hts as (_ & Hall1 & _);
          [by destruct (System.detector sys)|]. cbn [fst snd] in Hall1.
        unfold call_setInterval.
        destruct (World.setInterval (System.world sys)),
          (timerTracker self1) as [tr|];
          destruct self1; cbn in *; split; try done; repeat constructor. }
  12: { pose proof (generateReport_memoryless (System.detector sys) r Hop Hall)
          as [H1 H2].
        unfold System.step.
        destruct (generateReport (System.detector sys) r) as [[report d1] effects].
        by split. }
  all: destruct sys as [[cfg et tt dt rt snaps ri running] w];
    unfold System.step;
    cbn [System.detector System.world eventTracker timerTracker domTracker
         reduxTracker snapshots] in *.
  - destruct (World.addEventListener w), et; cbn; split; try done;
      repeat constructor.
  - destruct (World.removeEventListener w), et; cbn; split; try done;
      repeat constructor.
  - destruct (World.setTimeout w), tt; cbn; split; try done;
      repeat constructor.
  - destruct (World.setInterval w), tt; cbn; split; try done;
      repeat constructor.
  - destruct (World.clearTimeout w), tt; cbn; split; try done;
      repeat constructor.
  - destruct (World.clearInterval w), tt; cbn; split; try done;
      repeat constructor.
  - destruct dt as [tr|]; [destruct (DOMTracker.observer tr)|]; cbn;
      split; try done; repeat constructor.
  - destruct (World.subscribe w !! store) as [[]|], rt as [tr|];
      try (cbn; split; [done|repeat constructor]).
    unfold ReduxTracker.subscribe.
    destruct (ReduxTracker.originalStoreSubscribe tr); cbn; split; try done;
      repeat constructor.
  - destruct u, rt; cbn; split; try done; repeat constructor.
  - destruct (World.window w ≫= Window.REDUX_DEVTOOLS_EXTENSION) as [[]|],
      rt as [tr|]; try (cbn; split; [done|repeat constructor]).
    unfold ReduxTracker.devToolsCreateStore, ReduxTracker.patchStore.
    destruct (ReduxTracker.storeRef tr); cbn; split; try done;
      repeat constructor.
  - unfold stop. cbn [isRunning]. destruct running; cbn; [|by split; [|constructor]].
    destruct (TimerTracker.truthy ri) eqn:Htr; cbn; [|split; [done|repeat constructor]].
    unfold call_clearInterval. cbn.
    destruct (World.clearInterval w), tt as [tr|]; cbn; split; try done;
      repeat constructor.
  - unfold patchReduxStore. cbn. destruct rt as [tr|]; cbn; [|by split; [|constructor]].
    unfold ReduxTracker.patchStore. destruct (ReduxTracker.storeRef tr); cbn;
      split; try done; constructor.
  - unfold trackSelectorUsage. cbn. destruct rt; cbn; split; try done; constructor.
  - unfold cleanup.
    destruct (stop _ w) as [self1 effects1] eqn:Hstop.
    assert (Forall memoryless effects1) as He1.
    { revert Hstop. unfold stop. cbn [isRunning]. destruct running; cbn;
        [|intros [= <- <-]; constructor].
      destruct (TimerTracker.truthy ri); cbn;
        [|intros [= <- <-]; repeat constructor].
      unfold call_clearInterval. cbn.
      destruct (World.clearInterval w), tt as [tr|]; cbn; intros [= <- <-];
        repeat constructor. }
    destruct (eventTracker self1) as [tr|];
      [destruct (EventListenerTracker.cleanup tr w)|];
      (destruct (timerTracker self1) as [tr'|];
        [destruct (TimerTracker.cleanup tr' _)|]);
      (destruct (domTracker self1) as [tr''|];
        [unfold DOMTracker.cleanup; destruct (DOMTracker.observer tr'')|]);
      (destruct (reduxTracker self1) as [tr'''|];
        [destruct (ReduxTracker.cleanup tr''' _)|]);
      cbn; (split; [constructor|]); rewrite ?app_nil_r; try done;
      (apply Forall_app; split; [done|repeat constructor]).
Qed.

(** X9: in a host where performance.memory is undefined at every snapshot,
    whatever the configuration and the sequence of operations, every
    snapshot of the history has heapUsed, heapTotal, external and
    arrayBuffers 0, no closure suspect is ever passed to onLeak, and every
    report passed to onReport has the four memory figures 0, no closure
    suspect and no closure recommendation: the growth rule never fires. *)
Theorem X9_no_performance_memory (conf : DetectorConfig.t) (w0 : World.t)
    (ops : list System.Op) :
  Forall noMemory ops →
  let result := System.run ops (System.create conf w0) in
  Forall (λ s, MemorySnapshot.memory s = zeroMemory)
    (getSnapshots (System.detector result.1))
  ∧ memoryGrowthSuspects (System.detector result.1) = []
  ∧ Forall memoryless result.2.
Proof.
  intros Hops. cbv zeta.
  assert (Forall (λ s, MemorySnapshot.memory s = zeroMemory)
            (snapshots (System.detector (System.run ops (System.create conf w0)).1))
          ∧ Forall memoryless (System.run ops (System.create conf w0)).2)
    as [Hall Heff].
  { induction ops as [|op ops IH] using rev_ind.
    - split; [|constructor]. rewrite create_snapshots. constructor.
    - apply Forall_app in Hops as [Hops Hop].
      apply Forall_cons in Hop as [Hop _]. destruct (IH Hops) as [Hall Heff].
      rewrite run_snoc_step, run_snoc_effects.
      destruct (memoryless_step op _ Hop Hall) as [H1 H2].
      split; [done|]. by apply Forall_app. }
  split; [exact Hall|]. split; [by apply growth_zero|done].
Qed.

(** X9 holds at a concrete input: a start, a listener registration and two
    reports in [host0] with the default configuration. *)
Lemma X9_witness :
  Forall memoryless
    (System.run
       [System.Start
          {| Readings.performance_memory := None; Readings.now := 1000;
             Readings.domNodes := 10; Readings.timer_now := 1000;
             Readings.detect_domNodes := 10; Readings.redux_now := 1000 |}
          5 1000 None;
        System.HostAddEventListener button "click" 1%nat None;
        System.GenerateReport
          {| Readings.performance_memory := None; Readings.now := 2000;
             Readings.domNodes := 20000; Readings.timer_now := 2000;
             Readings.detect_domNodes := 20000; Readings.redux_now := 2000 |}]
       (System.create defaultConfig host0)).2.
Proof.
  apply (X9_no_performance_memory defaultConfig host0).
  repeat constructor.
Defined.

End memoryless_facts.

(** ** The DevTools hook *)

Section devtools_facts.
Import MemoryLeakDetector.

Lemma new_devtools (w : World.t) (win : Window.t) (ext : Fn) :
  World.window w = Some win →
  Window.REDUX_DEVTOOLS_EXTENSION win = Some ext →
  devToolsSlot (ReduxTracker.new w).2 = Some (DevToolsShim ext).
Proof.
  intros Hwin Hext.
  unfold ReduxTracker.new, ReduxTracker.patchReduxStore,
    ReduxTracker.detectStoreFromWindow. rewrite Hwin, Hext.
  destruct (ReduxTracker.firstStore w _) as [store|].
  - unfold ReduxTracker.patchStore. cbn. unfold devToolsSlot. cbn.
    by rewrite Hwin.
  - cbn. unfold devToolsSlot. cbn. by rewrite Hwin.
Qed.

Lemma create_devtools (conf : DetectorConfig.t) (w0 : World.t)
    (win : Window.t) (ext : Fn) :
  default true (DetectorConfig.enableReduxTracking conf) = true →
  World.window w0 = Some win →
  Window.REDUX_DEVTOOLS_EXTENSION win = Some ext →
  devToolsSlot (System.world (System.create conf w0)) = Some (DevToolsShim ext)
  ∧ is_Some (reduxTracker (System.detector (System.create conf w0))).
Proof.
  intros Hflag Hwin Hext. unfold System.create, new. cbv zeta.
  change (Config.enableReduxTracking (resolveConfig conf))
    with (default true (DetectorConfig.enableReduxTracking conf)).
  rewrite Hflag.
  destruct (Config.enableEventListenerTracking (resolveConfig conf)),
    (Config.enableTimerTracking (resolveConfig conf)),
    (Config.enableDOMTracking (resolveConfig conf));
    cbn [EventListenerTracker.new TimerTracker.new];
    repeat match goal with
    | |- context [DOMTracker.new ?w] => destruct (DOMTracker.new w) as [? ?]
    end;
    match goal with
    | |- context [ReduxTracker.new ?w] =>
        pose proof (new_devtools w win ext Hwin Hext) as Hnew;
        destruct (ReduxTracker.new w) as [tr w']
    end; cbn; by split.
Qed.

Lemma devtools_step (op : System.Op) (sys : System.t) :
  World.window (System.world (System.step op sys).1)
  = World.window (System.world sys)
  ∧ (is_Some (reduxTracker (System.detector sys)) →
     is_Some (reduxTracker (System.detector (System.step op sys).1))).
Proof.
  destruct sys as [[cfg et tt dt rt snaps ri running] w].
  destruct op; unfold System.step;
    cbn [System.detector System.world eventTracker timerTracker domTracker
         reduxTracker snapshots].
  - by destruct (World.addEventListener w), et.
  - by destruct (World.removeEventListener w), et.
  - by destruct (World.setTimeout w), tt.
  - by destruct (World.setInterval w), tt.
  - by destruct (World.clearTimeout w), tt.
  - by destruct (World.clearInterval w), tt.
  - by destruct dt as [tr|]; [destruct (DOMTracker.observer tr)|].
  - destruct (World.subscribe w !! store) as [[]|], rt as [tr|]; try done.
    unfold ReduxTracker.subscribe.
    by destruct (ReduxTracker.originalStoreSubscribe tr).
  - by destruct u, rt.
  - destruct (World.window w ≫= Window.REDUX_DEVTOOLS_EXTENSION) as [[]|],
      rt as [tr|]; try done.
    unfold ReduxTracker.devToolsCreateStore, ReduxTracker.patchStore.
    by destruct (ReduxTracker.storeRef tr).
  - unfold start. cbn [isRunning]. destruct running; [done|].
    unfold call_setInterval, takeSnapshot. cbn.
    by destruct (World.setInterval w), tt.
  - unfold stop. cbn [isRunning]. destruct running; [|done]. cbn.
    destruct (TimerTracker.truthy ri); [|done].
    unfold call_clearInterval. cbn.
    by destruct (World.clearInterval w), tt.
  - unfold generateReport.
    by destruct (takeSnapshot _ r) as [snapshot self1] eqn:Hts;
      unfold takeSnapshot in Hts; injection Hts as _ <-.
  - unfold patchReduxStore. cbn. destruct rt as [tr|]; [|done].
    unfold ReduxTracker.patchStore. by destruct (ReduxTracker.storeRef tr).
  - unfold trackSelectorUsage. cbn. by destruct rt.
  - unfold cleanup.
    destruct (stop _ w) as [self1 effects1] eqn:Hstop.
    assert (reduxTracker self1 = rt) as Hrt.
    { revert Hstop. unfold stop. cbn [isRunning]. destruct running; cbn;
        [|by intros [= <- <-]].
      destruct (TimerTracker.truthy ri); cbn; [|by intros [= <- <-]].
      unfold call_clearInterval. cbn.
      by destruct (World.clearInterval w), tt as [tr|]; cbn; intros [= <- <-]. }
    rewrite Hrt.
    destruct (eventTracker self1) as [tr|];
      (destruct (timerTracker self1) as [tr'|]);
      (destruct (domTracker self1) as [tr''|]);
      (destruct rt as [tr'''|]); cbn; (split; [|done]);
      try (destruct (ReduxTracker.storeRef tr''');
           destruct (ReduxTracker.originalStoreSubscribe tr''')); done.
Qed.

(** X10: when Redux tracking is enabled and the page has the DevTools
    extension, the constructor replaces window.__REDUX_DEVTOOLS_EXTENSION__
    by the tracker's wrapper, and no operation puts the extension back:
    after any operations, cleanup() included, the slot still holds the
    wrapper around the original extension.  A store created through it then
    calls the original extension and, if no store has been patched so far,
    has its subscribe replaced and becomes the tracked store, cleanup or
    not. *)
Theorem X10_devtools_hook_outlives_cleanup (conf : DetectorConfig.t)
    (w0 : World.t) (win : Window.t) (ext : Fn) (ops : list System.Op)
    (args : list nat) (store : ObjRef) :
  default true (DetectorConfig.enableReduxTracking conf) = true →
  World.window w0 = Some win →
  Window.REDUX_DEVTOOLS_EXTENSION win = Some ext →
  let sys := (System.run (ops ++ [System.Cleanup]) (System.create conf w0)).1 in
  let created := System.step (System.HostDevToolsCreateStore args store) sys in
  devToolsSlot (System.world sys) = Some (DevToolsShim ext)
  ∧ created.2 = [Call ext (DevToolsArgs args)]
  ∧ (storeRefOf sys = None →
     World.subscribe (System.world created.1) !! store = Some SubscribeShim
     ∧ storeRefOf created.1 = Some store)
  ∧ (is_Some (storeRefOf sys) → created.1 = sys).
Proof.
  intros Hflag Hwin Hext. cbv zeta.
  destruct (create_devtools conf w0 win ext Hflag Hwin Hext) as [Hslot0 Hrt0].
  assert (∀ ops,
            devToolsSlot (System.world (System.run ops (System.create conf w0)).1)
            = Some (DevToolsShim ext)
            ∧ is_Some (reduxTracker
                         (System.detector
                            (System.run ops (System.create conf w0)).1)))
    as Hinv.
  { clear ops. intros ops. induction ops as [|op ops IH] using rev_ind; [done|].
    rewrite run_snoc_step. destruct IH as [Hslot Hrt].
    destruct (devtools_step op (System.run ops (System.create conf w0)).1)
      as [Hw Hr].
    unfold devToolsSlot in *. rewrite Hw. auto. }
  destruct (Hinv (ops ++ [System.Cleanup])) as [Hslot [tr Hrt]].
  destruct (System.run _ _).1 as [[cfg et tt dt rt snaps ri running] w].
  cbn [System.detector System.world reduxTracker] in *. subst rt.
  split; [done|].
  unfold System.step, storeRefOf.
  cbn [System.detector System.world reduxTracker]. unfold devToolsSlot in Hslot.
  rewrite Hslot. unfold ReduxTracker.devToolsCreateStore, ReduxTracker.patchStore.
  cbn [mbind option_bind].
  destruct (ReduxTracker.storeRef tr) as [s|] eqn:Href; cbn.
  - split; [done|]. split; [done|]. intros _. by destruct tr.
  - split; [done|]. split; [|by intros [? ?]]. intros _.
    by rewrite lookup_insert_eq.
Qed.

(** X10 holds at a concrete input: [hostWithDevTools], default
    configuration, cleanup right after construction, then a store 7 created
    through the DevTools wrapper. *)
Lemma X10_witness :
  devToolsSlot
    (System.world
       (System.run ([] ++ [System.Cleanup])
          (System.create defaultConfig hostWithDevTools)).1)
  = Some (DevToolsShim (HostFn 20))
  ∧ World.subscribe
      (System.world
         (System.step (System.HostDevToolsCreateStore [] 7%nat)
            (System.run ([] ++ [System.Cleanup])
               (System.create defaultConfig hostWithDevTools)).1).1)
      !! 7%nat
    = Some SubscribeShim.
Proof.
  pose proof (X10_devtools_hook_outlives_cleanup defaultConfig hostWithDevTools
                {| Window.REDUX_STORE := None; Window.store := None;
                   Window.STORE := None;
                   Window.REDUX_DEVTOOLS_EXTENSION := Some (HostFn 20) |}
                (HostFn 20) [] [] 7%nat eq_refl eq_refl eq_refl)
    as (Hslot & _ & Hnone & _).
  split; [exact Hslot|]. apply Hnone. reflexivity.
Defined.

End devtools_facts.

(** ** Options that no operation reads *)

Section config_facts.
Import MemoryLeakDetector.

Lemma takeSnapshot_reconfig (c : Config.t) (self : t) (r : Readings.t) :
  takeSnapshot (with_config c self) r
  = ((takeSnapshot self r).1, with_config c (takeSnapshot self r).2).
Proof. reflexivity. Qed.

Lemma detectLeaks_reconfig (c : Config.t) (self : t) (r : Readings.t) :
  Config.reportInterval c = Config.reportInterval (MemoryLeakDetector.config self) →
  detectLeaks (with_config c self) r = detectLeaks self r.
Proof.
  intros Hri. rewrite !detectLeaks_concat. unfold memoryGrowthSuspects.
  cbn [with_config eventTracker timerTracker domTracker reduxTracker snapshots
       MemoryLeakDetector.config]. by rewrite Hri.
Qed.

Lemma reconfig_step (c : Config.t) (op : System.Op) (sys : System.t) :
  Config.reportInterval c
  = Config.reportInterval (MemoryLeakDetector.config (System.detector sys)) →
  System.step op (reconfig c sys)
  = (reconfig c (System.step op sys).1, (System.step op sys).2).
Proof.
  destruct sys as [[cfg et tt dt rt snaps ri running] w].
  cbn [System.detector MemoryLeakDetector.config]. intros Hri.
  destruct op; unfold System.step, reconfig, with_config;
    cbn [System.detector System.world eventTracker timerTracker domTracker
         reduxTracker snapshots MemoryLeakDetector.config reportInterval
         isRunning].
  - by destruct (World.addEventListener w), et.
  - by destruct (World.removeEventListener w), et.
  - by destruct (World.setTimeout w), tt.
  - by destruct (World.setInterval w), tt.
  - by destruct (World.clearTimeout w), tt.
  - by destruct (World.clearInterval w), tt.
  - by destruct dt as [tr|]; [destruct (DOMTracker.observer tr)|].
  - destruct (World.subscribe w !! store) as [[]|], rt as [tr|]; try done.
    unfold ReduxTracker.subscribe.
    by destruct (ReduxTracker.originalStoreSubscribe tr).
  - by destruct u, rt.
  - destruct (World.window w ≫= Window.REDUX_DEVTOOLS_EXTENSION) as [[]|],
      rt as [tr|]; try done.
    unfold ReduxTracker.devToolsCreateStore, ReduxTracker.patchStore.
    by destruct (ReduxTracker.storeRef tr).
  - unfold start. cbn [isRunning]. destruct running; [done|].
    unfold call_setInterval, takeSnapshot. cbn. rewrite Hri.
    by destruct (World.setInterval w), tt.
  - unfold stop. cbn [isRunning]. destruct running; [|done]. cbn.
    destruct (TimerTracker.truthy ri); [|done].
    unfold call_clearInterval. cbn.
    by destruct (World.clearInterval w), tt.
  - unfold generateReport.
    change {| MemoryLeakDetector.config := c; eventTracker := et;
              timerTracker := tt; domTracker := dt; reduxTracker := rt;
              snapshots := snaps; reportInterval := ri; isRunning := running |}
      with (with_config c
              {| MemoryLeakDetector.config := cfg; eventTracker := et;
                 timerTracker := tt; domTracker := dt; reduxTracker := rt;
                 snapshots := snaps; reportInterval := ri;
                 isRunning := running |}).
    rewrite takeSnapshot_reconfig.
    destruct (takeSnapshot _ r) as [snapshot self1] eqn:Hts.
    cbn [fst snd]. rewrite detectLeaks_reconfig; [done|].
    unfold takeSnapshot in Hts. by injection Hts as _ <-.
  - unfold patchReduxStore. cbn. destruct rt as [tr|]; [|done].
    unfold ReduxTracker.patchStore. by destruct (ReduxTracker.storeRef tr).
  - unfold trackSelectorUsage. cbn. by destruct rt.
  - unfold cleanup, stop. cbn [isRunning]. destruct running; cbn.
    + destruct (TimerTracker.truthy ri); cbn.
      * unfold call_clearInterval. cbn.
        destruct (World.clearInterval w), tt as [tr|]; cbn;
          destruct et, dt, rt; reflexivity.
      * destruct et, tt, dt, rt; reflexivity.
    + destruct et, tt, dt, rt; reflexivity.
Qed.

Lemma reconfig_reportInterval (op : System.Op) (sys : System.t) :
  Config.reportInterval (MemoryLeakDetector.config
                           (System.detector (System.step op sys).1))
  = Config.reportInterval (MemoryLeakDetector.config (System.detector sys)).
Proof.
  pose proof (reconfig_step (MemoryLeakDetector.config (System.detector sys))
                op sys eq_refl) as Hstep.
  assert (reconfig (MemoryLeakDetector.config (System.detector sys)) sys = sys)
    as Hid by (by destruct sys as [[] ?]).
  rewrite Hid in Hstep. destruct (System.step op sys) as [sys1 effects].
  injection Hstep as Hsys. cbn [fst]. rewrite Hsys at 1. reflexivity.
Qed.

(** X14: the options memoryThreshold and enablePerformanceObserver are
    stored in the configuration and read by no operation: for every host and
    every sequence of operations, a detector constructed with other values
    for the two options produces the same effects (the same calls of the
    host's functions, the same suspects and reports passed to the callbacks)
    and ends in the same host state and the same detector state, the stored
    configuration apart. *)
Theorem X14_stored_options_unused (conf : DetectorConfig.t) (w0 : World.t)
    (ops : list System.Op) (memoryThreshold : option Z)
    (enablePerformanceObserver : option bool) :
  let conf' := with_stored_options memoryThreshold enablePerformanceObserver
                 conf in
  let result := System.run ops (System.create conf w0) in
  let result' := System.run ops (System.create conf' w0) in
  result'.2 = result.2
  ∧ System.world result'.1 = System.world result.1
  ∧ result'.1 = reconfig (resolveConfig conf') result.1.
Proof.
  cbv zeta.
  set (conf' := with_stored_options memoryThreshold enablePerformanceObserver
                  conf).
  assert (System.create conf' w0
          = reconfig (resolveConfig conf') (System.create conf w0)) as Hcreate.
  { unfold System.create, new. cbv zeta.
    change (Config.enableEventListenerTracking (resolveConfig conf'))
      with (Config.enableEventListenerTracking (resolveConfig conf)).
    change (Config.enableTimerTracking (resolveConfig conf'))
      with (Config.enableTimerTracking (resolveConfig conf)).
    change (Config.enableDOMTracking (resolveConfig conf'))
      with (Config.enableDOMTracking (resolveConfig conf)).
    change (Config.enableReduxTracking (resolveConfig conf'))
      with (Config.enableReduxTracking (resolveConfig conf)).
    destruct (Config.enableEventListenerTracking (resolveConfig conf)),
      (Config.enableTimerTracking (resolveConfig conf)),
      (Config.enableDOMTracking (resolveConfig conf)),
      (Config.enableReduxTracking (resolveConfig conf));
      cbn [EventListenerTracker.new TimerTracker.new];
      repeat match goal with
      | |- context [DOMTracker.new ?w] => destruct (DOMTracker.new w) as [? ?]
      | |- context [ReduxTracker.new ?w] =>
          destruct (ReduxTracker.new w) as [? ?]
      end; reflexivity. }
  assert (Config.reportInterval (resolveConfig conf')
          = Config.reportInterval
              (MemoryLeakDetector.config
                 (System.detector (System.create conf w0)))) as Hri0.
  { unfold System.create, new. cbv zeta.
    destruct (Config.enableEventListenerTracking (resolveConfig conf)),
      (Config.enableTimerTracking (resolveConfig conf)),
      (Config.enableDOMTracking (resolveConfig conf)),
      (Config.enableReduxTracking (resolveConfig conf));
      cbn [EventListenerTracker.new TimerTracker.new];
      repeat match goal with
      | |- context [DOMTracker.new ?w] => destruct (DOMTracker.new w) as [? ?]
      | |- context [ReduxTracker.new ?w] =>
          destruct (ReduxTracker.new w) as [? ?]
      end; reflexivity. }
  rewrite Hcreate. clear Hcreate.
  generalize dependent (System.create conf w0). intros sys0 Hri0.
  generalize (resolveConfig conf') Hri0. clear. intros c Hri0.
  assert (System.run ops (reconfig c sys0)
          = (reconfig c (System.run ops sys0).1, (System.run ops sys0).2)
          ∧ Config.reportInterval c
            = Config.reportInterval
                (MemoryLeakDetector.config
                   (System.detector (System.run ops sys0).1))) as [Hrun _].
  { induction ops as [|op ops [IH Hri]] using rev_ind; [done|].
    split.
    - rewrite (surjective_pairing (System.run (ops ++ [op]) (reconfig c sys0))).
      rewrite (run_snoc_step ops op (reconfig c sys0)).
      rewrite (run_snoc_effects ops op (reconfig c sys0)), IH.
      cbn [fst snd]. rewrite (reconfig_step c op _ Hri). cbn [fst snd].
      by rewrite <- run_snoc_step, <- run_snoc_effects.
    - rewrite run_snoc_step, reconfig_reportInterval. exact Hri. }
  rewrite Hrun. done.
Qed.

End config_facts.

(** ** One report interval at a time *)

Section interval_facts.
Import MemoryLeakDetector.

Lemma stop_balance (self : t) (w : World.t) :
  (if isRunning self
   then ∃ id, reportInterval self = Some id ∧ id ≠ 0
   else reportInterval self = None) →
  isRunning (stop self w).1 = false
  ∧ reportInterval (stop self w).1 = None
  ∧ length (filter isSetTimer (stop self w).2) = 0%nat
  ∧ length (filter isClearTimer (stop self w).2)
    = (if isRunning self then 1 else 0)%nat.
Proof.
  destruct self as [cfg et tt dt rt snaps ri running].
  unfold stop. cbn [isRunning reportInterval]. destruct running; cbn [negb].
  - intros (id & -> & Hid). cbn [with_running reportInterval].
    unfold TimerTracker.truthy. rewrite bool_decide_eq_true_2 by done.
    unfold call_clearInterval. cbn [timerTracker].
    destruct (World.clearInterval w), tt as [tr|]; by cbn.
  - intros ->. by cbn.
Qed.

Lemma interval_step (op : System.Op) (sys : System.t) :
  noTimerActivity op → intervalHeld sys →
  intervalHeld (System.step op sys).1
  ∧ (length (filter isSetTimer (System.step op sys).2) + liveIntervals sys
     = length (filter isClearTimer (System.step op sys).2)
       + liveIntervals (System.step op sys).1)%nat.
Proof.
  intros Hop. unfold intervalHeld, liveIntervals.
  destruct op; try (by destruct Hop); cbn [noTimerActivity] in Hop.
  8: { pose proof (stop_balance (System.detector sys) (System.world sys)) as Hs.
        unfold System.step. destruct (stop _ _) as [d1 effects].
        cbn [fst snd System.detector] in *. intros Hheld.
        destruct (Hs Hheld) as (-> & -> & -> & ->).
        split; [done|]. destruct (isRunning (System.detector sys)); lia. }
  11: { pose proof (stop_balance (System.detector sys) (System.world sys)) as Hs.
        destruct sys as [[cfg et tt dt rt snaps ri running] w].
        unfold System.step, cleanup. cbn [System.detector System.world] in *.
        destruct (stop _ w) as [self1 effects1]. cbn [fst snd] in Hs.
        intros Hheld. destruct (Hs Hheld) as (Hrun & Hri & Hset & Hclear).
        destruct (eventTracker self1) as [tr|];
          [destruct (EventListenerTracker.cleanup tr w)|];
          (destruct (timerTracker self1) as [tr'|];
            [destruct (TimerTracker.cleanup tr' _)|]);
          (destruct (domTracker self1) as [tr''|];
            [unfold DOMTracker.cleanup; destruct (DOMTracker.observer tr'')|]);
          (destruct (reduxTracker self1) as [tr'''|];
            [destruct (ReduxTracker.cleanup tr''' _)|]);
          cbn [fst snd System.detector isRunning reportInterval];
          rewrite Hrun, Hri, ?app_nil_r, ?filter_app, ?length_app, ?Hset, ?Hclear;
          (split; [done|]); cbn; destruct running; lia. }
  all: destruct sys as [[cfg et tt dt rt snaps ri running] w];
    unfold System.step;
    cbn [System.detector System.world eventTracker timerTracker domTracker
         reduxTracker snapshots isRunning reportInterval].
  - by destruct (World.addEventListener w), et.
  - by destruct (World.removeEventListener w), et.
  - by destruct dt as [tr|]; [destruct (DOMTracker.observer tr)|].
  - destruct (World.subscribe w !! store) as [[]|], rt as [tr|]; try done.
    unfold ReduxTracker.subscribe.
    by destruct (ReduxTracker.originalStoreSubscribe tr).
  - by destruct u, rt.
  - destruct (World.window w ≫= Window.REDUX_DEVTOOLS_EXTENSION) as [[]|],
      rt as [tr|]; try done.
    unfold ReduxTracker.devToolsCreateStore, ReduxTracker.patchStore.
    by destruct (ReduxTracker.storeRef tr).
  - unfold start. cbn [isRunning]. destruct running; [done|].
    unfold call_setInterval, takeSnapshot. cbn.
    destruct (World.setInterval w), tt; cbn; intros _; (split; [eauto|done]).
  - unfold generateReport.
    destruct (takeSnapshot _ r) as [snapshot self1] eqn:Hts.
    unfold takeSnapshot in Hts. injection Hts as _ <-.
    cbn [fst snd System.detector with_snapshots isRunning reportInterval].
    intros Hheld. split; [done|].
    rewrite !filter_app, !length_app, (foldl_push_one OnLeak).
    assert (∀ l, filter isSetTimer (OnLeak <$> l) = []) as Hset.
    { clear. intros l. induction l as [|s l IH]; [done|].
      csimpl. rewrite filter_cons. cbn. by rewrite IH. }
    assert (∀ l, filter isClearTimer (OnLeak <$> l) = []) as Hclear.
    { clear. intros l. induction l as [|s l IH]; [done|].
      csimpl. rewrite filter_cons. cbn. by rewrite IH. }
    by rewrite Hset, Hclear.
  - unfold patchReduxStore. cbn. destruct rt as [tr|]; [|done].
    unfold ReduxTracker.patchStore. by destruct (ReduxTracker.storeRef tr).
  - unfold trackSelectorUsage. cbn. by destruct rt.
Qed.

(** X11: over any sequence of operations without timer calls of the
    application, in which the native setInterval returns non-zero ids, the
    detector holds at most one report interval: the number of setInterval
    calls it has made is the number of its clearInterval calls plus 1 while
    it is running and plus 0 otherwise, whatever the order of start(),
    stop(), cleanup() and the reports; it keeps the id of the interval while
    running and no id when stopped. *)
Theorem X11_one_report_interval (conf : DetectorConfig.t) (w0 : World.t)
    (ops : list System.Op) :
  Forall noTimerActivity ops →
  let result := System.run ops (System.create conf w0) in
  (length (filter isSetTimer result.2)
   = length (filter isClearTimer result.2) + liveIntervals result.1)%nat
  ∧ intervalHeld result.1.
Proof.
  intros Hops. cbv zeta. induction ops as [|op ops IH] using rev_ind.
  - unfold intervalHeld, liveIntervals. cbn [System.run foldl fst snd].
    assert (isRunning (System.detector (System.create conf w0)) = false
            ∧ reportInterval (System.detector (System.create conf w0)) = None)
      as [-> ->]; [|done].
    unfold System.create, new. cbv zeta.
    destruct (Config.enableEventListenerTracking (resolveConfig conf)),
      (Config.enableTimerTracking (resolveConfig conf)),
      (Config.enableDOMTracking (resolveConfig conf)),
      (Config.enableReduxTracking (resolveConfig conf));
      cbn [EventListenerTracker.new TimerTracker.new];
      repeat match goal with
      | |- context [DOMTracker.new ?w] => destruct (DOMTracker.new w) as [? ?]
      | |- context [ReduxTracker.new ?w] =>
          destruct (ReduxTracker.new w) as [? ?]
      end; done.
  - apply Forall_app in Hops as [Hops Hop].
    apply Forall_cons in Hop as [Hop _]. destruct (IH Hops) as [Hbal Hheld].
    rewrite run_snoc_step, run_snoc_effects, !filter_app, !length_app.
    destruct (interval_step op _ Hop Hheld) as [Hheld' Hstep].
    split; [lia|done].
Qed.

(** X11 holds at a concrete input: start, a second start, stop, start and
    cleanup in [host0] with the default configuration. *)
Lemma X11_witness :
  let r := {| Readings.performance_memory := None; Readings.now := 1000;
              Readings.domNodes := 10; Readings.timer_now := 1000;
              Readings.detect_domNodes := 10; Readings.redux_now := 1000 |} in
  let result :=
    System.run [System.Start r 5 1000 None; System.Start r 6 1001 None;
                System.Stop; System.Start r 7 1002 None; System.Cleanup]
      (System.create defaultConfig host0) in
  (length (filter isSetTimer result.2)
   = length (filter isClearTimer result.2) + liveIntervals result.1)%nat
  ∧ intervalHeld result.1.
Proof.
  apply (X11_one_report_interval defaultConfig host0).
  repeat constructor; done.
Defined.

End interval_facts.

(** ** Cleanup releases nothing *)

Section release_facts.
Import MemoryLeakDetector.

Lemma stop_effects (self : t) (w : World.t) :
  Forall (cleanupEffect self) (stop self w).2
  ∧ domTracker (stop self w).1 = domTracker self.
Proof.
  destruct self as [cfg et tt dt rt snaps ri running].
  unfold stop. cbn [isRunning reportInterval]. destruct running; cbn [negb];
    [|by split; [constructor|]].
  cbn [with_running reportInterval].
  destruct (TimerTracker.truthy ri) eqn:Htr; [|by split; repeat constructor].
  unfold call_clearInterval. cbn [timerTracker with_running].
  destruct (World.clearInterval w), tt as [tr|]; cbn;
    by split; repeat constructor.
Qed.

(** X12: in every state of the detector and the host, the only things
    cleanup() does to the outside are clearing the detector's own report
    interval and logging the stop (both only when it was running) and
    disconnecting the mutation observer (when there is one): it never calls
    removeEventListener, never clears a timer of the application and never
    calls an unsubscribe, so what the trackers had recorded stays
    registered in the host.  It has at most three effects. *)
Theorem X12_cleanup_releases_nothing (sys : System.t) :
  Forall (cleanupEffect (System.detector sys))
    (System.step System.Cleanup sys).2
  ∧ (length (System.step System.Cleanup sys).2 ≤ 3)%nat.
Proof.
  pose proof (stop_effects (System.detector sys) (System.world sys))
    as [Hstop Hdom].
  assert (length (stop (System.detector sys) (System.world sys)).2 ≤ 2)%nat
    as Hlen.
  { destruct sys as [[cfg et tt dt rt snaps ri running] w].
    unfold stop. cbn [System.detector System.world isRunning reportInterval].
    destruct running; cbn [negb]; [|cbn; lia].
    cbn [with_running reportInterval].
    destruct (TimerTracker.truthy ri); [|cbn; lia].
    unfold call_clearInterval. cbn [timerTracker with_running].
    destruct (World.clearInterval w), tt as [tr|]; cbn; lia. }
  unfold System.step, cleanup.
  destruct (stop _ _) as [self1 effects1]. cbn [fst snd] in *.
  destruct (eventTracker self1) as [tr|];
    [destruct (EventListenerTracker.cleanup tr _)|];
    (destruct (timerTracker self1) as [tr'|];
      [destruct (TimerTracker.cleanup tr' _)|]);
    (destruct (domTracker self1) as [tr''|] eqn:Hd;
      [unfold DOMTracker.cleanup; destruct (DOMTracker.observer tr'') eqn:Hobs|]);
    (destruct (reduxTracker self1) as [tr'''|];
      [destruct (ReduxTracker.cleanup tr''' _)|]);
    cbn [fst snd]; rewrite ?app_nil_r, ?length_app; cbn [length];
    (split; [|lia]); try done;
    (apply Forall_app; split; [done|]); apply Forall_singleton;
    exists tr''; by rewrite <- Hdom.
Qed.

End release_facts.

(** ** The store chosen by the constructor *)

Section choice_facts.

Lemma firstStore_filter (w : World.t) (l : list (option ObjRef)) :
  ReduxTracker.firstStore w l = mjoin (head (filter (λ c, hasSubscribe w c = true) l)).
Proof.
  induction l as [|[store|] l IH]; [done| |].
  - cbn [ReduxTracker.firstStore]. rewrite filter_cons. cbn [hasSubscribe].
    destruct (decide (is_Some (World.subscribe w !! store))) as [Hs|Hs].
    + by rewrite bool_decide_eq_true_2, decide_True.
    + by rewrite bool_decide_eq_false_2, decide_False.
  - cbn [ReduxTracker.firstStore]. rewrite filter_cons. cbn [hasSubscribe].
    by rewrite decide_False.
Qed.

Lemma new_store (w : World.t) :
  ReduxTracker.storeRef (ReduxTracker.new w).1
  = ReduxTracker.firstStore w (possibleStores w)
  ∧ ReduxTracker.originalStoreSubscribe (ReduxTracker.new w).1
    = ReduxTracker.firstStore w (possibleStores w) ≫= (World.subscribe w !!.)
  ∧ World.subscribe (ReduxTracker.new w).2
    = match ReduxTracker.firstStore w (possibleStores w) with
      | Some store => <[store := SubscribeShim]> (World.subscribe w)
      | None => World.subscribe w
      end.
Proof.
  unfold ReduxTracker.new, ReduxTracker.patchReduxStore, possibleStores,
    ReduxTracker.detectStoreFromWindow.
  destruct (World.window w) as [win|]; [|done].
  destruct (ReduxTracker.firstStore w _) as [store|];
    by destruct (Window.REDUX_DEVTOOLS_EXTENSION win).
Qed.

(** X13: the constructor of the store tracker takes, among
    window.__REDUX_STORE__, window.store and window.__STORE__ in this order,
    the first one that is an object with a function subscribe, and no store
    when there is no window or no candidate passes.  It saves that store's
    subscribe and installs its own on it, leaves the subscribe of every
    other object as it is, starts with empty registries, and leaves the six
    listener and timer entry points alone. *)
Theorem X13_constructor_store_choice (w : World.t) :
  let tr := (ReduxTracker.new w).1 in
  let w1 := (ReduxTracker.new w).2 in
  ReduxTracker.storeRef tr
  = mjoin (head (filter (λ c, hasSubscribe w c = true) (possibleStores w)))
  ∧ ReduxTracker.originalStoreSubscribe tr
    = ReduxTracker.storeRef tr ≫= (World.subscribe w !!.)
  ∧ (∀ store, World.subscribe w1 !! store
              = if decide (ReduxTracker.storeRef tr = Some store)
                then Some SubscribeShim else World.subscribe w !! store)
  ∧ (∀ store, ReduxTracker.storeRef tr = Some store →
              is_Some (World.subscribe w !! store)
              ∧ Some store ∈ possibleStores w)
  ∧ ReduxTracker.getActiveSubscriptions tr = 0
  ∧ ReduxTracker.selectorCalls tr = []
  ∧ entryPoints w1 = entryPoints w.
Proof.
  cbv zeta. pose proof (ReduxTracker_new_maps w) as [Hsubs Hsel].
  pose proof (ReduxTracker_new_entryPoints w) as Hep.
  unfold ReduxTracker.getActiveSubscriptions. rewrite Hsubs, Hsel, Hep.
  destruct (new_store w) as (Href & Horig & Hsub).
  rewrite Horig, Hsub, Href. clear Horig Hsub Href Hsubs Hsel Hep.
  pose proof (firstStore_filter w (possibleStores w)) as Hfirst.
  split; [done|]. split; [done|]. split; [|split; [|done]].
  - intros store. destruct (ReduxTracker.firstStore w _) as [s|].
    + destruct (decide (Some s = Some store)) as [[= ->]|Hne].
      * by rewrite lookup_insert_eq.
      * rewrite lookup_insert_ne; [done|]. congruence.
    + by rewrite decide_False.
  - intros store Hs. rewrite Hfirst in Hs.
    destruct (filter _ _) as [|c l] eqn:Hf; [done|]. cbn in Hs. subst c.
    assert (Some store ∈ filter (λ c, hasSubscribe w c = true)
                           (possibleStores w)) as Hin
      by (rewrite Hf; apply list_elem_of_here).
    apply list_elem_of_filter in Hin as [Hq Hin]. split; [|done].
    cbn in Hq. by apply bool_decide_eq_true in Hq.
Qed.

End choice_facts.

(** ** The subscription registry *)

Section subscription_facts.
Import StoreCalls.





End subscription_facts.

(** ** Disabled store and DOM tracking *)

Section disabled_facts.
Import MemoryLeakDetector.

Lemma create_redux_disabled (conf : DetectorConfig.t) (w0 : World.t) :
  DetectorConfig.enableReduxTracking conf = Some false →
  reduxTracker (System.detector (System.create conf w0)) = None
  ∧ World.subscribe (System.world (System.create conf w0)) = World.subscribe w0
  ∧ World.window (System.world (System.create conf w0)) = World.window w0.
Proof.
  intros Hflag. unfold System.create, new, resolveConfig. cbv zeta.
  cbn [Config.enableEventListenerTracking Config.enableTimerTracking
       Config.enableDOMTracking Config.enableReduxTracking].
  rewrite Hflag. cbn [default].
  destruct (default true (DetectorConfig.enableEventListenerTracking conf)),
    (default true (DetectorConfig.enableTimerTracking conf)),
    (default true (DetectorConfig.enableDOMTracking conf));
    cbn [EventListenerTracker.new TimerTracker.new];
    repeat match goal with
    | |- context [DOMTracker.new ?w] => destruct (DOMTracker.new w) as [? ?]
    end; done.
Qed.

Lemma create_dom_disabled (conf : DetectorConfig.t) (w0 : World.t) :
  DetectorConfig.enableDOMTracking conf = Some false →
  domTracker (System.detector (System.create conf w0)) = None.
Proof.
  intros Hflag. unfold System.create, new, resolveConfig. cbv zeta.
  cbn [Config.enableEventListenerTracking Config.enableTimerTracking
       Config.enableDOMTracking Config.enableReduxTracking].
  rewrite Hflag. cbn [default].
  destruct (default true (DetectorConfig.enableEventListenerTracking conf)),
    (default true (DetectorConfig.enableTimerTracking conf)),
    (default true (DetectorConfig.enableReduxTracking conf));
    cbn [EventListenerTracker.new TimerTracker.new];
    repeat match goal with
    | |- context [ReduxTracker.new ?w] => destruct (ReduxTracker.new w) as [? ?]
    end; done.
Qed.

Lemma disabled_step (op : System.Op) (sys : System.t) :
  (reduxTracker (System.detector sys) = None →
   reduxTracker (System.detector (System.step op sys).1) = None
   ∧ World.subscribe (System.world (System.step op sys).1)
     = World.subscribe (System.world sys))
  ∧ (domTracker (System.detector sys) = None →
     domTracker (System.detector (System.step op sys).1) = None).
Proof.
  destruct sys as [[cfg et tt dt rt snaps ri running] w].
  destruct op; unfold System.step;
    cbn [System.detector System.world eventTracker timerTracker domTracker
         reduxTracker snapshots].
  - by destruct (World.addEventListener w), et.
  - by destruct (World.removeEventListener w), et.
  - by destruct (World.setTimeout w), tt.
  - by destruct (World.setInterval w), tt.
  - by destruct (World.clearTimeout w), tt.
  - by destruct (World.clearInterval w), tt.
  - by destruct dt as [tr|]; [destruct (DOMTracker.observer tr)|].
  - destruct (World.subscribe w !! store) as [[]|], rt as [tr|]; try done.
    unfold ReduxTracker.subscribe.
    by destruct (ReduxTracker.originalStoreSubscribe tr).
  - by destruct u, rt.
  - destruct (World.window w ≫= Window.REDUX_DEVTOOLS_EXTENSION) as [[]|],
      rt as [tr|]; try done.
    unfold ReduxTracker.devToolsCreateStore, ReduxTracker.patchStore.
    by destruct (ReduxTracker.storeRef tr).
  - unfold start. cbn [isRunning]. destruct running; [done|].
    unfold call_setInterval, takeSnapshot. cbn.
    by destruct (World.setInterval w), tt.
  - unfold stop. cbn [isRunning]. destruct running; [|done]. cbn.
    destruct (TimerTracker.truthy ri); [|done].
    unfold call_clearInterval. cbn.
    by destruct (World.clearInterval w), tt.
  - unfold generateReport.
    by destruct (takeSnapshot _ r) as [snapshot self1] eqn:Hts;
      unfold takeSnapshot in Hts; injection Hts as _ <-.
  - unfold patchReduxStore. cbn. destruct rt as [tr|]; [|done].
    unfold ReduxTracker.patchStore. by destruct (ReduxTracker.storeRef tr).
  - unfold trackSelectorUsage. cbn. by destruct rt.
  - unfold cleanup.
    destruct (stop _ w) as [self1 effects1] eqn:Hstop.
    assert (reduxTracker self1 = rt ∧ domTracker self1 = dt) as [Hrt Hdt].
    { revert Hstop. unfold stop. cbn [isRunning]. destruct running; cbn;
        [|by intros [= <- <-]].
      destruct (TimerTracker.truthy ri); cbn; [|by intros [= <- <-]].
      unfold call_clearInterval. cbn.
      by destruct (World.clearInterval w), tt as [tr|]; cbn; intros [= <- <-]. }
    rewrite Hrt, Hdt.
    destruct (eventTracker self1) as [tr|];
      (destruct (timerTracker self1) as [tr'|]);
      (destruct dt as [tr''|]); (destruct rt as [tr'''|]); cbn; by split.
Qed.

(** X17: with enableReduxTracking false no store tracker is ever created:
    after any operations no object's subscribe and no property of window has
    been changed, and patchReduxStore, trackSelectorUsage and a store
    created through the DevTools extension leave the detector and the host
    as they are.  With enableDOMTracking false no DOM tracker is ever
    created: mutations change nothing, and every snapshot records 0 DOM
    nodes and 0 detached nodes, whatever the document holds. *)
Theorem X17_disabled_store_and_dom_tracking (conf : DetectorConfig.t)
    (w0 : World.t) (ops : list System.Op) :
  let sys := (System.run ops (System.create conf w0)).1 in
  (DetectorConfig.enableReduxTracking conf = Some false →
   reduxTracker (System.detector sys) = None
   ∧ World.subscribe (System.world sys) = World.subscribe w0
   ∧ World.window (System.world sys) = World.window w0
   ∧ (∀ store, System.step (System.PatchReduxStore store) sys = (sys, []))
   ∧ (∀ name now,
        System.step (System.TrackSelectorUsage name now) sys = (sys, []))
   ∧ (∀ args store,
        (System.step (System.HostDevToolsCreateStore args store) sys).1 = sys))
  ∧ (DetectorConfig.enableDOMTracking conf = Some false →
     domTracker (System.detector sys) = None
     ∧ (∀ mutations,
          System.step (System.HostMutations mutations) sys = (sys, []))
     ∧ (∀ r, let counts :=
               MemorySnapshot.counts (takeSnapshot (System.detector sys) r).1 in
             Counts.domNodes counts = 0 ∧ Counts.detachedNodes counts = 0)).
Proof.
  cbv zeta. split; intros Hflag.
  - assert (reduxTracker
              (System.detector (System.run ops (System.create conf w0)).1) = None
            ∧ World.subscribe
                (System.world (System.run ops (System.create conf w0)).1)
              = World.subscribe w0
            ∧ World.window
                (System.world (System.run ops (System.create conf w0)).1)
              = World.window w0) as (Hrt & Hsub & Hwin).
    { induction ops as [|op ops IH] using rev_ind;
        [by apply create_redux_disabled|].
      destruct IH as (Hrt & Hsub & Hwin). rewrite run_snoc_step.
      destruct (disabled_step op (System.run ops (System.create conf w0)).1)
        as [Hr _].
      destruct (Hr Hrt) as [Hrt' Hsub'].
      destruct (devtools_step op (System.run ops (System.create conf w0)).1)
        as [Hwin' _].
      split; [done|]. split; congruence. }
    destruct (System.run ops (System.create conf w0)).1
      as [[cfg et tt dt rt snaps ri running] w].
    cbn [System.detector System.world reduxTracker] in *. subst rt.
    split_and!; try done.
    intros args store. unfold System.step.
    cbn [System.detector System.world reduxTracker].
    by destruct (World.window w ≫= Window.REDUX_DEVTOOLS_EXTENSION) as [[]|].
  - assert (domTracker
              (System.detector (System.run ops (System.create conf w0)).1) = None)
      as Hdt.
    { induction ops as [|op ops IH] using rev_ind;
        [by apply create_dom_disabled|].
      rewrite run_snoc_step.
      by apply (disabled_step op (System.run ops (System.create conf w0)).1). }
    destruct (System.run ops (System.create conf w0)).1
      as [[cfg et tt dt rt snaps ri running] w].
    cbn [System.detector System.world domTracker] in *. subst dt.
    by split_and!.
Qed.

(** X17 holds at a concrete input: [hostWithStore] with Redux tracking
    disabled, after a subscription, a patchReduxStore call and cleanup. *)
Lemma X17_witness :
  let conf :=
    {| DetectorConfig.enableEventListenerTracking := None;
       DetectorConfig.enableTimerTracking := None;
       DetectorConfig.enableDOMTracking := None;
       DetectorConfig.enableReduxTracking := Some false;
       DetectorConfig.enablePerformanceObserver := None;
       DetectorConfig.reportInterval := None;
       DetectorConfig.memoryThreshold := None |} in
  let sys :=
    (System.run [System.HostSubscribe 1%nat 1%nat 1%nat 100 1000 None;
                 System.PatchReduxStore 1%nat; System.Cleanup]
       (System.create conf hostWithStore)).1 in
  reduxTracker (System.detector sys) = None
  ∧ World.subscribe (System.world sys) = World.subscribe hostWithStore.
Proof.
  intros conf sys.
  destruct (proj1 (X17_disabled_store_and_dom_tracking conf hostWithStore
                     [System.HostSubscribe 1%nat 1%nat 1%nat 100 1000 None;
                      System.PatchReduxStore 1%nat; System.Cleanup])
              eq_refl) as (Hrt & Hsub & _).
  split; [exact Hrt|exact Hsub].
Defined.

End disabled_facts.
